(** * Smart Pantry: expiry classification, inventory statistics, recipe
      matching and the inventory store operations.

    A shallow embedding of the TypeScript sources
    [backend/src/routes/inventory.ts], [backend/src/services/gemini.ts]
    (both revisions), [backend/src/services/notifications.ts],
    [backend/src/db/schema.ts] and [src/SmartPantry.tsx]; and, for the
    further routes and views, of [backend/src/routes/auth.ts],
    [backend/src/routes/recipes.ts], [backend/src/routes/notifications.ts],
    [backend/src/services/ocr.ts] and the requests of [src/services/api.ts]. *)

From Stdlib Require Import ZArith QArith Qround Qabs Qpower Lqa Lia.
From Stdlib Require Import List String Ascii Bool Permutation Sorted.
From Stdlib Require Import DecimalString.
Import ListNotations.

Open Scope Z_scope.

(* ================================================================= *)
(** ** JavaScript numbers *)

(** A JavaScript number is NaN, an infinity, or a finite value.  Finite
    values are kept as exact rationals; every arithmetic operation rounds
    its exact result with [fl], the round-to-nearest of double precision.
    Signed zeros are not distinguished: no operation below divides a
    non-zero value by zero. *)
Inductive number : Type :=
| NaN
| Inf (neg : bool)
| Fin (q : Q).

(** The rounding of one arithmetic operation. *)
Class Rounding : Type := { fl : Q -> Q }.

(** What the proofs use of a rounding; double precision, defined below, is
    shown to have these four properties. *)
Class Faithful (R : Rounding) : Prop := {
  fl_compat : forall x y : Q, (x == y)%Q -> (fl x == fl y)%Q;
  fl_monotone : forall x y : Q, (x <= y)%Q -> (fl x <= fl y)%Q;
  fl_representable : forall (m : Z) (e : Z),
      Z.abs m <= 2 ^ 53 ->
      (fl (inject_Z m * 2 ^ e) == inject_Z m * 2 ^ e)%Q;
  fl_error : forall x : Q,
      (Qabs (fl x - x) <= Qabs x * (1 # 2 ^ 53))%Q
}.

Definition Qlt_bool (x y : Q) : bool := negb (Qle_bool y x).

Section Numbers.
Context {R : Rounding}.

(** A decimal literal of the source text, e.g. [3.5] or [0.8]. *)
Definition literal (q : Q) : number := Fin (fl q).

(** An integral value such as [array.length] or a counter. *)
Definition of_Z (z : Z) : number := Fin (inject_Z z).
Definition of_nat (n : nat) : number := of_Z (Z.of_nat n).

Definition sign_neg (q : Q) : bool := Qlt_bool q 0.

(** [x / y] *)
Definition num_div (x y : number) : number :=
  match x, y with
  | NaN, _ | _, NaN => NaN
  | Inf _, Inf _ => NaN
  | Inf a, Fin q => Inf (xorb a (sign_neg q))
  | Fin _, Inf _ => Fin 0
  | Fin p, Fin q =>
      if Qeq_bool q 0
      then if Qeq_bool p 0 then NaN else Inf (sign_neg p)
      else Fin (fl (p / q))
  end.

(** [x * y] *)
Definition num_mul (x y : number) : number :=
  match x, y with
  | NaN, _ | _, NaN => NaN
  | Inf a, Inf b => Inf (xorb a b)
  | Inf a, Fin q | Fin q, Inf a =>
      if Qeq_bool q 0 then NaN else Inf (xorb a (sign_neg q))
  | Fin p, Fin q => Fin (fl (p * q))
  end.

(** [x + y] *)
Definition num_add (x y : number) : number :=
  match x, y with
  | NaN, _ | _, NaN => NaN
  | Inf a, Inf b => if Bool.eqb a b then Inf a else NaN
  | Inf a, Fin _ | Fin _, Inf a => Inf a
  | Fin p, Fin q => Fin (fl (p + q))
  end.

(** [x - y] *)
Definition num_sub (x y : number) : number :=
  match x, y with
  | NaN, _ | _, NaN => NaN
  | Inf a, Inf b => if Bool.eqb a b then NaN else Inf a
  | Inf a, Fin _ => Inf a
  | Fin _, Inf b => Inf (negb b)
  | Fin p, Fin q => Fin (fl (p - q))
  end.

(** [Math.round]: the nearest integer, a tie going up. *)
Definition Math_round (x : number) : number :=
  match x with
  | Fin q => of_Z (Qfloor (q + (1 # 2)))
  | other => other
  end.

(** [Math.ceil] *)
Definition Math_ceil (x : number) : number :=
  match x with
  | Fin q => of_Z (Qceiling q)
  | other => other
  end.

(** [x < y]; false as soon as one side is NaN. *)
Definition num_ltb (x y : number) : bool :=
  match x, y with
  | NaN, _ | _, NaN => false
  | Inf a, Inf b => a && negb b
  | Inf a, Fin _ => a
  | Fin _, Inf b => negb b
  | Fin p, Fin q => Qlt_bool p q
  end.

(** [x <= y]; false as soon as one side is NaN. *)
Definition num_leb (x y : number) : bool :=
  match x, y with
  | NaN, _ | _, NaN => false
  | Inf a, Inf b => a || negb b
  | Inf a, Fin _ => a
  | Fin _, Inf b => negb b
  | Fin p, Fin q => Qle_bool p q
  end.

(** Truthiness of a number: zero and NaN are falsy. *)
Definition truthy (x : number) : bool :=
  match x with
  | NaN => false
  | Inf _ => true
  | Fin q => negb (Qeq_bool q 0)
  end.
End Numbers.

(** *** Double precision

    The value nearest to the exact result among those with a 53-bit
    significand, a tie going to the even significand.  The exponent range
    is not limited: no quantity of this program comes near overflow or
    underflow. *)

(** [floor (log2 a)] for a positive rational. *)
Definition ilog2 (a : Q) : Z :=
  let l := Z.log2 (Qnum a) - Z.log2 (Zpos (Qden a)) in
  if Qle_bool (2 ^ l) a then l else l - 1.

(** The nearest integer, a tie going to the even one. *)
Definition round_half_even (s : Q) : Z :=
  let f := Qfloor s in
  let r := (s - inject_Z f)%Q in
  if Qlt_bool r (1 # 2) then f
  else if Qlt_bool (1 # 2) r then f + 1
  else if Z.even f then f else f + 1.

(** Rounding a positive value: scale it into [[2^52, 2^53)], round the
    significand, scale back. *)
Definition round_positive (a : Q) : Q :=
  let e := ilog2 a - 52 in
  (inject_Z (round_half_even (a * 2 ^ (- e))) * 2 ^ e)%Q.

Definition round53 (q : Q) : Q :=
  if Qeq_bool q 0 then 0%Q
  else if Qlt_bool q 0 then (- round_positive (Qabs q))%Q
  else round_positive (Qabs q).

#[export] Instance binary64 : Rounding := {| fl := fun q => Qred (round53 q) |}.

(* ================================================================= *)
(** ** Dates *)

Definition msPerDay : Z := 1000 * 3600 * 24.

(** A [Date] object: its time value in milliseconds since the epoch, or
    the invalid date whose time value is NaN. *)
Inductive Date : Type :=
| InvalidDate
| Time (ms : Z).

(** Calendar dates are stored as ['YYYY-MM-DD'] text; such a text is
    represented by its day number (days since 1970-01-01), and two such
    texts compare like their day numbers.  [new Date(s)] on a date-only
    text is midnight UTC of that day. *)
Definition new_Date (iso_day : Z) : Date := Time (iso_day * msPerDay).

(** [d.getTime()] *)
Definition getTime (d : Date) : number :=
  match d with
  | InvalidDate => NaN
  | Time ms => Fin (inject_Z ms)
  end.

(** [a < b] and [a <= b] on dates compare the time values; a comparison
    with an invalid date is false. *)
Definition date_ltb (a b : Date) : bool :=
  match a, b with
  | Time x, Time y => x <? y
  | _, _ => false
  end.

Definition date_leb (a b : Date) : bool :=
  match a, b with
  | Time x, Time y => x <=? y
  | _, _ => false
  end.

(** [d.setDate(d.getDate() + n)], the process running in UTC; for a
    process in another time zone see [Clock.setDate]. *)
Definition addDays (d : Date) (n : Z) : Date :=
  match d with
  | InvalidDate => InvalidDate
  | Time ms => Time (ms + n * msPerDay)
  end.

(** The ['YYYY-MM-DD'] part of [toISOString()], and SQLite's
    [date('now')], as a day number. *)
Definition isoDay (ms : Z) : Z := ms / msPerDay.

(** The three freshness buckets. *)
Inductive bucket : Type := Expired | ExpiringSoon | Fresh.

Definition bucket_eqb (a b : bucket) : bool :=
  match a, b with
  | Expired, Expired | ExpiringSoon, ExpiringSoon | Fresh, Fresh => true
  | _, _ => false
  end.

(* ================================================================= *)
(** ** [types/index.ts] *)

(** The [Ingredient] of [types/index.ts]. *)
Record Ingredient : Type := {
  i_id : string;
  i_name : string;
  i_category : string;
  i_quantity : string;
  i_expiryDate : Z;
  i_confidence : Q
}.

(** [Recipe]; [instructions] and [dietary] are optional. *)
Record Recipe : Type := {
  r_id : string;
  title : string;
  matchPercentage : number;
  usedIngredients : list string;
  missingIngredients : list string;
  time : string;
  calories : Z;
  image : string;
  instructions : option (list string);
  dietary : option (list string)
}.

(* ================================================================= *)
(** ** The relational store ([db/schema.ts]) *)

Module Schema.

(** The tables the modelled routes read or write.  A [datetime('now')]
    column holds the clock reading at which it was set. *)
Record user : Type := {
  u_id : string;
  u_email : string;
  u_password_hash : string;
  u_name : string;
  u_created_at : Z;
  u_updated_at : Z
}.

(** [expiry_date] holds the day number of the stored ['YYYY-MM-DD']. *)
Record ingredient : Type := {
  id : string;
  user_id : string;
  name : string;
  category : string;
  quantity : string;
  expiry_date : Z;
  confidence : Q;
  created_at : Z;
  updated_at : Z
}.

(** Every column but the key is nullable. *)
Record notification_preference : Type := {
  np_user_id : string;
  expiry_days_before : option Z;
  daily_summary : option Z;
  notify_time : option string;
  enabled : option Z
}.

Record usage_stat : Type := {
  us_id : Z;
  us_user_id : string;
  month : string;
  items_saved : option Z;
  items_wasted : option Z;
  estimated_savings : option Q;
  co2_saved : option Q
}.

Record database : Type := {
  users : list user;
  ingredients : list ingredient;
  notification_preferences : list notification_preference;
  usage_stats : list usage_stat
}.

(** The [CHECK] constraint on [ingredients.category]. *)
Definition validCategories : list string :=
  ["Produce"; "Dairy"; "Pantry"; "Meat"; "Other"]%string.

Definition category_ok (c : string) : bool :=
  existsb (String.eqb c) validCategories.

End Schema.

(* ================================================================= *)
(** ** [routes/inventory.ts] *)

Module Inventory.
Import Schema.

(** How a number is put into the answer's text. *)
Inductive shown : Type :=
| toFixed (x : Q) (digits : nat)   (* x.toFixed(digits) *)
| interpolated (n : number).       (* a number inside a template literal *)

Record InventoryStats : Type := {
  total : Z;
  expiring : Z;
  expired : Z;
  fresh : Z;
  wasteSaved : shown;       (* after the dollar sign *)
  co2Reduced : shown        (* before "kg" *)
}.

(** The three counters the [forEach] updates. *)
Record counters : Type := {
  n_expired : Z;
  n_expiring : Z;
  n_fresh : Z
}.

(** The branch one item takes in the [forEach] body. *)
Definition stats_bucket (today threeDaysFromNow : Date) (expiry : Z) : bucket :=
  let expiryDate := new_Date expiry in
  if date_ltb expiryDate today then Expired
  else if date_leb expiryDate threeDaysFromNow then ExpiringSoon
  else Fresh.

(** One round of the [forEach] body. *)
Definition count_item (today threeDaysFromNow : Date)
           (c : counters) (expiry : Z) : counters :=
  let expiryDate := new_Date expiry in
  if date_ltb expiryDate today then
    {| n_expired := n_expired c + 1; n_expiring := n_expiring c; n_fresh := n_fresh c |}
  else if date_leb expiryDate threeDaysFromNow then
    {| n_expired := n_expired c; n_expiring := n_expiring c + 1; n_fresh := n_fresh c |}
  else
    {| n_expired := n_expired c; n_expiring := n_expiring c; n_fresh := n_fresh c + 1 |}.

Section Stats.
Context {R : Rounding}.
(** [new Date(ms).toISOString()] *)
Variable toISOString : Z -> string.

(** [SELECT expiry_date FROM ingredients WHERE user_id = ?] *)
Definition select_expiry (db : database) (userId : string) : list Z :=
  map expiry_date
      (filter (fun r => String.eqb (user_id r) userId) (ingredients db)).

(** [SELECT estimated_savings, co2_saved FROM usage_stats
     WHERE user_id = ? AND month = ?], first row. *)
Definition select_usage (db : database) (userId currentMonth : string)
  : option usage_stat :=
  find (fun u => String.eqb (us_user_id u) userId
                 && String.eqb (month u) currentMonth)
       (usage_stats db).

(** [usageStats?.field ? ... : ...]: the field of a present row, when
    it is neither NULL nor zero. *)
Definition truthy_field (usageStats : option usage_stat)
           (field : usage_stat -> option Q) : option Q :=
  match usageStats with
  | Some row =>
      match field row with
      | Some v => if truthy (Fin v) then Some v else None
      | None => None
      end
  | None => None
  end.

(** [GET /api/inventory/stats] at the instant [now]. *)
Definition stats (db : database) (userId : string) (now : Z) : InventoryStats :=
  let today := Time now in
  let threeDaysFromNow := addDays today 3 in
  let allItems := select_expiry db userId in
  let c := fold_left (count_item today threeDaysFromNow) allItems
                     {| n_expired := 0; n_expiring := 0; n_fresh := 0 |} in
  let total := Z.of_nat (List.length allItems) in
  let currentMonth := substring 0 7 (toISOString now) in
  let usageStats := select_usage db userId currentMonth in
  let remaining := num_sub (of_Z total) (of_Z (n_expired c)) in
  let wasteSaved :=
    match truthy_field usageStats estimated_savings with
    | Some v => toFixed v 0
    | None => interpolated (Math_round (num_mul remaining (literal (7 # 2))))
    end in
  let co2Reduced :=
    match truthy_field usageStats co2_saved with
    | Some v => toFixed v 1
    | None => interpolated (Math_round (num_mul remaining (literal (4 # 5))))
    end in
  {| total := total;
     expiring := n_expiring c;
     expired := n_expired c;
     fresh := n_fresh c;
     wasteSaved := wasteSaved;
     co2Reduced := co2Reduced |}.
End Stats.

(** *** Writes *)

(** The answer of a route: a status code with data, or with an error text. *)
Inductive response (A : Type) : Type :=
| Json (status : Z) (data : A)
| Failure (status : Z) (error : string).
Arguments Json {A} status data.
Arguments Failure {A} status error.

(** [SELECT id, name, category, quantity, expiry_date as expiryDate,
     confidence] of one row. *)
Definition as_Ingredient (r : ingredient) : Ingredient :=
  {| i_id := id r; i_name := name r; i_category := category r;
     i_quantity := quantity r; i_expiryDate := expiry_date r;
     i_confidence := confidence r |}.

(** An ingredient as it arrives in a request body: nothing is checked, so
    every field may be missing. *)
Record item_body : Type := {
  b_id : option string;
  b_name : option string;
  b_category : option string;
  b_quantity : option string;
  b_expiryDate : option Z;
  b_confidence : option Q
}.

(** [FOREIGN KEY (user_id) REFERENCES users(id)]: the engine enforces
    foreign keys, so a row can be inserted only for an id of the table
    [users]. *)
Definition references_user (accounts : list user) (userId : string) : bool :=
  existsb (fun u => String.eqb (u_id u) userId) accounts.

(** [INSERT INTO ingredients (id, user_id, name, category, quantity,
     expiry_date, confidence) VALUES (?, ?, ?, ?, ?, ?, ?)] at the clock
    reading [now], [accounts] being the table [users]: the new table, or
    [None] when the statement throws (a missing value bound to a
    [NOT NULL] column, a repeated primary key, a category outside the
    [CHECK] list, a [user_id] that the foreign key refuses). *)
Definition insert_ingredient (now : Z) (accounts : list user) (tbl : list ingredient)
           (id_ userId : string) (item : item_body) : option (list ingredient) :=
  match b_name item, b_category item, b_quantity item,
        b_expiryDate item, b_confidence item with
  | Some n, Some c, Some q, Some e, Some k =>
      if existsb (fun r => String.eqb (id r) id_) tbl then None
      else if negb (category_ok c) then None
      else if negb (references_user accounts userId) then None
      else Some (tbl ++ [{| id := id_; user_id := userId; name := n;
                            category := c; quantity := q; expiry_date := e;
                            confidence := k; created_at := now;
                            updated_at := now |}])
  | _, _, _, _, _ => None
  end.

(** [item.id || uuidv4()]: an absent or empty id is falsy.  [n] counts
    the calls of [uuidv4] so far. *)
Definition id_or_fresh (uuidv4 : nat -> string) (n : nat) (item : item_body)
  : string * nat :=
  match b_id item with
  | Some s => if String.eqb s "" then (uuidv4 n, S n) else (s, n)
  | None => (uuidv4 n, S n)
  end.

(** The loop inside [db.transaction]: [None] as soon as one [stmt.run]
    throws. *)
Fixpoint insert_loop (uuidv4 : nat -> string) (n : nat) (now : Z)
         (accounts : list user) (userId : string) (tbl : list ingredient)
         (items : list item_body)
  : option (list ingredient) :=
  match items with
  | [] => Some tbl
  | item :: rest =>
      let '(id_, n') := id_or_fresh uuidv4 n item in
      match insert_ingredient now accounts tbl id_ userId item with
      | Some tbl' => insert_loop uuidv4 n' now accounts userId tbl' rest
      | None => None
      end
  end.

Definition set_ingredients (db : database) (tbl : list ingredient) : database :=
  {| users := users db; ingredients := tbl;
     notification_preferences := notification_preferences db;
     usage_stats := usage_stats db |}.

(** [POST /api/inventory/bulk].  [items] is [None] when the body has no
    array under that key.  A transaction that throws is rolled back and
    the exception reaches the handler's [catch]. *)
Definition bulk (uuidv4 : nat -> string) (now : Z) (db : database)
           (userId : string) (items : option (list item_body))
  : database * response nat :=
  match items with
  | None => (db, Failure 400 "Items array required")
  | Some items =>
      match insert_loop uuidv4 0 now (users db) userId (ingredients db) items with
      | Some tbl => (set_ingredients db tbl, Json 201 (List.length items))
      | None => (db, Failure 500 "Failed to add items")
      end
  end.

(** [COALESCE(?, column)] *)
Definition coalesce {A : Type} (given : option A) (current : A) : A :=
  match given with
  | Some v => v
  | None => current
  end.

(** The [SET] clause of the update on one row. *)
Definition update_row (now : Z) (body : item_body) (r : ingredient) : ingredient :=
  {| id := id r;
     user_id := user_id r;
     name := coalesce (b_name body) (name r);
     category := coalesce (b_category body) (category r);
     quantity := coalesce (b_quantity body) (quantity r);
     expiry_date := coalesce (b_expiryDate body) (expiry_date r);
     confidence := coalesce (b_confidence body) (confidence r);
     created_at := created_at r;
     updated_at := now |}.

Definition owned (id_ userId : string) (r : ingredient) : bool :=
  String.eqb (id r) id_ && String.eqb (user_id r) userId.

(** [UPDATE ingredients SET ... WHERE id = ? AND user_id = ?]: [None]
    when an updated row breaks the [CHECK] on the category, in which case
    the statement changes nothing. *)
Definition update_ingredients (now : Z) (body : item_body)
           (id_ userId : string) (tbl : list ingredient)
  : option (list ingredient) :=
  let tbl' := map (fun r => if owned id_ userId r then update_row now body r else r) tbl in
  if forallb (fun r => category_ok (category r)) (filter (owned id_ userId) tbl')
  then Some tbl' else None.

(** [PUT /api/inventory/:id].  The body's [id] is not read. *)
Definition put (now : Z) (db : database) (userId id_ : string) (body : item_body)
  : database * response (option Ingredient) :=
  match find (owned id_ userId) (ingredients db) with
  | None => (db, Failure 404 "Item not found")
  | Some _ =>
      match update_ingredients now body id_ userId (ingredients db) with
      | None => (db, Failure 500 "Failed to update item")
      | Some tbl =>
          let updated := find (fun r => String.eqb (id r) id_) tbl in
          (set_ingredients db tbl, Json 200 (option_map as_Ingredient updated))
      end
  end.

End Inventory.

(* ================================================================= *)
(** ** Arrays and strings of the engine *)

Section Arrays.
Variable A : Type.
(** The comparator handed to [sort]. *)
Variable compareFn : A -> A -> number.

(** [x] sorts after [y] when [compareFn(x, y) > 0]; a NaN answer counts
    as zero. *)
Definition sorts_after (x y : A) : bool := num_ltb (of_Z 0) (compareFn x y).

(** [x] joins a sorted array it preceded: it passes the elements it
    sorts after and stops at the first other one. *)
Fixpoint sort_insert (x : A) (l : list A) : list A :=
  match l with
  | [] => [x]
  | y :: l' => if sorts_after x y then y :: sort_insert x l' else x :: l
  end.

(** [Array.prototype.sort(compareFn)]: a stable sort.  With a consistent
    comparator every stable sort returns this array. *)
Fixpoint array_sort (l : list A) : list A :=
  match l with
  | [] => []
  | x :: l' => sort_insert x (array_sort l')
  end.
End Arrays.

Arguments sorts_after {A} compareFn x y.
Arguments sort_insert {A} compareFn x l.
Arguments array_sort {A} compareFn l.

(** [array.map] with the position of each element at hand. *)
Fixpoint mapi_from {A B : Type} (f : nat -> A -> B) (i : nat) (l : list A) : list B :=
  match l with
  | [] => []
  | x :: l' => f i x :: mapi_from f (S i) l'
  end.

(** [String.prototype.toLowerCase] on a text of ASCII characters: the
    letters A to Z are lowered and every other character is kept.  A
    property that rests on it is stated for ASCII texts. *)
Definition lower_ascii (c : ascii) : ascii :=
  let n := nat_of_ascii c in
  if ((65 <=? n) && (n <=? 90))%nat then ascii_of_nat (n + 32) else c.

Fixpoint toLowerCase (s : string) : string :=
  match s with
  | EmptyString => EmptyString
  | String c s' => String (lower_ascii c) (toLowerCase s')
  end.

(** [s.includes(sub)] *)
Fixpoint includes (s sub : string) : bool :=
  prefix sub s ||
  match s with
  | EmptyString => false
  | String _ s' => includes s' sub
  end.

(** [s.split(' ')[0]]: the text before the first space. *)
Fixpoint first_word (s : string) : string :=
  match s with
  | EmptyString => EmptyString
  | String c s' => if Ascii.eqb c " " then EmptyString else String c (first_word s')
  end.

(** [names.join(', ')] *)
Fixpoint join (sep : string) (l : list string) : string :=
  match l with
  | [] => EmptyString
  | [x] => x
  | x :: l' => x ++ sep ++ join sep l'
  end.

(** A decimal integer inside a template literal. *)
Definition show_Z (z : Z) : string := NilZero.string_of_int (Z.to_int z).

(* ================================================================= *)
(** ** [services/gemini.ts] *)

(** One element of the generator's parsed JSON answer. *)
Record candidate : Type := {
  c_title : string;
  c_usedIngredients : list string;
  c_missingIngredients : list string;
  c_time : string;
  c_calories : Z;
  c_instructions : option (list string);
  c_dietary : option (list string)
}.

(** [x || []] on an optional array. *)
Definition or_empty {A : Type} (x : option (list A)) : list A :=
  match x with
  | Some l => l
  | None => []
  end.

(** [getRecipeImage] *)
Definition getRecipeImage (title_ : string) : string :=
  let keywords := toLowerCase title_ in
  if includes keywords "pasta" || includes keywords "spaghetti" then
    "https://images.unsplash.com/photo-1621996346565-e3dbc646d9a9?w=400&h=300&fit=crop"
  else if includes keywords "chicken" then
    "https://images.unsplash.com/photo-1598515214211-89d3c73ae83b?w=400&h=300&fit=crop"
  else if includes keywords "salad" then
    "https://images.unsplash.com/photo-1512621776951-a57141f2eefd?w=400&h=300&fit=crop"
  else if includes keywords "soup" then
    "https://images.unsplash.com/photo-1547592166-23ac45744acd?w=400&h=300&fit=crop"
  else if includes keywords "egg" || includes keywords "breakfast" then
    "https://images.unsplash.com/photo-1608039829572-9b59f7e06c9e?w=400&h=300&fit=crop"
  else if includes keywords "yogurt" || includes keywords "parfait" then
    "https://images.unsplash.com/photo-1488477181946-6428a0291777?w=400&h=300&fit=crop"
  else
    "https://images.unsplash.com/photo-1546069901-ba9599a7e63c?w=400&h=300&fit=crop".

Section Matching.
Context {R : Rounding}.

(** [(a, b) => b.matchPercentage - a.matchPercentage] *)
Definition byMatchDescending (a b : Recipe) : number :=
  num_sub (matchPercentage b) (matchPercentage a).

(** [Math.round((used / total) * 100)] *)
Definition percentage (used total : number) : number :=
  Math_round (num_mul (num_div used total) (of_Z 100)).
End Matching.

Module Gemini.
Section Service.
Context {R : Rounding}.

(** [ingredients && ingredients.length > 0] *)
Definition hasIngredients {I : Type} (ingredients : option (list I)) : bool :=
  match ingredients with
  | Some l => negb (Nat.eqb (List.length l) 0)
  | None => false
  end.

(** The callback of [parsed.map]; [id_] is what [uuidv4()] returns. *)
Definition score (has : bool) (id_ : string) (recipe : candidate) : Recipe :=
  let totalIngredients :=
    num_add (of_nat (List.length (c_usedIngredients recipe)))
            (of_nat (List.length (c_missingIngredients recipe))) in
  let matchPercentage_ :=
    if has
    then percentage (of_nat (List.length (c_usedIngredients recipe))) totalIngredients
    else of_Z 0 in
  {| r_id := id_;
     title := c_title recipe;
     matchPercentage := matchPercentage_;
     usedIngredients := c_usedIngredients recipe;
     missingIngredients := c_missingIngredients recipe;
     time := c_time recipe;
     calories := c_calories recipe;
     image := getRecipeImage (c_title recipe);
     instructions := Some (or_empty (c_instructions recipe));
     dietary := Some (or_empty (c_dietary recipe)) |}.

(** The scored candidates, in the generator's order. *)
Definition scored {I : Type} (uuidv4 : nat -> string)
           (ingredients : option (list I)) (parsed : list candidate) : list Recipe :=
  mapi_from (fun i => score (hasIngredients ingredients) (uuidv4 i)) 0 parsed.

(** [generateRecipeSuggestions] from the point where the generator's
    answer has been parsed into [parsed]. *)
Definition generateRecipeSuggestions {I : Type} (uuidv4 : nat -> string)
           (ingredients : option (list I)) (parsed : list candidate) : list Recipe :=
  array_sort byMatchDescending (scored uuidv4 ingredients parsed).

End Service.
End Gemini.

(** The earlier revision of the service: no cookbook mode, no dietary
    tags. *)
Module GeminiV1.
Section Service.
Context {R : Rounding}.

Definition score (id_ : string) (recipe : candidate) : Recipe :=
  let totalIngredients :=
    num_add (of_nat (List.length (c_usedIngredients recipe)))
            (of_nat (List.length (c_missingIngredients recipe))) in
  let matchPercentage_ :=
    percentage (of_nat (List.length (c_usedIngredients recipe))) totalIngredients in
  {| r_id := id_;
     title := c_title recipe;
     matchPercentage := matchPercentage_;
     usedIngredients := c_usedIngredients recipe;
     missingIngredients := c_missingIngredients recipe;
     time := c_time recipe;
     calories := c_calories recipe;
     image := getRecipeImage (c_title recipe);
     instructions := Some (or_empty (c_instructions recipe));
     dietary := None |}.

Definition scored (uuidv4 : nat -> string) (parsed : list candidate) : list Recipe :=
  mapi_from (fun i => score (uuidv4 i)) 0 parsed.

Definition generateRecipeSuggestions (uuidv4 : nat -> string)
           (parsed : list candidate) : list Recipe :=
  array_sort byMatchDescending (scored uuidv4 parsed).

End Service.
End GeminiV1.

(* ================================================================= *)
(** ** [src/SmartPantry.tsx] *)

Module SmartPantry.
Section Views.
Context {R : Rounding}.

Record ExpiryStatus : Type := {
  status : bucket;
  days : number
}.

(** [getExpiryStatus] of the dashboard, at the instant [now]. *)
Definition getExpiryStatus (now : Z) (dateStr : Z) : ExpiryStatus :=
  let days_ :=
    Math_ceil (num_div (num_sub (getTime (new_Date dateStr)) (getTime (Time now)))
                       (of_Z msPerDay)) in
  if num_ltb days_ (of_Z 0) then {| status := Expired; days := days_ |}
  else if num_leb days_ (of_Z 3) then {| status := ExpiringSoon; days := days_ |}
  else {| status := Fresh; days := days_ |}.

(** The static catalogue of [getFallbackRecipes]. *)
Definition allRecipes : list Recipe :=
  [ {| r_id := "r1"; title := "Creamy Chicken Spinach Pasta"; time := "25 min";
       calories := 450;
       usedIngredients := ["Chicken Breast"; "Spinach"; "Parmesan"]%string;
       missingIngredients := ["Pasta"; "Heavy Cream"]%string;
       matchPercentage := of_Z 0;
       image := "https://images.unsplash.com/photo-1621996346565-e3dbc646d9a9?w=400&h=300&fit=crop";
       instructions := None; dietary := None |};
    {| r_id := "r2"; title := "Classic Eggs Benedict"; time := "30 min";
       calories := 520;
       usedIngredients := ["Eggs"]%string;
       missingIngredients := ["English Muffin"; "Ham"]%string;
       matchPercentage := of_Z 0;
       image := "https://images.unsplash.com/photo-1608039829572-9b59f7e06c9e?w=400&h=300&fit=crop";
       instructions := None; dietary := None |};
    {| r_id := "r3"; title := "Greek Yogurt Parfait"; time := "5 min";
       calories := 280;
       usedIngredients := ["Greek Yogurt"]%string;
       missingIngredients := ["Granola"; "Berries"]%string;
       matchPercentage := of_Z 0;
       image := "https://images.unsplash.com/photo-1488477181946-6428a0291777?w=400&h=300&fit=crop";
       instructions := None; dietary := None |};
    {| r_id := "r4"; title := "Tomato Basil Soup"; time := "40 min";
       calories := 210;
       usedIngredients := ["Tomato Sauce"]%string;
       missingIngredients := ["Basil"; "Cream"]%string;
       matchPercentage := of_Z 0;
       image := "https://images.unsplash.com/photo-1547592166-23ac45744acd?w=400&h=300&fit=crop";
       instructions := None; dietary := None |} ].

(** [inv.some(item => item.name.toLowerCase().includes(
      req.toLowerCase().split(' ')[0]))] *)
Definition in_stock (inv : list Ingredient) (req : string) : bool :=
  existsb (fun item => includes (toLowerCase (i_name item))
                                (first_word (toLowerCase req))) inv.

(** [recipe.usedIngredients.filter(...)] *)
Definition available (inv : list Ingredient) (recipe : Recipe) : list string :=
  filter (in_stock inv) (usedIngredients recipe).

(** The callback of [allRecipes.map]. *)
Definition rescore (inv : list Ingredient) (recipe : Recipe) : Recipe :=
  let available_ := available inv recipe in
  let percentage_ :=
    percentage (of_nat (List.length available_))
               (num_add (of_nat (List.length available_))
                        (of_nat (List.length (missingIngredients recipe)))) in
  {| r_id := r_id recipe; title := title recipe;
     matchPercentage := percentage_;
     usedIngredients := usedIngredients recipe;
     missingIngredients := missingIngredients recipe;
     time := time recipe; calories := calories recipe; image := image recipe;
     instructions := instructions recipe; dietary := dietary recipe |}.

(** [getFallbackRecipes] *)
Definition getFallbackRecipes (inv : list Ingredient) : list Recipe :=
  array_sort byMatchDescending (map (rescore inv) allRecipes).

End Views.
End SmartPantry.

(* ================================================================= *)
(** ** The SQL engine *)

Module Sqlite.

(** Texts reach the engine as UTF-8.  A byte [10xxxxxx] continues a
    character that a byte of 0xC0 or more has started. *)
Definition continuation (c : ascii) : bool :=
  let n := nat_of_ascii c in ((128 <=? n) && (n <? 192))%nat.

Definition lead (c : ascii) : bool := (192 <=? nat_of_ascii c)%nat.

Fixpoint skip_continuation (s : string) : string :=
  match s with
  | EmptyString => s
  | String c s' => if continuation c then skip_continuation s' else s
  end.

(** What is left of [String c s'] behind its first character. *)
Definition skip_char (c : ascii) (s' : string) : string :=
  if lead c then skip_continuation s' else s'.

(** The wildcard [%]: the rest of the pattern, [try], is matched at each
    character of [s] in turn and at its end.  [inside] tells that the
    bytes at hand may still continue the character before. *)
Fixpoint scan (try : string -> bool) (inside : bool) (s : string) : bool :=
  match s with
  | EmptyString => try s
  | String c s' =>
      if inside && continuation c then scan try true s'
      else try s || scan try (lead c) s'
  end.

(** [s LIKE pattern], without an escape character: [%] stands for any
    run of characters, [_] for one character, and an ASCII letter for
    itself in either case. *)
Fixpoint like (pattern : string) : string -> bool :=
  match pattern with
  | EmptyString =>
      fun s => match s with EmptyString => true | String _ _ => false end
  | String p pattern' =>
      if Ascii.eqb p "%" then scan (like pattern') false
      else if Ascii.eqb p "_" then
        fun s => match s with
                 | EmptyString => false
                 | String c s' => like pattern' (skip_char c s')
                 end
      else
        fun s => match s with
                 | EmptyString => false
                 | String c s' =>
                     Ascii.eqb (lower_ascii p) (lower_ascii c) && like pattern' s'
                 end
  end.

Section OrderBy.
Variable A : Type.
(** [before a b]: row [a] sorts strictly before row [b]. *)
Variable before : A -> A -> bool.

Fixpoint order_insert (r : A) (l : list A) : list A :=
  match l with
  | [] => [r]
  | r' :: l' => if before r' r then r' :: order_insert r l' else r :: l
  end.

(** [ORDER BY]; rows that tie keep the order of the table. *)
Fixpoint order_by (l : list A) : list A :=
  match l with
  | [] => []
  | r :: l' => order_insert r (order_by l')
  end.
End OrderBy.

Arguments order_insert {A} before r l.
Arguments order_by {A} before l.

End Sqlite.

(* ================================================================= *)
(** ** Local time *)

Module Clock.

(** A time value is a date up to 100 000 000 days from the epoch. *)
Definition maxTime : Z := 8640000000000000.

(** [TimeClip] *)
Definition timeClip (ms : Z) : Date :=
  if Z.abs ms <=? maxTime then Time ms else InvalidDate.

(** The time zone of the process, as the engine sees it: [localTZA t true]
    is the offset of local time from UTC, in milliseconds, at the instant
    [t], and [localTZA t false] the offset at the local time value [t]. *)
Record TimeZone : Type := { localTZA : Z -> bool -> Z }.

(** A zone whose clocks are never changed; UTC is one. *)
Definition fixed_zone (offset : Z) : TimeZone := {| localTZA := fun _ _ => offset |}.

Definition utc : TimeZone := fixed_zone 0.

(** [LocalTime(t)] and [UTC(t)] *)
Definition LocalTime (tz : TimeZone) (t : Z) : Z := t + localTZA tz t true.

Definition UTC (tz : TimeZone) (t : Z) : Z := t - localTZA tz t false.

(** The instant at which the local clock shows, [n] days on, the time of
    day it shows at [now]. *)
Definition daysAhead (tz : TimeZone) (now n : Z) : Z :=
  UTC tz (LocalTime tz now + n * msPerDay).

(** [d.setDate(d.getDate() + n)]: the day of the month is read and set in
    local time, the time of day is kept, and the result is clipped. *)
Definition setDate (tz : TimeZone) (d : Date) (n : Z) : Date :=
  match d with
  | InvalidDate => InvalidDate
  | Time ms => timeClip (daysAhead tz ms n)
  end.

End Clock.

(* ================================================================= *)
(** ** [routes/inventory.ts]: reading, adding and deleting *)

Module InventoryRoutes.
Import Schema Inventory Sqlite.

(** [WHERE user_id = ?] *)
Definition own (userId : string) (r : ingredient) : bool :=
  String.eqb (user_id r) userId.

(** [x && typeof x === 'string'] on a parameter of the query string, and
    [!x] on a text of the body: an absent or empty text does not count. *)
Definition given (x : option string) : option string :=
  match x with
  | Some s => if String.eqb s "" then None else Some s
  | None => None
  end.

(** [name LIKE ?] with the parameter [`%${search}%`]. *)
Definition name_like (search : string) (r : ingredient) : bool :=
  like ("%" ++ search ++ "%") (name r).

(** [ORDER BY expiry_date ASC] *)
Definition by_expiry (a b : ingredient) : bool := expiry_date a <? expiry_date b.

(** [ORDER BY name ASC]: texts compare byte by byte. *)
Definition by_name (a b : ingredient) : bool := String.ltb (name a) (name b).

(** [ORDER BY category ASC, expiry_date ASC] *)
Definition by_category (a b : ingredient) : bool :=
  String.ltb (category a) (category b)
  || (String.eqb (category a) (category b) && (expiry_date a <? expiry_date b)).

(** The rows the [WHERE] clause of [GET /api/inventory] keeps: the
    requester's rows, and of these the ones the search text and the
    category let pass. *)
Definition selected (db : database) (userId : string)
           (search category_ : option string) : list ingredient :=
  let rows := filter (own userId) (ingredients db) in
  let rows :=
    match given search with
    | Some s => filter (name_like s) rows
    | None => rows
    end in
  match given category_ with
  | Some c =>
      if String.eqb c "all" then rows
      else filter (fun r => String.eqb (category r) c) rows
  | None => rows
  end.

(** Its [ORDER BY] clause. *)
Definition ordering (sort : option string) : ingredient -> ingredient -> bool :=
  match sort with
  | Some s =>
      if String.eqb s "name" then by_name
      else if String.eqb s "category" then by_category
      else by_expiry
  | None => by_expiry
  end.

(** [GET /api/inventory].  A parameter of the query string is [None] when
    it is absent or not a text. *)
Definition get (db : database) (userId : string)
           (search category_ sort : option string) : response (list Ingredient) :=
  Json 200 (map as_Ingredient
              (order_by (ordering sort) (selected db userId search category_))).

(** The rows [GET /api/inventory/search] selects: [LIMIT 20]. *)
Definition search_rows (db : database) (userId q : string) : list ingredient :=
  firstn 20
    (order_by by_expiry
       (filter (fun r => own userId r && name_like q r) (ingredients db))).

(** [GET /api/inventory/search] *)
Definition search (db : database) (userId : string) (q : option string)
  : response (list Ingredient) :=
  match given q with
  | None => Json 200 []
  | Some q => Json 200 (map as_Ingredient (search_rows db userId q))
  end.

(** The list the handler of [POST /api/inventory] checks the category
    against. *)
Definition validCategories : list string :=
  ["Produce"; "Dairy"; "Pantry"; "Meat"; "Other"]%string.

(** [POST /api/inventory]; [id_] is what [uuidv4()] returns.  The body's
    [id] is not read, and a body without [confidence] means 1.0. *)
Definition post (id_ : string) (now : Z) (db : database) (userId : string)
           (body : item_body) : database * response Ingredient :=
  match given (b_name body), given (b_category body), given (b_quantity body),
        b_expiryDate body with
  | Some name_, Some category_, Some quantity_, Some expiryDate_ =>
      if negb (existsb (String.eqb category_) validCategories)
      then (db, Failure 400 "Invalid category")
      else
        let confidence_ := match b_confidence body with Some k => k | None => 1%Q end in
        match insert_ingredient now (users db) (ingredients db) id_ userId
                {| b_id := None; b_name := Some name_; b_category := Some category_;
                   b_quantity := Some quantity_; b_expiryDate := Some expiryDate_;
                   b_confidence := Some confidence_ |} with
        | Some tbl =>
            (set_ingredients db tbl,
             Json 201 {| i_id := id_; i_name := name_; i_category := category_;
                         i_quantity := quantity_; i_expiryDate := expiryDate_;
                         i_confidence := confidence_ |})
        | None => (db, Failure 500 "Failed to add item")
        end
  | _, _, _, _ => (db, Failure 400 "Missing required fields")
  end.

(** [DELETE /api/inventory/:id]; the answer carries the deleted id. *)
Definition delete (db : database) (userId id_ : string)
  : database * response string :=
  match find (owned id_ userId) (ingredients db) with
  | None => (db, Failure 404 "Item not found")
  | Some _ =>
      (set_ingredients db
         (filter (fun r => negb (owned id_ userId r)) (ingredients db)),
       Json 200 id_)
  end.

(** The largest time value of a date. *)
Definition maxTime : Z := Clock.maxTime.

(** [toISOString()] writes the years 0 to 9999 with four digits, and the
    other years with a sign and six digits: 0000-01-01 is day -719528 and
    9999-12-31 is day 2932896. *)
Definition fourDigitYear (day : Z) : bool :=
  (-719528 <=? day) && (day <=? 2932896).

(** [parseInt(days) || 3]: [parsed] is the integer [parseInt] has read,
    [None] when it has read none. *)
Definition daysNum (parsed : option Z) : Z :=
  match parsed with
  | Some z => if z =? 0 then 3 else z
  | None => 3
  end.

(** [GET /api/inventory/expiring] at the instant [now], in a process of
    the time zone [tz].  An integer too large for a date gives the invalid
    date, on which [toISOString] throws.  A date text with a sign sorts
    before every stored date, which starts with a digit. *)
Definition expiring_in (tz : Clock.TimeZone) (db : database) (userId : string)
           (now : Z) (parsed : option Z) : response (list Ingredient) :=
  match Clock.setDate tz (Time now) (daysNum parsed) with
  | InvalidDate => Failure 500 "Failed to fetch expiring items"
  | Time ms =>
      let futureDate := isoDay ms in
      Json 200
        (map as_Ingredient
           (order_by by_expiry
              (filter (fun r => own userId r
                                && (fourDigitYear futureDate
                                    && (expiry_date r <=? futureDate))
                                && (expiry_date r >=? isoDay now))
                      (ingredients db))))
  end.

(** The route in a process whose time zone is UTC. *)
Definition expiring (db : database) (userId : string) (now : Z)
           (parsed : option Z) : response (list Ingredient) :=
  expiring_in Clock.utc db userId now parsed.

End InventoryRoutes.

(* ================================================================= *)
(** ** [services/notifications.ts] *)

Module Notifications.
Import Schema.

(** What [sendNotificationToUser] is called with. *)
Record NotificationPayload : Type := {
  n_title : string;
  n_body : string;
  n_tag : string;
  n_url : string;
  n_itemCount : nat
}.

(** A row of [users u LEFT JOIN notification_preferences np]. *)
Record joined : Type := {
  j_id : string;
  j_name : string;
  j_expiry_days_before : option Z;
  j_enabled : option Z
}.

Definition left_join (db : database) : list joined :=
  flat_map
    (fun u =>
       match filter (fun np => String.eqb (u_id u) (np_user_id np))
                    (notification_preferences db) with
       | [] => [{| j_id := u_id u; j_name := u_name u;
                   j_expiry_days_before := None; j_enabled := None |}]
       | nps => map (fun np => {| j_id := u_id u; j_name := u_name u;
                                  j_expiry_days_before := expiry_days_before np;
                                  j_enabled := enabled np |}) nps
       end)
    (users db).

(** [WHERE np.enabled = 1 OR np.enabled IS NULL] *)
Definition wants_notifications (row : joined) : bool :=
  match j_enabled row with
  | Some v => v =? 1
  | None => true
  end.

(** [user.expiry_days_before || 3] *)
Definition daysBefore (row : joined) : Z :=
  match j_expiry_days_before row with
  | Some v => if v =? 0 then 3 else v
  | None => 3
  end.

(** [ORDER BY expiry_date ASC], rows of one date in table order. *)
Fixpoint order_insert (r : ingredient) (l : list ingredient) : list ingredient :=
  match l with
  | [] => [r]
  | r' :: l' =>
      if expiry_date r' <? expiry_date r then r' :: order_insert r l' else r :: l
  end.

Fixpoint order_by_expiry (l : list ingredient) : list ingredient :=
  match l with
  | [] => []
  | r :: l' => order_insert r (order_by_expiry l')
  end.

(** [SELECT name, expiry_date FROM ingredients WHERE user_id = ?
     AND expiry_date <= ? AND expiry_date >= date('now')
     ORDER BY expiry_date ASC], the parameter being
    [futureDate.toISOString().split('T')[0]], in a process of the time
    zone [tz].  A stored number of days too large for a date gives the
    invalid date, on which [toISOString] throws: [None].  A date text with
    a sign sorts before every stored date. *)
Definition expiringItems_in (tz : Clock.TimeZone) (db : database) (now : Z)
           (row : joined) : option (list ingredient) :=
  match Clock.setDate tz (Time now) (daysBefore row) with
  | InvalidDate => None
  | Time ms =>
      let futureDate := isoDay ms in
      Some (order_by_expiry
              (filter (fun r => String.eqb (user_id r) (j_id row)
                                && (InventoryRoutes.fourDigitYear futureDate
                                    && (expiry_date r <=? futureDate))
                                && (expiry_date r >=? isoDay now))
                      (ingredients db)))
  end.

(** The rows selected in a process whose time zone is UTC; there are none
    where [toISOString] throws. *)
Definition expiringItems (db : database) (now : Z) (row : joined) : list ingredient :=
  match expiringItems_in Clock.utc db now row with
  | Some items => items
  | None => []
  end.

(** The payload built for a user with items [items]. *)
Definition payload (row : joined) (items : list ingredient) : NotificationPayload :=
  let itemNames := join ", " (map name (firstn 3 items)) in
  let moreCount :=
    if (3 <? List.length items)%nat
    then (" and " ++ show_Z (Z.of_nat (List.length items - 3)) ++ " more")%string
    else ""%string in
  {| n_title := "Items Expiring Soon!";
     n_body := (itemNames ++ moreCount ++ " will expire within "
                ++ show_Z (daysBefore row) ++ " days. Check your pantry!")%string;
     n_tag := "expiry-reminder";
     n_url := "/pantry";
     n_itemCount := List.length items |}.

(** The loop of [sendExpiryNotifications] over the rows of the join: the
    calls of [sendNotificationToUser] it makes, in order.  Nothing catches
    the exception of [toISOString], so that the loop ends at the first row
    whose date is invalid and the rows after it are not served. *)
Fixpoint notify (tz : Clock.TimeZone) (db : database) (now : Z) (rows : list joined)
  : list (string * NotificationPayload) :=
  match rows with
  | [] => []
  | row :: rest =>
      match expiringItems_in tz db now row with
      | None => []
      | Some items =>
          (if (0 <? List.length items)%nat then [(j_id row, payload row items)] else [])
          ++ notify tz db now rest
      end
  end.

(** [sendExpiryNotifications] at the instant [now], in a process of the
    time zone [tz]. *)
Definition sendExpiryNotifications_in (tz : Clock.TimeZone) (db : database) (now : Z)
  : list (string * NotificationPayload) :=
  notify tz db now (filter wants_notifications (left_join db)).

(** [sendExpiryNotifications] in a process whose time zone is UTC. *)
Definition sendExpiryNotifications (db : database) (now : Z)
  : list (string * NotificationPayload) :=
  sendExpiryNotifications_in Clock.utc db now.

End Notifications.

(* ================================================================= *)
(** ** [src/SmartPantry.tsx]: the state of [MainApp] *)

Module MainApp.
Section State.
Context {R : Rounding}.

(** [setInventory(prev => prev.filter(item => item.id !== id))] *)
Definition deleteItem (prev : list Ingredient) (id_ : string) : list Ingredient :=
  filter (fun item => negb (String.eqb (i_id item) id_)) prev.

(** [setInventory(prev => [...prev, ...items])], which [addItems] does
    whether the request succeeds or fails. *)
Definition addItems (prev items : list Ingredient) : list Ingredient :=
  prev ++ items.


(** [Math.ceil((new Date(i.expiryDate).getTime() - new Date().getTime())
     / (1000 * 3600 * 24))] *)
Definition daysLeft (now : Z) (i : Ingredient) : number :=
  Math_ceil (num_div (num_sub (getTime (new_Date (i_expiryDate i))) (getTime (Time now)))
                     (of_Z msPerDay)).

(** [expiringCount] *)
Definition expiringCount (now : Z) (inventory : list Ingredient) : nat :=
  List.length
    (filter (fun i => let days := daysLeft now i in
                      num_leb days (of_Z 3) && num_leb (of_Z 0) days) inventory).

(** [expiredCount] *)
Definition expiredCount (now : Z) (inventory : list Ingredient) : nat :=
  List.length
    (filter (fun i => let days := daysLeft now i in num_ltb days (of_Z 0)) inventory).

End State.
End MainApp.

(* ================================================================= *)
(** ** [src/SmartPantry.tsx]: the dashboard and the pantry view *)

Module DashboardView.
Section View.
Context {R : Rounding}.

(** [expiringSoon], at the instant [now]. *)
Definition expiringSoon (now : Z) (inventory : list Ingredient) : list Ingredient :=
  filter (fun i => bucket_eqb
                     (SmartPantry.status (SmartPantry.getExpiryStatus now (i_expiryDate i)))
                     ExpiringSoon)
         inventory.

(** [Math.round(inventory.length * 3.5)], shown after the dollar sign. *)
Definition wasteSaved (inventory : list Ingredient) : number :=
  Math_round (num_mul (of_nat (List.length inventory)) (literal (7 # 2))).

(** [Math.round(inventory.length * 0.8)], shown before "kg". *)
Definition co2Reduced (inventory : list Ingredient) : number :=
  Math_round (num_mul (of_nat (List.length inventory)) (literal (4 # 5))).

End View.
End DashboardView.

Module PantryView.
Section View.
Context {R : Rounding}.

(** [(a, b) => new Date(a.expiryDate).getTime()
               - new Date(b.expiryDate).getTime()] *)
Definition byExpiry (a b : Ingredient) : number :=
  num_sub (getTime (new_Date (i_expiryDate a))) (getTime (new_Date (i_expiryDate b))).

(** [sorted], under the category tab [filter_]. *)
Definition sorted (filter_ : string) (inventory : list Ingredient) : list Ingredient :=
  array_sort byExpiry
    (filter (fun i => String.eqb filter_ "all" || String.eqb (i_category i) filter_)
            inventory).

End View.
End PantryView.

(* ================================================================= *)
(** ** [services/gemini.ts]: receipts and shelf lives *)

Module ReceiptParsing.

(** [EXPIRY_DEFAULTS] *)
Definition EXPIRY_DEFAULTS : list (string * Z) :=
  [("Produce", 7); ("Dairy", 14); ("Meat", 4); ("Pantry", 60); ("Other", 30)]%string.

(** The names every object literal inherits from [Object.prototype]; a
    lookup under one of them finds a function or an object. *)
Definition inherited : list string :=
  ["constructor"; "__defineGetter__"; "__defineSetter__"; "hasOwnProperty";
   "__lookupGetter__"; "__lookupSetter__"; "isPrototypeOf";
   "propertyIsEnumerable"; "toString"; "valueOf"; "__proto__";
   "toLocaleString"]%string.

(** [EXPIRY_DEFAULTS[category] || 30] as a number of days.  Under an
    inherited name the value is no number: added to the day of the month
    it gives a text, [setDate] makes the date invalid and [toISOString]
    throws, which [None] stands for. *)
Definition expiryDays (category : string) : option Z :=
  match find (fun kv => String.eqb (fst kv) category) EXPIRY_DEFAULTS with
  | Some kv => Some (snd kv)
  | None => if existsb (String.eqb category) inherited then None else Some 30
  end.

(** [getFutureDate(days)] at the instant [now] in the time zone [tz], as
    a day number; [None] when the date is invalid and [toISOString]
    throws. *)
Definition getFutureDate (tz : Clock.TimeZone) (now days : Z) : option Z :=
  match Clock.setDate tz (Time now) days with
  | Time ms => Some (isoDay ms)
  | InvalidDate => None
  end.

(** One object of the generator's parsed answer to the receipt prompt. *)
Record parsed_item : Type := {
  p_name : string;
  p_category : string;
  p_quantity : option string;
  p_confidence : option Q
}.

Section Service.
Context {R : Rounding}.

(** [item.quantity || '1'] *)
Definition quantity_or_one (q : option string) : string :=
  match q with
  | Some s => if String.eqb s "" then "1"%string else s
  | None => "1"%string
  end.

(** [item.confidence || 0.85] *)
Definition confidence_or_default (k : option Q) : Q :=
  match k with
  | Some v => if truthy (Fin v) then v else fl (17 # 20)
  | None => fl (17 # 20)
  end.

(** The callback of [parsed.map] in [parseReceiptText], at the instant
    [now] in the time zone [tz]; [id_] is what [uuidv4()] returns.  The
    callback sets and prints the date as [getFutureDate] does. *)
Definition receipt_item (tz : Clock.TimeZone) (now : Z) (id_ : string)
           (item : parsed_item) : option Ingredient :=
  match expiryDays (p_category item) with
  | Some expiryDays_ =>
      match getFutureDate tz now expiryDays_ with
      | Some expiryDate_ =>
          Some {| i_id := id_;
                  i_name := p_name item;
                  i_category := p_category item;
                  i_quantity := quantity_or_one (p_quantity item);
                  i_expiryDate := expiryDate_;
                  i_confidence := confidence_or_default (p_confidence item) |}
      | None => None
      end
  | None => None
  end.

(** The results of a [map] whose callback may throw. *)
Fixpoint all_or_none {A : Type} (l : list (option A)) : option (list A) :=
  match l with
  | [] => Some []
  | None :: _ => None
  | Some x :: l' =>
      match all_or_none l' with
      | Some xs => Some (x :: xs)
      | None => None
      end
  end.

(** [parseReceiptText] from the point where the generator's answer has
    been parsed into [parsed]: the items, or [None] when it throws. *)
Definition parseReceiptText (tz : Clock.TimeZone) (uuidv4 : nat -> string) (now : Z)
           (parsed : list parsed_item) : option (list Ingredient) :=
  all_or_none (mapi_from (fun i => receipt_item tz now (uuidv4 i)) 0 parsed).

(** [inferExpiryDate] at the instant [now] in the time zone [tz].
    [answer] is [None] when the generator fails, and otherwise what
    [parseInt] has read in its answer: an integer, or none.  Whatever is
    thrown inside the [try] leads to the default of the category; the
    result is [None] when that throws too. *)
Definition inferExpiryDate (tz : Clock.TimeZone) (now : Z) (category : string)
           (answer : option (option Z)) : option Z :=
  let fallback :=
    match expiryDays category with
    | Some days => getFutureDate tz now days
    | None => None
    end in
  match answer with
  | Some (Some days) =>
      if (days <? 1) || (365 <? days) then fallback
      else match getFutureDate tz now days with
           | Some date => Some date
           | None => fallback
           end
  | Some None => fallback
  | None => fallback
  end.

End Service.
End ReceiptParsing.

(* ================================================================= *)
(** ** The client's requests ([api.ts]) and [routes/recipes.ts] *)

Module RecipesRoute.
Section Routes.
Context {R : Rounding}.

(** [SELECT id, name, category, quantity, expiry_date as expiryDate,
     confidence FROM ingredients WHERE user_id = ?
     ORDER BY expiry_date ASC] *)
Definition inventory_of (db : Schema.database) (userId : string) : list Ingredient :=
  map Inventory.as_Ingredient
      (Sqlite.order_by InventoryRoutes.by_expiry
         (filter (InventoryRoutes.own userId) (Schema.ingredients db))).

(** [!ingredients || ingredients.length === 0] *)
Definition none_given (ingredients : option (list Ingredient)) : bool :=
  match ingredients with
  | Some l => Nat.eqb (List.length l) 0
  | None => true
  end.

(** [POST /api/recipes/suggest]; [ingredients] is the array of the body,
    [parsed] the generator's parsed answer. *)
Definition suggest_post (uuidv4 : nat -> string) (db : Schema.database)
           (userId : string) (ingredients : option (list Ingredient))
           (parsed : list candidate) : Inventory.response (list Recipe) :=
  let ingredients :=
    if none_given ingredients then Some (inventory_of db userId) else ingredients in
  Inventory.Json 200
    (Gemini.generateRecipeSuggestions uuidv4 (Some (or_empty ingredients)) parsed).

(** [GET /api/recipes/suggest] *)
Definition suggest_get (uuidv4 : nat -> string) (db : Schema.database)
           (userId : string) (parsed : list candidate)
  : Inventory.response (list Recipe) :=
  let ingredients := inventory_of db userId in
  if Nat.eqb (List.length ingredients) 0
  then Inventory.Failure 400 "No ingredients in inventory. Add items first."
  else Inventory.Json 200
         (Gemini.generateRecipeSuggestions uuidv4 (Some ingredients) parsed).

End Routes.
End RecipesRoute.

Module Api.
Section Requests.
Context {R : Rounding}.

(** The element of the body of [addInventoryItems] for one item. *)
Definition item_json (i : Ingredient) : Inventory.item_body :=
  {| Inventory.b_id := Some (i_id i);
     Inventory.b_name := Some (i_name i);
     Inventory.b_category := Some (i_category i);
     Inventory.b_quantity := Some (i_quantity i);
     Inventory.b_expiryDate := Some (i_expiryDate i);
     Inventory.b_confidence := Some (i_confidence i) |}.

(** [addInventoryItems(items)] answered by [POST /api/inventory/bulk]. *)
Definition addInventoryItems (uuidv4 : nat -> string) (now : Z)
           (db : Schema.database) (userId : string) (items : list Ingredient)
  : Schema.database * Inventory.response nat :=
  Inventory.bulk uuidv4 now db userId (Some (map item_json items)).

(** [getRecipeSuggestions(ingredients)] answered by the recipe routes. *)
Definition getRecipeSuggestions (uuidv4 : nat -> string) (db : Schema.database)
           (userId : string) (ingredients : option (list Ingredient))
           (parsed : list candidate) : Inventory.response (list Recipe) :=
  if Gemini.hasIngredients ingredients
  then RecipesRoute.suggest_post uuidv4 db userId ingredients parsed
  else RecipesRoute.suggest_get uuidv4 db userId parsed.

End Requests.
End Api.

(* ================================================================= *)
(** ** [services/notifications.ts]: push subscriptions *)

Module Subscriptions.
Import Inventory InventoryRoutes.

(** A row of the table [push_subscriptions]. *)
Record push_subscription : Type := {
  ps_id : string;
  ps_user_id : string;
  endpoint : string;
  keys_p256dh : string;
  keys_auth : string;
  ps_created_at : Z
}.

(** [removeSubscription]:
    [DELETE FROM push_subscriptions WHERE endpoint = ?] *)
Definition removeSubscription (tbl : list push_subscription) (endpoint_ : string)
  : list push_subscription :=
  filter (fun s => negb (String.eqb (endpoint s) endpoint_)) tbl.

(** [INSERT INTO push_subscriptions (id, user_id, endpoint, keys_p256dh,
     keys_auth) VALUES (?, ?, ?, ?, ?)]: the new table, or [None] when
    the statement throws (a missing key bound to a [NOT NULL] column, a
    repeated primary key, a repeated endpoint).  The user is a registered
    one, so that the foreign key holds. *)
Definition insert_subscription (now : Z) (tbl : list push_subscription)
           (id_ userId endpoint_ : string) (p256dh auth : option string)
  : option (list push_subscription) :=
  match p256dh, auth with
  | Some p, Some a =>
      if existsb (fun s => String.eqb (ps_id s) id_) tbl then None
      else if existsb (fun s => String.eqb (endpoint s) endpoint_) tbl then None
      else Some (tbl ++ [{| ps_id := id_; ps_user_id := userId;
                            endpoint := endpoint_; keys_p256dh := p;
                            keys_auth := a; ps_created_at := now |}])
  | _, _ => None
  end.

(** [saveSubscription]; [id_] is what [crypto.randomUUID()] returns.  The
    two statements run one after the other, outside any transaction: the
    table afterwards, and whether the function returned or threw. *)
Definition saveSubscription (id_ : string) (now : Z) (tbl : list push_subscription)
           (userId endpoint_ : string) (p256dh auth : option string)
  : list push_subscription * bool :=
  let tbl1 := removeSubscription tbl endpoint_ in
  match insert_subscription now tbl1 id_ userId endpoint_ p256dh auth with
  | Some tbl2 => (tbl2, true)
  | None => (tbl1, false)
  end.

(** The [subscription] of a request body. *)
Record keys_body : Type := {
  k_p256dh : option string;
  k_auth : option string
}.

Record subscription_body : Type := {
  s_endpoint : option string;
  s_keys : option keys_body
}.

(** [POST /api/notifications/subscribe] *)
Definition subscribe (id_ : string) (now : Z) (tbl : list push_subscription)
           (userId : string) (subscription : option subscription_body)
  : list push_subscription * response string :=
  match subscription with
  | Some sub =>
      match given (s_endpoint sub), s_keys sub with
      | Some endpoint_, Some keys =>
          match saveSubscription id_ now tbl userId endpoint_
                                 (k_p256dh keys) (k_auth keys) with
          | (tbl', true) => (tbl', Json 200 "Subscribed successfully"%string)
          | (tbl', false) => (tbl', Failure 500 "Failed to subscribe")
          end
      | _, _ => (tbl, Failure 400 "Invalid subscription")
      end
  | None => (tbl, Failure 400 "Invalid subscription")
  end.


(** What [webpush.sendNotification] does with one subscription: it
    resolves, or it rejects with an error that may carry a status code. *)
Inductive outcome : Type :=
| Delivered
| Rejected (statusCode : option Z).

(** [err.statusCode === 404 || err.statusCode === 410] *)
Definition gone (o : outcome) : bool :=
  match o with
  | Rejected (Some c) => (c =? 404) || (c =? 410)
  | _ => false
  end.

(** One round of the loop of [sendNotificationToUser]. *)
Definition push_one (webpush : push_subscription -> outcome)
           (tbl : list push_subscription) (sub : push_subscription)
  : list push_subscription :=
  if gone (webpush sub) then removeSubscription tbl (endpoint sub) else tbl.

(** [sendNotificationToUser]: the table afterwards, and the subscriptions
    the message was pushed to, in order. *)
Definition sendNotificationToUser (webpush : push_subscription -> outcome)
           (tbl : list push_subscription) (userId : string)
  : list push_subscription * list push_subscription :=
  let subscriptions := filter (fun s => String.eqb (ps_user_id s) userId) tbl in
  (fold_left (push_one webpush) subscriptions tbl, subscriptions).

End Subscriptions.

(* ================================================================= *)
(** ** [routes/notifications.ts]: preferences *)

Module Preferences.
Import Schema Inventory.

(** The body of [PUT /api/notifications/preferences].  A field is [None]
    when it is absent or null; the two flags are given as numbers. *)
Record preferences_body : Type := {
  expiryDaysBefore : option Z;
  dailySummary : option Z;
  notifyTime : option string;
  enabled_ : option Z
}.

(** [x ?? d] *)
Definition nullish {A : Type} (x : option A) (d : A) : A :=
  match x with
  | Some v => v
  | None => d
  end.

(** [x ? 1 : 0] *)
Definition one_or_zero (x : option Z) : Z :=
  match x with
  | Some v => if v =? 0 then 0 else 1
  | None => 0
  end.

(** [COALESCE(?, column)] on a column that may hold NULL. *)
Definition coalesce_null {A : Type} (given_ : option A) (current : option A) : option A :=
  match given_ with
  | Some v => Some v
  | None => current
  end.

(** The [DO UPDATE SET] clause on the row in conflict. *)
Definition update_preference (body : preferences_body) (np : notification_preference)
  : notification_preference :=
  {| np_user_id := np_user_id np;
     expiry_days_before := coalesce_null (expiryDaysBefore body) (expiry_days_before np);
     daily_summary := coalesce_null (Some (one_or_zero (dailySummary body)))
                                    (daily_summary np);
     notify_time := coalesce_null (notifyTime body) (notify_time np);
     enabled := coalesce_null (Some (one_or_zero (enabled_ body))) (enabled np) |}.

(** [INSERT INTO notification_preferences ... ON CONFLICT(user_id) DO
     UPDATE SET ...] with the nine parameters of the route.  The requester
    is a registered user, so that the foreign key holds. *)
Definition upsert (tbl : list notification_preference) (userId : string)
           (body : preferences_body) : list notification_preference :=
  if existsb (fun np => String.eqb (np_user_id np) userId) tbl
  then map (fun np => if String.eqb (np_user_id np) userId
                      then update_preference body np else np) tbl
  else tbl ++ [{| np_user_id := userId;
                  expiry_days_before := Some (nullish (expiryDaysBefore body) 3);
                  daily_summary := Some (nullish (dailySummary body) 1);
                  notify_time := Some (nullish (notifyTime body) "09:00"%string);
                  enabled := Some (nullish (enabled_ body) 1) |}].

Definition set_preferences (db : database) (tbl : list notification_preference)
  : database :=
  {| users := users db; ingredients := ingredients db;
     notification_preferences := tbl; usage_stats := usage_stats db |}.

(** [SELECT ... FROM notification_preferences WHERE user_id = ?], first
    row. *)
Definition select_preferences (db : database) (userId : string)
  : option notification_preference :=
  find (fun np => String.eqb (np_user_id np) userId) (notification_preferences db).

(** [PUT /api/notifications/preferences]; the answer carries the row read
    back. *)
Definition put_preferences (db : database) (userId : string) (body : preferences_body)
  : database * response (option notification_preference) :=
  let db' := set_preferences db (upsert (notification_preferences db) userId body) in
  (db', Json 200 (select_preferences db' userId)).

(** A flag as it arrives in the body: absent or null, a number, or a
    boolean, which is what the client's [NotificationPreferences]
    declares. *)
Inductive body_flag : Type :=
| FlagAbsent
| FlagNumber (z : Z)
| FlagBoolean (b : bool).

Record preferences_request : Type := {
  q_expiryDaysBefore : option Z;
  q_dailySummary : body_flag;
  q_notifyTime : option string;
  q_enabled : body_flag
}.

(** What the driver binds for [flag ?? 1]: a number, NULL for an absent
    flag ([None] inside), and nothing for a boolean, on which [run] throws
    a [TypeError] before the statement is executed. *)
Definition bound (f : body_flag) : option (option Z) :=
  match f with
  | FlagAbsent => Some None
  | FlagNumber z => Some (Some z)
  | FlagBoolean _ => None
  end.

(** [PUT /api/notifications/preferences] for a body whose flags may be
    booleans: the handler's [catch] answers 500 when [run] throws. *)
Definition put (db : database) (userId : string) (request : preferences_request)
  : database * response (option notification_preference) :=
  match bound (q_dailySummary request), bound (q_enabled request) with
  | Some dailySummary_, Some enabled__ =>
      put_preferences db userId
        {| expiryDaysBefore := q_expiryDaysBefore request;
           dailySummary := dailySummary_;
           notifyTime := q_notifyTime request;
           enabled_ := enabled__ |}
  | _, _ => (db, Failure 500 "Failed to update preferences")
  end.

(** A flag of the answer of [GET /api/notifications/preferences]: the
    column as stored, or the literal [true] of the defaults. *)
Inductive flag : Type :=
| Stored (v : option Z)
| Literal (b : bool).

Record preferences : Type := {
  a_expiryDaysBefore : option Z;
  a_dailySummary : flag;
  a_notifyTime : option string;
  a_enabled : flag
}.

(** [GET /api/notifications/preferences] *)
Definition get_preferences (db : database) (userId : string) : response preferences :=
  match select_preferences db userId with
  | Some np =>
      Json 200 {| a_expiryDaysBefore := expiry_days_before np;
                  a_dailySummary := Stored (daily_summary np);
                  a_notifyTime := notify_time np;
                  a_enabled := Stored (enabled np) |}
  | None =>
      Json 200 {| a_expiryDaysBefore := Some 3;
                  a_dailySummary := Literal true;
                  a_notifyTime := Some "09:00"%string;
                  a_enabled := Literal true |}
  end.

End Preferences.

(* ================================================================= *)
(** ** [routes/auth.ts] *)

Module Auth.
Import Schema Inventory InventoryRoutes.

(** The body of a request to register or to log in. *)
Record credentials : Type := {
  c_email : option string;
  c_password : option string;
  c_name : option string
}.

(** The answer to either. *)
Record session : Type := {
  token : string;
  s_id : string;
  s_email : string;
  s_name : string
}.

Section Routes.
(** [bcrypt.hash(password, salt)], [bcrypt.compare(password, hash)] and
    [generateToken(userId, email)]. *)
Variable bcrypt_hash : string -> string -> string.
Variable bcrypt_compare : string -> string -> bool.
Variable generateToken : string -> string -> string.

(** [INSERT INTO users (id, email, password_hash, name)]: [None] when the
    id or the email is taken. *)
Definition insert_user (now : Z) (tbl : list user)
           (id_ email_ passwordHash name_ : string) : option (list user) :=
  if existsb (fun u => String.eqb (u_id u) id_) tbl then None
  else if existsb (fun u => String.eqb (u_email u) email_) tbl then None
  else Some (tbl ++ [{| u_id := id_; u_email := email_;
                        u_password_hash := passwordHash; u_name := name_;
                        u_created_at := now; u_updated_at := now |}]).

(** [INSERT INTO notification_preferences (user_id) VALUES (?)]: the
    other columns take their defaults. *)
Definition insert_default_preferences (tbl : list notification_preference)
           (userId : string) : option (list notification_preference) :=
  if existsb (fun np => String.eqb (np_user_id np) userId) tbl then None
  else Some (tbl ++ [{| np_user_id := userId; expiry_days_before := Some 3;
                        daily_summary := Some 1;
                        notify_time := Some "09:00"%string;
                        enabled := Some 1 |}]).

Definition set_users (db : database) (tbl : list user) : database :=
  {| users := tbl; ingredients := ingredients db;
     notification_preferences := notification_preferences db;
     usage_stats := usage_stats db |}.

(** [POST /api/auth/register]; [userId] is what [uuidv4()] returns and
    [salt] what [bcrypt.genSalt(10)] returns.  The length of the password
    is taken in characters, the text being ASCII. *)
Definition register (userId salt : string) (now : Z) (db : database)
           (body : credentials) : database * response session :=
  match given (c_email body), given (c_password body), given (c_name body) with
  | Some email_, Some password_, Some name_ =>
      if (String.length password_ <? 6)%nat
      then (db, Failure 400 "Password must be at least 6 characters")
      else if existsb (fun u => String.eqb (u_email u) email_) (users db)
      then (db, Failure 400 "Email already registered")
      else
        let passwordHash := bcrypt_hash password_ salt in
        match insert_user now (users db) userId (toLowerCase email_)
                          passwordHash name_ with
        | None => (db, Failure 500 "Failed to create account")
        | Some tbl =>
            let db1 := set_users db tbl in
            match insert_default_preferences (notification_preferences db1) userId with
            | None => (db1, Failure 500 "Failed to create account")
            | Some nps =>
                (Preferences.set_preferences db1 nps,
                 Json 201 {| token := generateToken userId email_;
                             s_id := userId;
                             s_email := toLowerCase email_;
                             s_name := name_ |})
            end
        end
  | _, _, _ => (db, Failure 400 "Email, password, and name are required")
  end.

(** [POST /api/auth/login] *)
Definition login (db : database) (body : credentials) : response session :=
  match given (c_email body), given (c_password body) with
  | Some email_, Some password_ =>
      match find (fun u => String.eqb (u_email u) (toLowerCase email_)) (users db) with
      | None => Failure 401 "Invalid email or password"
      | Some user_ =>
          if bcrypt_compare password_ (u_password_hash user_)
          then Json 200 {| token := generateToken (u_id user_) (u_email user_);
                           s_id := u_id user_;
                           s_email := u_email user_;
                           s_name := u_name user_ |}
          else Failure 401 "Invalid email or password"
      end
  | _, _ => Failure 400 "Email and password are required"
  end.

End Routes.
End Auth.

(* ================================================================= *)
(** ** [routes/auth.ts]: the profile *)

Module Profile.
Import Schema Inventory InventoryRoutes Auth.

(** The body of [PUT /api/auth/me]. *)
Record profile_body : Type := {
  p_name : option string;
  currentPassword : option string;
  newPassword : option string
}.

(** [SELECT id, email, name FROM users WHERE id = ?], first row. *)
Record profile : Type := {
  pr_id : string;
  pr_email : string;
  pr_name : string
}.

Section Routes.
Variable bcrypt_hash : string -> string -> string.
Variable bcrypt_compare : string -> string -> bool.

Definition is_user (userId : string) (u : user) : bool := String.eqb (u_id u) userId.

(** [UPDATE users SET password_hash = ?, updated_at = datetime('now')
     WHERE id = ?] *)
Definition set_password (now : Z) (userId passwordHash : string) (tbl : list user)
  : list user :=
  map (fun u => if is_user userId u
                then {| u_id := u_id u; u_email := u_email u;
                        u_password_hash := passwordHash; u_name := u_name u;
                        u_created_at := u_created_at u; u_updated_at := now |}
                else u) tbl.

(** [UPDATE users SET name = ?, updated_at = datetime('now') WHERE id = ?] *)
Definition set_name (now : Z) (userId name_ : string) (tbl : list user) : list user :=
  map (fun u => if is_user userId u
                then {| u_id := u_id u; u_email := u_email u;
                        u_password_hash := u_password_hash u; u_name := name_;
                        u_created_at := u_created_at u; u_updated_at := now |}
                else u) tbl.

(** The part of the handler behind the change of password: the name, and
    the answer. *)
Definition rename_and_answer (now : Z) (db : database) (userId : string)
           (body : profile_body) : database * response (option profile) :=
  let db' :=
    match given (p_name body) with
    | Some name_ => set_users db (set_name now userId name_ (users db))
    | None => db
    end in
  (db', Json 200 (option_map (fun u => {| pr_id := u_id u; pr_email := u_email u;
                                          pr_name := u_name u |})
                             (find (is_user userId) (users db')))).

(** [PUT /api/auth/me]; [salt] is what [bcrypt.genSalt(10)] returns.  A
    requester whose row is gone makes the handler throw when it reads the
    stored hash.  The length of the new password is taken in characters,
    the text being ASCII. *)
Definition update_me (salt : string) (now : Z) (db : database) (userId : string)
           (body : profile_body) : database * response (option profile) :=
  match given (newPassword body) with
  | Some newPassword_ =>
      match given (currentPassword body) with
      | None => (db, Failure 400 "Current password required to change password")
      | Some currentPassword_ =>
          match find (is_user userId) (users db) with
          | None => (db, Failure 500 "Failed to update user")
          | Some user_ =>
              if negb (bcrypt_compare currentPassword_ (u_password_hash user_))
              then (db, Failure 401 "Current password is incorrect")
              else if (String.length newPassword_ <? 6)%nat
              then (db, Failure 400 "New password must be at least 6 characters")
              else
                let passwordHash := bcrypt_hash newPassword_ salt in
                rename_and_answer now
                  (set_users db (set_password now userId passwordHash (users db)))
                  userId body
          end
      end
  | None => rename_and_answer now db userId body
  end.

End Routes.
End Profile.

(* ================================================================= *)
(** ** [services/ocr.ts] *)

Module Ocr.

(** The recognised text is any JavaScript string: the list of its UTF-16
    code units. *)
Definition text : Type := list Z.

(** [\s] of a regular expression, which is also what [trim] strips:
    white space and line terminators. *)
Definition whitespace (c : Z) : bool :=
  existsb (Z.eqb c)
          [9; 10; 11; 12; 13; 32; 160; 5760; 8232; 8233; 8239; 8287; 12288; 65279]
  || ((8192 <=? c) && (c <=? 8202)).

(** [\d] *)
Definition digit (c : Z) : bool := (48 <=? c) && (c <=? 57).

(** [(?=\d)]: the next code unit is a digit. *)
Definition before_digit (rest : text) : bool :=
  match rest with
  | d :: _ => digit d
  | [] => false
  end.

(** [.replace(/\s+/g, ' ')]; [in_run] tells that the code unit before
    was white space. *)
Fixpoint collapse (in_run : bool) (s : text) : text :=
  match s with
  | [] => []
  | c :: s' =>
      if whitespace c
      then if in_run then collapse true s' else 32 :: collapse true s'
      else c :: collapse false s'
  end.

(** [.replace(/[|l](?=\d)/g, '1')] *)
Fixpoint bars_to_one (s : text) : text :=
  match s with
  | [] => []
  | c :: s' =>
      (if ((c =? 124) || (c =? 108)) && before_digit s' then 49 else c)
        :: bars_to_one s'
  end.

(** [.replace(/O(?=\d)/g, '0')] *)
Fixpoint o_to_zero (s : text) : text :=
  match s with
  | [] => []
  | c :: s' => (if (c =? 79) && before_digit s' then 48 else c) :: o_to_zero s'
  end.

(** [.replace(/[!]/g, '1')] *)
Definition bang_to_one (s : text) : text :=
  map (fun c => if c =? 33 then 49 else c) s.

(** [.replace(/[^\x20-\x7E\n]/g, '')] *)
Definition printable (s : text) : text :=
  filter (fun c => ((32 <=? c) && (c <=? 126)) || (c =? 10)) s.

(** [.replace(/\r\n/g, '\n')] *)
Fixpoint unix_lines (s : text) : text :=
  match s with
  | [] => []
  | c :: s' =>
      match s' with
      | d :: s'' =>
          if (c =? 13) && (d =? 10) then 10 :: unix_lines s'' else c :: unix_lines s'
      | [] => [c]
      end
  end.

Fixpoint trimStart (s : text) : text :=
  match s with
  | [] => []
  | c :: s' => if whitespace c then trimStart s' else s
  end.

(** [.trim()] *)
Definition trim (s : text) : text := rev (trimStart (rev (trimStart s))).

(** [cleanOCRText] *)
Definition cleanOCRText (t : text) : text :=
  trim (unix_lines (printable (bang_to_one (o_to_zero (bars_to_one (collapse false t)))))).

End Ocr.

(* ================================================================= *)
(** * Vocabulary of the specification *)

(** [Math.round] as a function on exact values. *)
Definition round_half_up (q : Q) : Z := Qfloor (q + (1 # 2)).

(** [100 * u / n] lies exactly halfway between two integers. *)
Definition halfway (u n : Z) : Prop := (200 * u + n) mod (2 * n) = 0.

(** The bucket of a day count under the rule of the specification, with
    the threshold 3. *)
Definition bucket_of_days (k : Z) : bucket :=
  if k <? 0 then Expired else if k <=? 3 then ExpiringSoon else Fresh.

(** The items of a list that fall into bucket [b]. *)
Definition in_bucket (today threeDaysFromNow : Date) (b : bucket) (items : list Z)
  : list Z :=
  filter (fun e => bucket_eqb (Inventory.stats_bucket today threeDaysFromNow e) b) items.

(** [a] may stand before [b] when sorting by an integer key, larger keys
    first. *)
Definition descending {A : Type} (key : A -> Z) (a b : A) : Prop := key b <= key a.

(** The recipe's match as an integer, when it is one. *)
Definition match_key (r : Recipe) : Z :=
  match matchPercentage r with
  | Fin q => Qfloor q
  | _ => 0
  end.

(** The recipe's match is a whole percentage. *)
Definition whole_match (r : Recipe) : Prop :=
  exists k : Z, matchPercentage r = of_Z k /\ 0 <= k <= 100.

(** [a] may stand before [b] in a ranking by descending match. *)
Definition ranked_before (a b : Recipe) : Prop :=
  num_leb (matchPercentage b) (matchPercentage a) = true.

(** The recipe's match is the integer [p]. *)
Definition same_match (p : Z) (r : Recipe) : bool :=
  match matchPercentage r with
  | Fin q => Qeq_bool q (inject_Z p)
  | _ => false
  end.

(** The three properties of a ranking [out] of the scored list [l]. *)
Definition ranking_of (l out : list Recipe) : Prop :=
  Permutation l out /\
  StronglySorted ranked_before out /\
  forall p : Z, filter (same_match p) out = filter (same_match p) l.

(** What a candidate needs for its score to be a number: in cookbook mode
    nothing; with inventory, arrays of admissible length and at least one
    ingredient. *)
Definition scorable (has : bool) (c : candidate) : Prop :=
  has = true ->
  Z.of_nat (List.length (c_usedIngredients c)) < 2 ^ 32 /\
  Z.of_nat (List.length (c_missingIngredients c)) < 2 ^ 32 /\
  (0 < List.length (c_usedIngredients c) + List.length (c_missingIngredients c))%nat.

(** [sub] occurs inside [s]. *)
Definition occurs_in (sub s : string) : Prop :=
  exists pre post : string, s = (pre ++ sub ++ post)%string.

(** [w] is the first word of [s]: the text of [s] before its first
    space, or all of [s] when it has none. *)
Definition first_word_of (s w : string) : Prop :=
  ~ occurs_in " " w /\
  (s = w \/ exists rest : string, s = (w ++ " " ++ rest)%string).

(** The same character, or the capital and the small form of one letter
    of ASCII: the codes of A to Z are 65 to 90, and the small letters
    follow 32 places on. *)
Definition same_letter (c d : ascii) : Prop :=
  c = d \/
  (65 <= nat_of_ascii c <= 90 /\ nat_of_ascii d = nat_of_ascii c + 32)%nat \/
  (65 <= nat_of_ascii d <= 90 /\ nat_of_ascii c = nat_of_ascii d + 32)%nat.

(** Two texts that differ in the case of their letters at most. *)
Fixpoint same_ignoring_case (a b : string) : Prop :=
  match a, b with
  | EmptyString, EmptyString => True
  | String c a', String d b' => same_letter c d /\ same_ignoring_case a' b'
  | _, _ => False
  end.

(** A text without capital letters. *)
Fixpoint no_capitals (s : string) : Prop :=
  match s with
  | EmptyString => True
  | String c s' => ~ (65 <= nat_of_ascii c <= 90)%nat /\ no_capitals s'
  end.

(** [w] occurs in [s] as a substring, case-insensitively. *)
Definition occurs_ignoring_case (w s : string) : Prop :=
  exists pre mid post : string,
    s = (pre ++ mid ++ post)%string /\ same_ignoring_case mid w.

(** The first word of the required ingredient [req] occurs,
    case-insensitively, in the name of some item of the inventory. *)
Definition first_word_in_stock (inv : list Ingredient) (req : string) : Prop :=
  exists (item : Ingredient) (w : string),
    In item inv /\ first_word_of req w /\ occurs_ignoring_case w (i_name item).

(** [recipe] carrying the match [score]. *)
Definition with_match (recipe : Recipe) (score : number) : Recipe :=
  {| r_id := r_id recipe; title := title recipe;
     matchPercentage := score;
     usedIngredients := usedIngredients recipe;
     missingIngredients := missingIngredients recipe;
     time := time recipe; calories := calories recipe; image := image recipe;
     instructions := instructions recipe; dietary := dietary recipe |}.

(** The usage row gives no value for [field]: there is no row, or the
    field is NULL or zero. *)
Definition no_override (usage : option Schema.usage_stat)
           (field : Schema.usage_stat -> option Q) : Prop :=
  match usage with
  | None => True
  | Some row =>
      match field row with
      | None => True
      | Some v => (v == 0)%Q
      end
  end.

(** The usage row gives the non-zero value [v] for [field]. *)
Definition overrides (usage : option Schema.usage_stat)
           (field : Schema.usage_stat -> option Q) (v : Q) : Prop :=
  exists row : Schema.usage_stat,
    usage = Some row /\ field row = Some v /\ ~ (v == 0)%Q.

(** The store with its usage rows replaced. *)
Definition with_usage_stats (db : Schema.database) (ust : list Schema.usage_stat)
  : Schema.database :=
  {| Schema.users := Schema.users db;
     Schema.ingredients := Schema.ingredients db;
     Schema.notification_preferences := Schema.notification_preferences db;
     Schema.usage_stats := ust |}.

(** The record carries a category outside the five allowed ones. *)
Definition bad_category (item : Inventory.item_body) : Prop :=
  exists c : string, Inventory.b_category item = Some c /\ Schema.category_ok c = false.


(** What the update leaves of a row [old] in [new]: a row of another id or
    owner is untouched; a targeted row keeps its key, owner and creation
    time, and every column the request does not mention. *)
Definition preserved (id_ userId : string) (body : Inventory.item_body)
           (old new : Schema.ingredient) : Prop :=
  (Schema.id old <> id_ \/ Schema.user_id old <> userId -> new = old) /\
  Schema.id new = Schema.id old /\
  Schema.user_id new = Schema.user_id old /\
  Schema.created_at new = Schema.created_at old /\
  (Inventory.b_name body = None -> Schema.name new = Schema.name old) /\
  (Inventory.b_category body = None -> Schema.category new = Schema.category old) /\
  (Inventory.b_quantity body = None -> Schema.quantity new = Schema.quantity old) /\
  (Inventory.b_expiryDate body = None -> Schema.expiry_date new = Schema.expiry_date old) /\
  (Inventory.b_confidence body = None -> Schema.confidence new = Schema.confidence old).


(** ** The further routes and views *)

(** [a] may stand before [b] in an ordered answer: [b] does not sort
    strictly before [a]. *)
Definition not_after {A : Type} (before : A -> A -> bool) (a b : A) : Prop :=
  before b a = false.

(** Items in ascending order of expiry, of name, and of category with the
    expiry date deciding inside a category. *)
Definition expiry_ascending (a b : Ingredient) : Prop :=
  i_expiryDate a <= i_expiryDate b.

Definition name_ascending (a b : Ingredient) : Prop :=
  String.leb (i_name a) (i_name b) = true.

Definition category_then_expiry (a b : Ingredient) : Prop :=
  String.ltb (i_category a) (i_category b) = true
  \/ (i_category a = i_category b /\ i_expiryDate a <= i_expiryDate b).

(** Row [r] passes the filters of a listing request. *)
Definition passes_filters (search category_ : option string)
           (r : Schema.ingredient) : Prop :=
  (forall s, InventoryRoutes.given search = Some s ->
             InventoryRoutes.name_like s r = true) /\
  (forall c, InventoryRoutes.given category_ = Some c -> c <> "all"%string ->
             Schema.category r = c).

(** A text of ASCII characters only. *)
Fixpoint ascii_text (s : string) : bool :=
  match s with
  | EmptyString => true
  | String c s' => (nat_of_ascii c <? 128)%nat && ascii_text s'
  end.

(** A search text without the wildcards [%] and [_]. *)
Fixpoint plain (s : string) : bool :=
  match s with
  | EmptyString => true
  | String c s' => negb (Ascii.eqb c "%") && negb (Ascii.eqb c "_") && plain s'
  end.

(** The request body lacks one of the four texts the route requires. *)
Definition incomplete (body : Inventory.item_body) : Prop :=
  InventoryRoutes.given (Inventory.b_name body) = None \/
  InventoryRoutes.given (Inventory.b_category body) = None \/
  InventoryRoutes.given (Inventory.b_quantity body) = None \/
  Inventory.b_expiryDate body = None.

(** The row [POST /api/inventory] stores for [item]. *)
Definition stored_as (userId : string) (now : Z) (item : Ingredient)
           (row : Schema.ingredient) : Prop :=
  Inventory.as_Ingredient row = item /\ Schema.user_id row = userId /\
  Schema.created_at row = now /\ Schema.updated_at row = now.

(** The constraints of the table: the primary key and the [CHECK] on the
    category. *)
Definition constraints_hold (tbl : list Schema.ingredient) : Prop :=
  NoDup (map Schema.id tbl) /\
  Forall (fun r => Schema.category_ok (Schema.category r) = true) tbl.

(** A category name that no object inherits. *)
Definition own_name (category : string) : Prop :=
  existsb (String.eqb category) ReceiptParsing.inherited = false.

(** The row [saveSubscription] inserts. *)
Definition subscription_row (id_ : string) (now : Z) (userId endpoint_ p256dh auth : string)
  : Subscriptions.push_subscription :=
  {| Subscriptions.ps_id := id_; Subscriptions.ps_user_id := userId;
     Subscriptions.endpoint := endpoint_; Subscriptions.keys_p256dh := p256dh;
     Subscriptions.keys_auth := auth; Subscriptions.ps_created_at := now |}.


(** The tables of accounts are consistent: ids and emails are unique,
    emails are stored in lower case, and every preferences row belongs to
    one user, who has no other. *)
Definition accounts_consistent (db : Schema.database) : Prop :=
  NoDup (map Schema.u_id (Schema.users db)) /\
  NoDup (map Schema.u_email (Schema.users db)) /\
  Forall (fun u => toLowerCase (Schema.u_email u) = Schema.u_email u) (Schema.users db) /\
  NoDup (map Schema.np_user_id (Schema.notification_preferences db)) /\
  (forall np, In np (Schema.notification_preferences db) ->
              In (Schema.np_user_id np) (map Schema.u_id (Schema.users db))).

(** A request to register, or to log in. *)
Definition sign_up (email password name_ : string) : Auth.credentials :=
  {| Auth.c_email := Some email; Auth.c_password := Some password;
     Auth.c_name := Some name_ |}.

Definition sign_in (email password : string) : Auth.credentials :=
  {| Auth.c_email := Some email; Auth.c_password := Some password;
     Auth.c_name := None |}.

(** The user row and the preferences row of a new account. *)
Definition account_row (userId email passwordHash name_ : string) (now : Z)
  : Schema.user :=
  {| Schema.u_id := userId; Schema.u_email := toLowerCase email;
     Schema.u_password_hash := passwordHash; Schema.u_name := name_;
     Schema.u_created_at := now; Schema.u_updated_at := now |}.

Definition default_preferences (userId : string) : Schema.notification_preference :=
  {| Schema.np_user_id := userId; Schema.expiry_days_before := Some 3;
     Schema.daily_summary := Some 1; Schema.notify_time := Some "09:00"%string;
     Schema.enabled := Some 1 |}.

(** What a profile update leaves of a user row [u] in [u']: the id, the
    email and the creation time always, the whole row when it is another
    user's, and the password hash unless the body carries the current
    password, which the stored hash of the requester confirms, and a new
    one of six characters or more, whose hash is then stored. *)
Definition profile_kept (bcrypt_hash : string -> string -> string)
           (bcrypt_compare : string -> string -> bool) (salt : string)
           (db : Schema.database) (userId : string) (body : Profile.profile_body)
           (u u' : Schema.user) : Prop :=
  Schema.u_id u' = Schema.u_id u /\
  Schema.u_email u' = Schema.u_email u /\
  Schema.u_created_at u' = Schema.u_created_at u /\
  (Schema.u_id u <> userId -> u' = u) /\
  (Schema.u_password_hash u' <> Schema.u_password_hash u ->
   exists cur new me,
     InventoryRoutes.given (Profile.currentPassword body) = Some cur /\
     InventoryRoutes.given (Profile.newPassword body) = Some new /\
     find (Profile.is_user userId) (Schema.users db) = Some me /\
     bcrypt_compare cur (Schema.u_password_hash me) = true /\
     (6 <= String.length new)%nat /\
     Schema.u_password_hash u' = bcrypt_hash new salt).

(** By how much the local clock is ahead of UTC at the instant [now], less
    by how much it is ahead when it shows the same time of day [n] days
    later: zero unless the clocks are changed in between. *)
Definition clock_change (tz : Clock.TimeZone) (now n : Z) : Z :=
  Clock.localTZA tz now true
  - Clock.localTZA tz (now + Clock.localTZA tz now true + n * msPerDay) false.

(** The clocks are set the same at both times. *)
Definition steady (tz : Clock.TimeZone) (now n : Z) : Prop :=
  clock_change tz now n = 0.

(** The instant at which the local clock shows, [n] days after [now], the
    time of day it shows at [now]: [n] days later, corrected by the change
    of the clocks. *)
Definition days_on (tz : Clock.TimeZone) (now n : Z) : Z :=
  now + n * msPerDay + clock_change tz now n.

(** [d] is the shelf life of [category]: the number of days the table
    gives it, and 30 days for a category the table does not hold. *)
Definition shelf_life (category : string) (d : Z) : Prop :=
  In (category, d) ReceiptParsing.EXPIRY_DEFAULTS \/
  (~ In category (map fst ReceiptParsing.EXPIRY_DEFAULTS) /\ d = 30).

(** Every stored expiry date is within 10^8 days of today. *)
Definition dates_in_range (now : Z) (db : Schema.database) : Prop :=
  Forall (fun r => Z.abs (Schema.expiry_date r - isoDay now) <= 10 ^ 8)
         (Schema.ingredients db).

(** The only white space left is the space. *)
Definition blank_is_space (c : Z) : Prop := Ocr.whitespace c = true -> c = 32.

(* ================================================================= *)
(** * Sample inputs *)

(** Noon UTC of 2024-06-10, which is day 19884 since the epoch. *)
Definition june_noon : Z := 19884 * msPerDay + 12 * 3600 * 1000.

(** What [toISOString] answers at that instant. *)
Definition clock_2024_06_10 (ms : Z) : string := "2024-06-10T12:00:00.000Z".

(** A candidate without any ingredient. *)
Definition no_ingredients : candidate :=
  {| c_title := "Water"; c_usedIngredients := []; c_missingIngredients := [];
     c_time := "1 min"; c_calories := 0; c_instructions := None;
     c_dietary := None |}.

(** A candidate with [u] used and [m] missing ingredients. *)
Definition sample_candidate (u m : nat) : candidate :=
  {| c_title := "Stew"; c_usedIngredients := repeat "Leek"%string u;
     c_missingIngredients := repeat "Salt"%string m;
     c_time := "40 min"; c_calories := 300; c_instructions := None;
     c_dietary := None |}.

(** The scenario of the specification. *)
Definition milk_and_eggs : list Ingredient :=
  [ {| i_id := "i1"; i_name := "Milk"; i_category := "Dairy"; i_quantity := "1";
       i_expiryDate := 19884; i_confidence := 1 |};
    {| i_id := "i2"; i_name := "Eggs"; i_category := "Dairy"; i_quantity := "12";
       i_expiryDate := 19890; i_confidence := 1 |} ].

(** A recipe using Milk and Cheese, and missing Cheese. *)
Definition milk_cheese_recipe : Recipe :=
  {| r_id := "s1"; title := "Cheese Omelette"; time := "10 min"; calories := 320;
     usedIngredients := ["Milk"; "Cheese"]%string;
     missingIngredients := ["Cheese"]%string;
     matchPercentage := of_Z 0; image := "";
     instructions := None; dietary := None |}.

(** The first recipe of the static catalogue. *)
Definition creamy_chicken_pasta : Recipe :=
  {| r_id := "r1"; title := "Creamy Chicken Spinach Pasta"; time := "25 min";
     calories := 450;
     usedIngredients := ["Chicken Breast"; "Spinach"; "Parmesan"]%string;
     missingIngredients := ["Pasta"; "Heavy Cream"]%string;
     matchPercentage := of_Z 0;
     image := "https://images.unsplash.com/photo-1621996346565-e3dbc646d9a9?w=400&h=300&fit=crop";
     instructions := None; dietary := None |}.

(** An inventory of Chicken, in capitals, and spinach. *)
Definition chicken_and_spinach : list Ingredient :=
  [ {| i_id := "i1"; i_name := "CHICKEN thighs"; i_category := "Meat";
       i_quantity := "2"; i_expiryDate := 19886; i_confidence := 1 |};
    {| i_id := "i2"; i_name := "Baby spinach"; i_category := "Produce";
       i_quantity := "1"; i_expiryDate := 19887; i_confidence := 1 |} ].

(** A carton of milk of user u1, dated [day]. *)
Definition row_expiring (id_ : string) (day : Z) : Schema.ingredient :=
  {| Schema.id := id_; Schema.user_id := "u1"; Schema.name := "Milk";
     Schema.category := "Dairy"; Schema.quantity := "1";
     Schema.expiry_date := day; Schema.confidence := 1;
     Schema.created_at := 0; Schema.updated_at := 0 |}.

(** The account of user u1. *)
Definition owner_u1 : Schema.user :=
  {| Schema.u_id := "u1"; Schema.u_email := "a@b.c";
     Schema.u_password_hash := "h"; Schema.u_name := "Ann";
     Schema.u_created_at := 0; Schema.u_updated_at := 0 |}.

Definition empty_store : Schema.database :=
  {| Schema.users := []; Schema.ingredients := [];
     Schema.notification_preferences := []; Schema.usage_stats := [] |}.

(** A store in which the month's usage row holds the column defaults. *)
Definition store_with_default_usage : Schema.database :=
  {| Schema.users := [owner_u1];
     Schema.ingredients := [row_expiring "a" 19900; row_expiring "b" 19901];
     Schema.notification_preferences := [];
     Schema.usage_stats :=
       [{| Schema.us_id := 1; Schema.us_user_id := "u1"; Schema.month := "2024-06";
           Schema.items_saved := Some 0; Schema.items_wasted := Some 0;
           Schema.estimated_savings := Some 0%Q; Schema.co2_saved := Some 0%Q |}] |}.

(** A store holding one item dated 2024-06-10. *)
Definition store_with_item_of_today : Schema.database :=
  {| Schema.users := [owner_u1];
     Schema.ingredients := [row_expiring "a" 19884];
     Schema.notification_preferences := [];
     Schema.usage_stats := [] |}.

(** A user who asked to be told zero days ahead, and whose milk expires
    in two days. *)
Definition store_zero_days_before : Schema.database :=
  {| Schema.users := [{| Schema.u_id := "u1"; Schema.u_email := "a@b.c";
                          Schema.u_password_hash := "h"; Schema.u_name := "Ann";
                          Schema.u_created_at := 0; Schema.u_updated_at := 0 |}];
     Schema.ingredients := [row_expiring "a" 19886];
     Schema.notification_preferences :=
       [{| Schema.np_user_id := "u1"; Schema.expiry_days_before := Some 0;
           Schema.daily_summary := Some 1; Schema.notify_time := Some "09:00"%string;
           Schema.enabled := Some 1 |}];
     Schema.usage_stats := [] |}.

(** A store holding one item, of id "a", of the registered user u1. *)
Definition store_with_one_item : Schema.database :=
  {| Schema.users := [owner_u1]; Schema.ingredients := [row_expiring "a" 19890];
     Schema.notification_preferences := []; Schema.usage_stats := [] |}.

(** A well-formed record of a batch. *)
Definition good_item (id_ name_ : string) : Inventory.item_body :=
  {| Inventory.b_id := Some id_; Inventory.b_name := Some name_;
     Inventory.b_category := Some "Dairy"%string; Inventory.b_quantity := Some "1"%string;
     Inventory.b_expiryDate := Some 19890; Inventory.b_confidence := Some 1%Q |}.


(** A request body that gives a new name and nothing else. *)
Definition rename_to_oat_milk : Inventory.item_body :=
  {| Inventory.b_id := None; Inventory.b_name := Some "Oat milk"%string;
     Inventory.b_category := None; Inventory.b_quantity := None;
     Inventory.b_expiryDate := None; Inventory.b_confidence := None |}.

(** ** The further routes and views *)

(** New York in 2024: five hours behind UTC until 2024-03-10T07:00Z, four
    hours behind from then until 2024-11-03T06:00Z, and five hours behind
    again.  A local time that the change skips or repeats is read with
    the offset in force before the change. *)
Definition new_york_2024 : Clock.TimeZone :=
  {| Clock.localTZA := fun t isUTC =>
       let spring := 19792 * msPerDay + 7 * 3600000 in
       let autumn := 20030 * msPerDay + 6 * 3600000 in
       let u := if isUTC then t else t + 4 * 3600000 in
       if (u <? spring) || (autumn <=? u) then - (5 * 3600000) else - (4 * 3600000) |}.

(** Half past midnight UTC of 2024-03-08, two days before the clocks of
    New York are put forward. *)
Definition march_8th : Z := 19790 * msPerDay + 30 * 60000.

(** A user who asks for notifications seven days ahead. *)
Definition ann_seven_days : Notifications.joined :=
  {| Notifications.j_id := "u1"; Notifications.j_name := "Ann";
     Notifications.j_expiry_days_before := Some 7;
     Notifications.j_enabled := Some 1 |}.

(** A receipt answer: two dairy products, the second without quantity
    and confidence. *)
Definition receipt_of_two : list ReceiptParsing.parsed_item :=
  [ {| ReceiptParsing.p_name := "Milk"; ReceiptParsing.p_category := "Dairy";
       ReceiptParsing.p_quantity := Some "1 l"%string;
       ReceiptParsing.p_confidence := Some (9 # 10) |};
    {| ReceiptParsing.p_name := "Butter"; ReceiptParsing.p_category := "Dairy";
       ReceiptParsing.p_quantity := None;
       ReceiptParsing.p_confidence := None |} ].

(** A receipt of one packet of beef. *)
Definition packet_of_beef : list ReceiptParsing.parsed_item :=
  [ {| ReceiptParsing.p_name := "Beef"; ReceiptParsing.p_category := "Meat";
       ReceiptParsing.p_quantity := None;
       ReceiptParsing.p_confidence := Some 1%Q |} ].

(** The generator of ids used in the examples. *)
Definition sample_uuid (n : nat) : string :=
  match n with
  | O => "id-0"%string
  | S O => "id-1"%string
  | _ => "id-n"%string
  end.

(** A table in which user u2 holds the endpoint "https://push/1". *)
Definition one_subscription : list Subscriptions.push_subscription :=
  [subscription_row "s1" 0 "u2" "https://push/1" "k" "a"].

(** A push service that has lost every endpoint. *)
Definition all_gone (s : Subscriptions.push_subscription) : Subscriptions.outcome :=
  Subscriptions.Rejected (Some 410).

(** A request that changes the number of days and nothing else. *)
Definition five_days_before : Preferences.preferences_request :=
  {| Preferences.q_expiryDaysBefore := Some 5;
     Preferences.q_dailySummary := Preferences.FlagAbsent;
     Preferences.q_notifyTime := None;
     Preferences.q_enabled := Preferences.FlagAbsent |}.

(** A request of the client that switches the daily summary on. *)
Definition daily_summary_on : Preferences.preferences_request :=
  {| Preferences.q_expiryDaysBefore := None;
     Preferences.q_dailySummary := Preferences.FlagBoolean true;
     Preferences.q_notifyTime := None;
     Preferences.q_enabled := Preferences.FlagAbsent |}.

(** Stand-ins for the hash, its check and the token in the examples. *)
Definition sample_hash (password salt : string) : string := ("h:" ++ password)%string.
Definition sample_compare (password hash : string) : bool :=
  String.eqb hash ("h:" ++ password)%string.
Definition sample_token (userId email : string) : string := (userId ++ ":" ++ email)%string.

(** A store with one account. *)
Definition store_with_ann : Schema.database :=
  {| Schema.users := [account_row "u1" "ann@example.org" "h:secret1" "Ann" 0];
     Schema.ingredients := [];
     Schema.notification_preferences := [default_preferences "u1"];
     Schema.usage_stats := [] |}.

(* ================================================================= *)
(** * Properties *)

(** ** Rounding and integer parts *)

Lemma Qfloor_unique (x : Q) (f : Z) :
  (inject_Z f <= x)%Q -> (x < inject_Z (f + 1))%Q -> Qfloor x = f.
Proof.
  intros Hlo Hhi.
  assert (f <= Qfloor x).
  { rewrite <- (Qfloor_Z f). now apply Qfloor_resp_le. }
  assert (Qfloor x < f + 1).
  { rewrite Zlt_Qlt. eapply Qle_lt_trans; [apply Qfloor_le | exact Hhi]. }
  lia.
Qed.

Lemma Qceiling_unique (x : Q) (c : Z) :
  (inject_Z (c - 1) < x)%Q -> (x <= inject_Z c)%Q -> Qceiling x = c.
Proof.
  intros Hlo Hhi.
  assert (Qceiling x <= c).
  { rewrite <- (Qceiling_Z c). now apply Qceiling_resp_le. }
  assert (c - 1 < Qceiling x).
  { rewrite Zlt_Qlt. eapply Qlt_le_trans; [exact Hlo | apply Qle_ceiling]. }
  lia.
Qed.

Lemma Qabs_diff_bounds (x y d : Q) :
  (Qabs (y - x) <= d)%Q -> (x - d <= y)%Q /\ (y <= x + d)%Q.
Proof.
  intros H. apply Qabs_Qle_condition in H. destruct H. split; lra.
Qed.

Lemma inject_Z_Qeq_bool (a b : Z) : Qeq_bool (inject_Z a) (inject_Z b) = (a =? b).
Proof.
  unfold Qeq_bool, inject_Z; simpl. now rewrite !Z.mul_1_r.
Qed.

Lemma inject_Z_Qle_bool (a b : Z) : Qle_bool (inject_Z a) (inject_Z b) = (a <=? b).
Proof.
  unfold Qle_bool, inject_Z; simpl. now rewrite !Z.mul_1_r.
Qed.

Lemma inject_Z_Qlt_bool (a b : Z) : Qlt_bool (inject_Z a) (inject_Z b) = (a <? b).
Proof.
  unfold Qlt_bool. rewrite inject_Z_Qle_bool. now rewrite Z.ltb_antisym.
Qed.

Ltac of_inject :=
  change 0%Q with (inject_Z 0); change 1%Q with (inject_Z 1);
  unfold Qminus;
  repeat (rewrite <- inject_Z_mult || rewrite <- inject_Z_opp || rewrite <- inject_Z_plus);
  first [rewrite <- Zle_Qle | rewrite <- Zlt_Qlt | rewrite inject_Z_injective].

(** A value within [d] of [N/D] rounds like [N/D], except at an exact tie. *)
Lemma floor_near_fraction (N D : Z) (y d : Q) :
  0 < D ->
  (0 <= d)%Q -> (d * inject_Z D < 1)%Q ->
  (Qabs (y - inject_Z N / inject_Z D) <= d)%Q ->
  (N mod D <> 0 -> Qfloor y = N / D) /\
  (Qfloor y = N / D \/ (N mod D = 0 /\ Qfloor y = N / D - 1)).
Proof.
  intros HD Hd Hsmall Hy.
  apply Qabs_diff_bounds in Hy. destruct Hy as [Hlo Hhi].
  set (x := (inject_Z N / inject_Z D)%Q) in *.
  assert (HDq : (0 < inject_Z D)%Q) by (of_inject; lia).
  assert (Hx : (x * inject_Z D == inject_Z (N / D) * inject_Z D + inject_Z (N mod D))%Q).
  { unfold x. rewrite <- inject_Z_mult, <- inject_Z_plus.
    rewrite (Z.mul_comm (N / D)), <- Z.div_mod by lia. field. lra. }
  pose proof (Z.mod_pos_bound N D HD) as Hr.
  assert (Hr1 : (0 <= inject_Z (N mod D))%Q) by (of_inject; lia).
  assert (Hr2 : (inject_Z (N mod D) <= inject_Z D - 1)%Q).
  { of_inject. lia. }
  set (f := N / D) in *. set (r := N mod D) in *.
  assert (Hd1 : (d < 1)%Q).
  { assert (1 <= inject_Z D)%Q by (of_inject; lia). nra. }
  split.
  - intros Hne.
    assert (Hr3 : (1 <= inject_Z r)%Q).
    { of_inject. lia. }
    apply Qfloor_unique.
    + nra.
    + rewrite inject_Z_plus. change (inject_Z 1) with 1%Q. nra.
  - destruct (Z.eq_dec r 0) as [E|Hne].
    + assert (Hxf : (x == inject_Z f)%Q).
      { rewrite E in Hx. change (inject_Z 0) with 0%Q in Hx. nra. }
      destruct (Qlt_le_dec y (inject_Z f)) as [Hlt|Hge].
      * right. split; [exact E|]. apply Qfloor_unique.
        -- unfold Z.sub. rewrite inject_Z_plus, inject_Z_opp. change (inject_Z 1) with 1%Q. lra.
        -- replace (f - 1 + 1) with f by lia. exact Hlt.
      * left. apply Qfloor_unique; [exact Hge|].
        rewrite inject_Z_plus. change (inject_Z 1) with 1%Q. lra.
    + left.
      assert (Hr3 : (1 <= inject_Z r)%Q).
      { of_inject. lia. }
      apply Qfloor_unique.
      * nra.
      * rewrite inject_Z_plus. change (inject_Z 1) with 1%Q. nra.
Qed.

Section RoundingFacts.
Context {R : Rounding} {F : Faithful R}.

Lemma fl_Z (z : Z) : Z.abs z <= 2 ^ 53 -> (fl (inject_Z z) == inject_Z z)%Q.
Proof.
  intros H.
  assert (E : (inject_Z z * 2 ^ 0 == inject_Z z)%Q) by (simpl; ring).
  rewrite <- (fl_compat _ _ E). rewrite (fl_representable z 0 H). exact E.
Qed.

Lemma fl_half (z : Z) :
  Z.abs z <= 2 ^ 53 -> (fl (inject_Z z * (1 # 2)) == inject_Z z * (1 # 2))%Q.
Proof.
  intros H. exact (fl_representable z (-1) H).
Qed.

Lemma fl_le_Z (x : Q) (z : Z) :
  Z.abs z <= 2 ^ 53 -> (x <= inject_Z z)%Q -> (fl x <= inject_Z z)%Q.
Proof.
  intros H L. rewrite <- (fl_Z z H). now apply fl_monotone.
Qed.

Lemma fl_ge_Z (x : Q) (z : Z) :
  Z.abs z <= 2 ^ 53 -> (inject_Z z <= x)%Q -> (inject_Z z <= fl x)%Q.
Proof.
  intros H L. rewrite <- (fl_Z z H). now apply fl_monotone.
Qed.

Lemma fl_near (x : Q) :
  (x - Qabs x * (1 # 2 ^ 53) <= fl x)%Q /\ (fl x <= x + Qabs x * (1 # 2 ^ 53))%Q.
Proof. apply Qabs_diff_bounds, fl_error. Qed.

End RoundingFacts.

(* ================================================================= *)
(** * Double precision is a faithful rounding *)

Lemma Qlt_bool_iff (a b : Q) : Qlt_bool a b = true <-> (a < b)%Q.
Proof.
  unfold Qlt_bool. rewrite negb_true_iff. split.
  - intros H. apply Qnot_le_lt. intros L. apply Qle_bool_iff in L. congruence.
  - intros H. destruct (Qle_bool b a) eqn:E; [|reflexivity].
    apply Qle_bool_iff in E. lra.
Qed.

(** ** Powers of two *)

Lemma pw_pos (z : Z) : (0 < 2 ^ z)%Q.
Proof. apply Qpower_0_lt. reflexivity. Qed.

Lemma pw_add (a b : Z) : (2 ^ (a + b) == 2 ^ a * 2 ^ b)%Q.
Proof. apply Qpower_plus. discriminate. Qed.

Lemma pw_le (a b : Z) : a <= b -> (2 ^ a <= 2 ^ b)%Q.
Proof. intros H. apply Qpower_le_compat_l; [exact H | discriminate]. Qed.

Lemma pw_lt (a b : Z) : a < b -> (2 ^ a < 2 ^ b)%Q.
Proof. intros H. apply Qpower_lt_compat_l; [exact H | reflexivity]. Qed.

Lemma pw_lt_inv (a b : Z) : (2 ^ a < 2 ^ b)%Q -> a < b.
Proof. intros H. apply (Qpower_lt_compat_l_inv 2); [exact H | reflexivity]. Qed.

Lemma pw_Z (z : Z) : 0 <= z -> (2 ^ z == inject_Z (2 ^ z))%Q.
Proof. intros H. symmetry. apply (Zpower_Qpower 2 z H). Qed.

Lemma pw_cancel (e : Z) : (2 ^ (- e) * 2 ^ e == 1)%Q.
Proof. rewrite <- pw_add. replace (- e + e) with 0 by lia. reflexivity. Qed.

Lemma pw_succ (e : Z) : (2 ^ (e + 1) == 2 * 2 ^ e)%Q.
Proof. rewrite pw_add. change (2 ^ 1)%Q with 2%Q. ring. Qed.

(** ** The binary exponent *)

Lemma ilog2_spec (a : Q) :
  (0 < a)%Q -> (2 ^ ilog2 a <= a)%Q /\ (a < 2 ^ (ilog2 a + 1))%Q.
Proof.
  intros Ha. destruct a as [n d]. unfold ilog2. cbn [Qnum Qden].
  assert (Hn : 0 < n) by (unfold Qlt in Ha; simpl in Ha; lia).
  set (ln := Z.log2 n). set (ld := Z.log2 (Zpos d)).
  destruct (Z.log2_spec n Hn) as [Hn1 Hn2].
  destruct (Z.log2_spec (Zpos d) ltac:(lia)) as [Hd1 Hd2].
  fold ln in Hn1, Hn2. fold ld in Hd1, Hd2.
  assert (Hln : 0 <= ln) by apply Z.log2_nonneg.
  assert (Hld : 0 <= ld) by apply Z.log2_nonneg.
  assert (Qn1 : (2 ^ ln <= inject_Z n)%Q) by (rewrite pw_Z by lia; of_inject; lia).
  assert (Qn2 : (inject_Z n < 2 ^ (ln + 1))%Q).
  { rewrite pw_Z by lia. of_inject. unfold Z.succ in Hn2. lia. }
  assert (Qd1 : (2 ^ ld <= inject_Z (Zpos d))%Q) by (rewrite pw_Z by lia; of_inject; lia).
  assert (Qd2 : (inject_Z (Zpos d) < 2 ^ (ld + 1))%Q).
  { rewrite pw_Z by lia. of_inject. unfold Z.succ in Hd2. lia. }
  assert (Ea : ((n # d) * inject_Z (Zpos d) == inject_Z n)%Q).
  { rewrite (Qmake_Qdiv n d). field. discriminate. }
  set (a := (n # d)%Q) in *. set (D := inject_Z (Zpos d)) in *.
  set (N := inject_Z n) in *.
  assert (HD : (0 < D)%Q) by (unfold D; of_inject; lia).
  pose proof (pw_pos ld) as Pld. pose proof (pw_pos (ln - ld)) as Pl.
  assert (E1 : (2 ^ (ln - ld) * 2 ^ ld == 2 ^ ln)%Q).
  { rewrite <- pw_add. replace (ln - ld + ld) with ln by lia. reflexivity. }
  assert (E2 : (2 ^ (ln - ld + 1) == 2 * 2 ^ (ln - ld))%Q) by apply pw_succ.
  assert (E3 : (2 ^ (ln + 1) == 2 * 2 ^ ln)%Q) by apply pw_succ.
  assert (E4 : (2 ^ (ld + 1) == 2 * 2 ^ ld)%Q) by apply pw_succ.
  assert (E5 : (2 ^ (ln - ld - 1 + 1) == 2 ^ (ln - ld))%Q).
  { replace (ln - ld - 1 + 1) with (ln - ld) by lia. reflexivity. }
  assert (E6 : (2 * 2 ^ (ln - ld - 1) == 2 ^ (ln - ld))%Q).
  { rewrite <- pw_succ. exact E5. }
  pose proof (pw_pos (ln - ld - 1)) as Pl1.
  destruct (Qle_bool (2 ^ (ln - ld)) a) eqn:Eb.
  - apply Qle_bool_iff in Eb. split; [exact Eb|].
    rewrite E2. rewrite E3 in Qn2.
    set (P := (2 ^ (ln - ld))%Q) in *. set (L := (2 ^ ld)%Q) in *.
    set (K := (2 ^ ln)%Q) in *. clearbody a D N P L K. nra.
  - assert (Hlt : (a < 2 ^ (ln - ld))%Q).
    { apply Qnot_le_lt. intros H. apply Qle_bool_iff in H. congruence. }
    split; [|rewrite E5; exact Hlt].
    rewrite E4 in Qd2.
    set (P := (2 ^ (ln - ld))%Q) in *. set (L := (2 ^ ld)%Q) in *.
    set (K := (2 ^ ln)%Q) in *. set (P1 := (2 ^ (ln - ld - 1))%Q) in *.
    clearbody a D N P L K P1. nra.
Qed.

Lemma ilog2_unique (a : Q) (e : Z) :
  (2 ^ e <= a)%Q -> (a < 2 ^ (e + 1))%Q -> ilog2 a = e.
Proof.
  intros H1 H2.
  assert (Ha : (0 < a)%Q) by (eapply Qlt_le_trans; [apply pw_pos | exact H1]).
  destruct (ilog2_spec a Ha) as [S1 S2].
  assert (e < ilog2 a + 1) by (apply pw_lt_inv; eapply Qle_lt_trans; eauto).
  assert (ilog2 a < e + 1) by (apply pw_lt_inv; eapply Qle_lt_trans; eauto).
  lia.
Qed.

Lemma ilog2_compat (x y : Q) : (0 < x)%Q -> (x == y)%Q -> ilog2 x = ilog2 y.
Proof.
  intros Hx E. symmetry. destruct (ilog2_spec x Hx) as [S1 S2].
  apply ilog2_unique; rewrite <- E; assumption.
Qed.

Lemma ilog2_mono (x y : Q) : (0 < x)%Q -> (x <= y)%Q -> ilog2 x <= ilog2 y.
Proof.
  intros Hx L.
  assert (Hy : (0 < y)%Q) by (eapply Qlt_le_trans; eauto).
  destruct (ilog2_spec x Hx) as [S1 _]. destruct (ilog2_spec y Hy) as [_ T2].
  assert (ilog2 x < ilog2 y + 1).
  { apply pw_lt_inv. eapply Qle_lt_trans; [exact S1|].
    eapply Qle_lt_trans; [exact L | exact T2]. }
  lia.
Qed.

(** ** Rounding a significand *)

Lemma Qlt_bool_compat (a a' b b' : Q) :
  (a == a')%Q -> (b == b')%Q -> Qlt_bool a b = Qlt_bool a' b'.
Proof.
  intros Ea Eb. apply eq_true_iff_eq. rewrite !Qlt_bool_iff, Ea, Eb. reflexivity.
Qed.

Lemma round_half_even_compat (s t : Q) :
  (s == t)%Q -> round_half_even s = round_half_even t.
Proof.
  intros E. unfold round_half_even. rewrite (Qfloor_comp s t E).
  rewrite (Qlt_bool_compat (s - inject_Z (Qfloor t)) (t - inject_Z (Qfloor t))
                           (1 # 2) (1 # 2)) by (rewrite ?E; reflexivity).
  rewrite (Qlt_bool_compat (1 # 2) (1 # 2) (s - inject_Z (Qfloor t))
                           (t - inject_Z (Qfloor t))) by (rewrite ?E; reflexivity).
  reflexivity.
Qed.

(** The three cases of the definition. *)
Lemma round_half_even_cases (s : Q) :
  let f := Qfloor s in
  let r := (s - inject_Z f)%Q in
  (0 <= r)%Q /\ (r < 1)%Q /\
  ((r < 1 # 2)%Q /\ round_half_even s = f
   \/ ((1 # 2) < r)%Q /\ round_half_even s = f + 1
   \/ (r == 1 # 2)%Q /\ Z.even f = true /\ round_half_even s = f
   \/ (r == 1 # 2)%Q /\ Z.even f = false /\ round_half_even s = f + 1).
Proof.
  intros f r.
  pose proof (Qfloor_le s) as H1. pose proof (Qlt_floor s) as H2.
  fold f in H1, H2. rewrite inject_Z_plus in H2. change (inject_Z 1) with 1%Q in H2.
  split; [unfold r; lra|]. split; [unfold r; lra|].
  unfold round_half_even. fold f. fold r.
  destruct (Qlt_bool r (1 # 2)) eqn:E1.
  - apply Qlt_bool_iff in E1. left. split; [exact E1 | reflexivity].
  - destruct (Qlt_bool (1 # 2) r) eqn:E2.
    + apply Qlt_bool_iff in E2. right; left. split; [exact E2 | reflexivity].
    + assert (Er : (r == 1 # 2)%Q).
      { apply Qle_antisym; apply Qnot_lt_le; intros H; apply Qlt_bool_iff in H; congruence. }
      destruct (Z.even f) eqn:Ev.
      * right; right; left. repeat split; assumption.
      * right; right; right. repeat split; assumption.
Qed.

Lemma round_half_even_near (s : Q) :
  (s - (1 # 2) <= inject_Z (round_half_even s))%Q /\
  (inject_Z (round_half_even s) <= s + (1 # 2))%Q.
Proof.
  destruct (round_half_even_cases s) as [H0 [H1 H]]. cbv zeta in *.
  set (f := Qfloor s) in *.
  destruct H as [[Hr ->] | [[Hr ->] | [[Hr [_ ->]] | [Hr [_ ->]]]]];
    rewrite ?inject_Z_plus; change (inject_Z 1) with 1%Q; split; lra.
Qed.

Lemma round_half_even_Z (z : Z) : round_half_even (inject_Z z) = z.
Proof.
  destruct (round_half_even_cases (inject_Z z)) as [H0 [H1 H]]. cbv zeta in *.
  rewrite Qfloor_Z in *.
  destruct H as [[Hr ->] | [[Hr ->] | [[Hr [_ ->]] | [Hr [_ ->]]]]];
    try reflexivity; lra.
Qed.

Lemma round_half_even_mono (s t : Q) :
  (s <= t)%Q -> round_half_even s <= round_half_even t.
Proof.
  intros L.
  pose proof (Qfloor_resp_le s t L) as Hf.
  destruct (round_half_even_cases s) as [S0 [S1 HS]].
  destruct (round_half_even_cases t) as [T0 [T1 HT]]. cbv zeta in *.
  destruct (Z.eq_dec (Qfloor s) (Qfloor t)) as [E|N].
  - rewrite E in *.
    destruct HS as [[Hs ->] | [[Hs ->] | [[Hs [Es ->]] | [Hs [Es ->]]]]];
      destruct HT as [[Ht ->] | [[Ht ->] | [[Ht [Et ->]] | [Ht [Et ->]]]]];
      try lia; try congruence; lra.
  - assert (Qfloor s + 1 <= Qfloor t) by lia.
    destruct HS as [[Hs ->] | [[Hs ->] | [[Hs [Es ->]] | [Hs [Es ->]]]]];
      destruct HT as [[Ht ->] | [[Ht ->] | [[Ht [Et ->]] | [Ht [Et ->]]]]];
      lia.
Qed.

(** ** Rounding a positive value *)

(** The scaled value lies in the significand's range. *)
Lemma scaled_range (a : Q) :
  (0 < a)%Q ->
  let e := ilog2 a - 52 in
  let s := (a * 2 ^ (- e))%Q in
  (s * 2 ^ e == a)%Q /\ (4503599627370496 <= s)%Q /\ (s < 9007199254740992)%Q.
Proof.
  intros Ha e s. destruct (ilog2_spec a Ha) as [S1 S2].
  pose proof (pw_cancel e) as Ec. pose proof (pw_pos e) as Pe.
  pose proof (pw_pos (- e)) as Pn.
  assert (E1 : (2 ^ ilog2 a == 4503599627370496 * 2 ^ e)%Q).
  { replace (ilog2 a) with (52 + e) at 1 by (unfold e; lia). rewrite pw_add. reflexivity. }
  assert (E2 : (2 ^ (ilog2 a + 1) == 9007199254740992 * 2 ^ e)%Q).
  { replace (ilog2 a + 1) with (53 + e) by (unfold e; lia). rewrite pw_add. reflexivity. }
  rewrite E1 in S1. rewrite E2 in S2.
  unfold s. set (P := (2 ^ e)%Q) in *. set (N := (2 ^ (- e))%Q) in *.
  clearbody P N. split; [|split].
  - rewrite <- Qmult_assoc, Ec. ring.
  - nra.
  - nra.
Qed.

Lemma significand_range (a : Q) :
  (0 < a)%Q ->
  let m := round_half_even (a * 2 ^ (- (ilog2 a - 52))) in
  2 ^ 52 <= m <= 2 ^ 53.
Proof.
  intros Ha m. destruct (scaled_range a Ha) as [_ [H1 H2]]. cbv zeta in *. split.
  - rewrite <- (round_half_even_Z (2 ^ 52)). apply round_half_even_mono. exact H1.
  - rewrite <- (round_half_even_Z (2 ^ 53)). apply round_half_even_mono.
    apply Qlt_le_weak. exact H2.
Qed.

Lemma round_positive_error (a : Q) :
  (0 < a)%Q -> (Qabs (round_positive a - a) <= a * (1 # 2 ^ 53))%Q.
Proof.
  intros Ha. destruct (scaled_range a Ha) as [E [H1 H2]]. cbv zeta in *.
  unfold round_positive. cbv zeta. set (e := ilog2 a - 52) in *. set (s := (a * 2 ^ (- e))%Q) in *.
  destruct (round_half_even_near s) as [N1 N2].
  set (m := inject_Z (round_half_even s)) in *.
  pose proof (pw_pos e) as Pe. set (P := (2 ^ e)%Q) in *.
  apply Qabs_Qle_condition.
  change (1 # 2 ^ 53)%Q with (1 # 9007199254740992)%Q.
  assert (Hup : (0 <= (s * (1 # 9007199254740992) - (m - s)) * P)%Q).
  { apply Qmult_le_0_compat; [lra | apply Qlt_le_weak, Pe]. }
  assert (Hdn : (0 <= (s * (1 # 9007199254740992) + (m - s)) * P)%Q).
  { apply Qmult_le_0_compat; [lra | apply Qlt_le_weak, Pe]. }
  rewrite <- E. clearbody m P s. split; nra.
Qed.

Lemma round_positive_range (a : Q) :
  (0 < a)%Q ->
  (2 ^ ilog2 a <= round_positive a)%Q /\ (round_positive a <= 2 ^ (ilog2 a + 1))%Q.
Proof.
  intros Ha. pose proof (significand_range a Ha) as [M1 M2]. cbv zeta in *.
  unfold round_positive. cbv zeta. set (e := ilog2 a - 52) in *.
  set (m := round_half_even (a * 2 ^ (- e))) in *.
  assert (E1 : (2 ^ ilog2 a == 4503599627370496 * 2 ^ e)%Q).
  { replace (ilog2 a) with (52 + e) at 1 by (unfold e; lia). rewrite pw_add. reflexivity. }
  assert (E2 : (2 ^ (ilog2 a + 1) == 9007199254740992 * 2 ^ e)%Q).
  { replace (ilog2 a + 1) with (53 + e) by (unfold e; lia). rewrite pw_add. reflexivity. }
  rewrite E1, E2. pose proof (pw_pos e) as Pe.
  assert (Q1 : (4503599627370496 <= inject_Z m)%Q).
  { change 4503599627370496%Q with (inject_Z (2 ^ 52)). of_inject. exact M1. }
  assert (Q2 : (inject_Z m <= 9007199254740992)%Q).
  { change 9007199254740992%Q with (inject_Z (2 ^ 53)). of_inject. exact M2. }
  set (P := (2 ^ e)%Q) in *. set (mq := inject_Z m) in *. clearbody P mq.
  split; nra.
Qed.

Lemma round_positive_pos (a : Q) : (0 < a)%Q -> (0 < round_positive a)%Q.
Proof.
  intros Ha. eapply Qlt_le_trans; [apply (pw_pos (ilog2 a)) | apply round_positive_range, Ha].
Qed.

Lemma round_positive_compat (x y : Q) : (0 < x)%Q -> (x == y)%Q -> (round_positive x == round_positive y)%Q.
Proof.
  intros Hx E. unfold round_positive. cbv zeta. rewrite <- (ilog2_compat x y Hx E).
  assert (Es : (x * 2 ^ (- (ilog2 x - 52)) == y * 2 ^ (- (ilog2 x - 52)))%Q).
  { apply Qmult_comp; [exact E | reflexivity]. }
  rewrite (round_half_even_compat _ _ Es). reflexivity.
Qed.

Lemma round_positive_mono (x y : Q) : (0 < x)%Q -> (x <= y)%Q -> (round_positive x <= round_positive y)%Q.
Proof.
  intros Hx L.
  assert (Hy : (0 < y)%Q) by (eapply Qlt_le_trans; eauto).
  pose proof (ilog2_mono x y Hx L) as Hl.
  destruct (Z.eq_dec (ilog2 x) (ilog2 y)) as [E|N].
  - unfold round_positive. cbv zeta. rewrite E. set (e := ilog2 y - 52).
    pose proof (pw_pos e) as Pe. pose proof (pw_pos (- e)) as Pn.
    assert (Hm : round_half_even (x * 2 ^ (- e)) <= round_half_even (y * 2 ^ (- e))).
    { apply round_half_even_mono. apply Qmult_le_compat_r; [exact L|].
      apply Qlt_le_weak, Pn. }
    apply Qmult_le_compat_r; [|apply Qlt_le_weak, Pe].
    of_inject. exact Hm.
  - destruct (round_positive_range x Hx) as [_ X2]. destruct (round_positive_range y Hy) as [Y1 _].
    eapply Qle_trans; [exact X2|]. eapply Qle_trans; [|exact Y1].
    apply pw_le. lia.
Qed.

Lemma round_positive_exact (M E : Z) :
  0 < M <= 2 ^ 53 -> (round_positive (inject_Z M * 2 ^ E) == inject_Z M * 2 ^ E)%Q.
Proof.
  intros HM. set (a := (inject_Z M * 2 ^ E)%Q).
  assert (Ha : (0 < a)%Q).
  { unfold a. apply Qmult_lt_0_compat; [of_inject; lia | apply pw_pos]. }
  destruct (scaled_range a Ha) as [Es [H1 H2]]. cbv zeta in *.
  unfold round_positive. cbv zeta. set (e := ilog2 a - 52) in *. set (s := (a * 2 ^ (- e))%Q) in *.
  assert (Hs : (s == inject_Z M * 2 ^ (E - e))%Q).
  { unfold s, a. rewrite <- Qmult_assoc, <- pw_add.
    replace (E + - e) with (E - e) by lia. reflexivity. }
  assert (Hint : exists z : Z, (s == inject_Z z)%Q).
  { destruct (Z_le_gt_dec 0 (E - e)) as [Hge|Hlt].
    - exists (M * 2 ^ (E - e)). rewrite Hs, inject_Z_mult, pw_Z by lia. reflexivity.
    - assert (Hd : E - e = -1 \/ E - e <= -2) by lia. destruct Hd as [Hd|Hd].
      + rewrite Hd in Hs. change (2 ^ (-1))%Q with (1 # 2)%Q in Hs.
        assert (M = 2 ^ 53).
        { assert (HQ : (9007199254740992 <= inject_Z M)%Q) by lra.
          change 9007199254740992%Q with (inject_Z (2 ^ 53)) in HQ.
          rewrite <- Zle_Qle in HQ. lia. }
        exists (2 ^ 52). rewrite Hs. subst M. reflexivity.
      + exfalso.
        assert (Hp : (2 ^ (E - e) <= 2 ^ (-2))%Q) by (apply pw_le; lia).
        change (2 ^ (-2))%Q with (1 # 4)%Q in Hp.
        assert (HQ : (inject_Z M <= 9007199254740992)%Q).
        { change 9007199254740992%Q with (inject_Z (2 ^ 53)). of_inject. lia. }
        assert (HQ0 : (0 < inject_Z M)%Q) by (of_inject; lia).
        pose proof (pw_pos (E - e)) as Pp.
        set (P := (2 ^ (E - e))%Q) in *. set (Mq := inject_Z M) in *.
        clearbody P Mq s. nra. }
  destruct Hint as [z Hz].
  rewrite (round_half_even_compat s (inject_Z z) Hz), round_half_even_Z, <- Hz.
  exact Es.
Qed.

(** ** The four properties *)

Lemma round53_zero (q : Q) : (q == 0)%Q -> (round53 q == 0)%Q.
Proof.
  intros E. unfold round53. apply Qeq_eq_bool in E. rewrite E. reflexivity.
Qed.

Lemma round53_pos (q : Q) : (0 < q)%Q -> (round53 q == round_positive q)%Q.
Proof.
  intros H. unfold round53.
  destruct (Qeq_bool q 0) eqn:E0; [apply Qeq_bool_eq in E0; lra|].
  destruct (Qlt_bool q 0) eqn:E1; [apply Qlt_bool_iff in E1; lra|].
  assert (Ea : (Qabs q == q)%Q) by (apply Qabs_pos; lra).
  apply round_positive_compat; [rewrite Ea; exact H | exact Ea].
Qed.

Lemma round53_neg (q : Q) : (q < 0)%Q -> (round53 q == - round_positive (- q))%Q.
Proof.
  intros H. unfold round53.
  destruct (Qeq_bool q 0) eqn:E0; [apply Qeq_bool_eq in E0; lra|].
  destruct (Qlt_bool q 0) eqn:E1.
  - assert (Ea : (Qabs q == - q)%Q) by (apply Qabs_neg; lra).
    apply Qopp_comp. apply round_positive_compat; [rewrite Ea; lra | exact Ea].
  - exfalso. apply Qlt_bool_iff in H. congruence.
Qed.

#[export] Instance binary64_faithful : Faithful binary64.
Proof.
  constructor; cbn [fl binary64]; intros.
  - (* compat *)
    rewrite !Qred_correct.
    destruct (Q_dec x 0) as [[Hn|Hp]|Hz].
    + rewrite (round53_neg x Hn), (round53_neg y) by (rewrite <- H; exact Hn).
      apply Qopp_comp, round_positive_compat; [lra | rewrite H; reflexivity].
    + rewrite (round53_pos x Hp), (round53_pos y) by (rewrite <- H; exact Hp).
      apply round_positive_compat; assumption.
    + rewrite (round53_zero x Hz), (round53_zero y) by (rewrite <- H; exact Hz).
      reflexivity.
  - (* monotone *)
    rewrite !Qred_correct.
    destruct (Q_dec x 0) as [[Hxn|Hxp]|Hxz]; destruct (Q_dec y 0) as [[Hyn|Hyp]|Hyz];
      try (exfalso; lra).
    + rewrite (round53_neg x Hxn), (round53_neg y Hyn).
      apply Qopp_le_compat. apply round_positive_mono; lra.
    + rewrite (round53_neg x Hxn), (round53_pos y Hyp).
      pose proof (round_positive_pos (- x) ltac:(lra)). pose proof (round_positive_pos y Hyp). lra.
    + rewrite (round53_neg x Hxn), (round53_zero y Hyz).
      pose proof (round_positive_pos (- x) ltac:(lra)). lra.
    + rewrite (round53_pos x Hxp), (round53_pos y Hyp). apply round_positive_mono; assumption.
    + rewrite (round53_zero x Hxz), (round53_pos y Hyp).
      pose proof (round_positive_pos y Hyp). lra.
    + rewrite (round53_zero x Hxz), (round53_zero y Hyz). lra.
  - (* representable *)
    rewrite Qred_correct. pose proof (pw_pos e) as Pe.
    destruct (Z.lt_trichotomy m 0) as [Hn|[Hz|Hp]].
    + assert (Hq : (inject_Z m * 2 ^ e < 0)%Q).
      { assert (inject_Z m < 0)%Q by (of_inject; lia).
        set (P := (2 ^ e)%Q) in *. set (mq := inject_Z m) in *. clearbody P mq. nra. }
      rewrite (round53_neg _ Hq).
      assert (E : (- (inject_Z m * 2 ^ e) == inject_Z (- m) * 2 ^ e)%Q).
      { rewrite inject_Z_opp. ring. }
      assert (Hq' : (0 < - (inject_Z m * 2 ^ e))%Q).
      { set (t := (inject_Z m * 2 ^ e)%Q) in *. clearbody t. lra. }
      rewrite (round_positive_compat _ _ Hq' E), round_positive_exact by lia.
      rewrite inject_Z_opp. ring.
    + subst m.
      assert (Ez : (inject_Z 0 * 2 ^ e == 0)%Q) by (change (inject_Z 0) with 0%Q; ring).
      rewrite (round53_zero _ Ez), Ez. reflexivity.
    + assert (Hq : (0 < inject_Z m * 2 ^ e)%Q).
      { apply Qmult_lt_0_compat; [of_inject; lia | exact Pe]. }
      rewrite (round53_pos _ Hq). apply round_positive_exact. lia.
  - (* error *)
    rewrite Qred_correct.
    destruct (Q_dec x 0) as [[Hn|Hp]|Hz].
    + rewrite (round53_neg x Hn), (Qabs_neg x) by lra.
      pose proof (round_positive_error (- x) ltac:(lra)) as H.
      apply Qabs_Qle_condition in H. apply Qabs_Qle_condition.
      change (1 # 2 ^ 53)%Q with (1 # 9007199254740992)%Q in *.
      set (r := round_positive (- x)) in *. clearbody r. split; lra.
    + rewrite (round53_pos x Hp), (Qabs_pos x) by lra. apply round_positive_error, Hp.
    + rewrite (round53_zero x Hz), Hz. discriminate.
Qed.


(** ** The match percentage of two array lengths *)

Section PercentageFacts.
Context {R : Rounding} {F : Faithful R}.

Lemma fl_nonneg_error (x : Q) :
  (0 <= x)%Q ->
  (x - x * (1 # 2 ^ 53) <= fl x)%Q /\ (fl x <= x + x * (1 # 2 ^ 53))%Q.
Proof.
  intros H. pose proof (fl_near x) as E. rewrite (Qabs_pos x H) in E. exact E.
Qed.

Lemma percentage_of_lengths (u m : nat) :
  Z.of_nat u < 2 ^ 32 -> Z.of_nat m < 2 ^ 32 -> (0 < u + m)%nat ->
  let n := Z.of_nat (u + m) in
  let N := 200 * Z.of_nat u + n in
  exists k : Z,
    percentage (of_nat u) (num_add (of_nat u) (of_nat m)) = of_Z k /\
    0 <= k <= 100 /\
    (m = 0%nat -> k = 100) /\
    (u = 0%nat -> k = 0) /\
    (N mod (2 * n) <> 0 -> k = N / (2 * n)) /\
    (k = N / (2 * n) \/ (N mod (2 * n) = 0 /\ k = N / (2 * n) - 1)).
Proof.
  intros Hu Hm Hpos n N.
  unfold percentage, num_add, of_nat, of_Z, num_mul.
  set (T := fl (inject_Z (Z.of_nat u) + inject_Z (Z.of_nat m))).
  assert (HT : (T == inject_Z n)%Q).
  { unfold T, n. rewrite Nat2Z.inj_add, inject_Z_plus.
    rewrite <- inject_Z_plus. apply fl_Z. lia. }
  assert (Hn : 0 < n) by (unfold n; lia).
  assert (Hnq : (0 < inject_Z n)%Q) by (of_inject; lia).
  assert (Huq : (0 <= inject_Z (Z.of_nat u))%Q) by (of_inject; lia).
  assert (Hun : (inject_Z (Z.of_nat u) <= inject_Z n)%Q) by (of_inject; unfold n; lia).
  unfold num_div.
  destruct (Qeq_bool T 0) eqn:ET.
  { apply Qeq_bool_eq in ET. rewrite HT in ET. lra. }
  set (q := (inject_Z (Z.of_nat u) / inject_Z n)%Q).
  assert (Hq0 : (0 <= q)%Q).
  { unfold q. apply Qle_shift_div_l; [exact Hnq | lra]. }
  assert (Hq1 : (q <= 1)%Q).
  { unfold q. apply Qle_shift_div_r; [exact Hnq | lra]. }
  set (r0 := fl (inject_Z (Z.of_nat u) / T)).
  assert (Hr0 : (r0 == fl q)%Q).
  { unfold r0, q. apply fl_compat. rewrite HT. reflexivity. }
  assert (Hr0lo : (0 <= r0)%Q).
  { rewrite Hr0. apply (fl_ge_Z q 0); [lia | exact Hq0]. }
  assert (Hr0hi : (r0 <= 1)%Q).
  { rewrite Hr0. apply (fl_le_Z q 1); [lia | exact Hq1]. }
  destruct (fl_nonneg_error q Hq0) as [Hqlo Hqhi]. rewrite <- Hr0 in Hqlo, Hqhi.
  set (y := fl (r0 * inject_Z 100)).
  assert (Hp0 : (0 <= r0 * inject_Z 100)%Q).
  { change (inject_Z 100) with 100%Q. lra. }
  assert (Hylo : (0 <= y)%Q).
  { apply (fl_ge_Z _ 0); [lia | exact Hp0]. }
  assert (Hyhi : (y <= 100)%Q).
  { apply (fl_le_Z _ 100); [lia |]. change (inject_Z 100) with 100%Q. lra. }
  destruct (fl_nonneg_error _ Hp0) as [Hy1 Hy2]. fold y in Hy1, Hy2.
  change (inject_Z 100) with 100%Q in Hy1, Hy2.
  exists (Qfloor (y + (1 # 2))). simpl Math_round. unfold of_Z.
  split; [reflexivity|]. split.
  { split.
    - change 0 with (Qfloor (1 # 2)). apply Qfloor_resp_le. lra.
    - change 100 with (Qfloor (100 + (1 # 2))). apply Qfloor_resp_le. lra. }
  split.
  { intros ->.
    assert (Eq1 : (q == 1)%Q).
    { unfold q, n. rewrite Nat.add_0_r. field. unfold n in Hnq.
      rewrite Nat.add_0_r in Hnq. lra. }
    assert (Er : (r0 == 1)%Q).
    { rewrite Hr0, (fl_compat _ _ Eq1). apply (fl_Z 1). lia. }
    assert (Ey : (y == 100)%Q).
    { unfold y. rewrite (fl_compat _ 100%Q).
      - apply (fl_Z 100). lia.
      - rewrite Er. reflexivity. }
    rewrite Ey. reflexivity. }
  split.
  { intros ->.
    assert (Eq0 : (q == 0)%Q) by (unfold q; simpl; field; lra).
    assert (Er : (r0 == 0)%Q).
    { rewrite Hr0, (fl_compat _ _ Eq0). apply (fl_Z 0). lia. }
    assert (Ey : (y == 0)%Q).
    { unfold y. rewrite (fl_compat _ 0%Q).
      - apply (fl_Z 0). lia.
      - rewrite Er. ring. }
    rewrite Ey. reflexivity. }
  assert (HN : (inject_Z N / inject_Z (2 * n) == 100 * q + (1 # 2))%Q).
  { unfold N, q. rewrite inject_Z_plus, !inject_Z_mult.
    change (inject_Z 200) with 200%Q. change (inject_Z 2) with 2%Q. field. lra. }
  apply (floor_near_fraction N (2 * n) (y + (1 # 2)) (200 # 2 ^ 53)).
  - lia.
  - discriminate.
  - assert (inject_Z (2 * n) < inject_Z (2 ^ 34))%Q by (of_inject; unfold n; lia).
    assert (0 < inject_Z (2 * n))%Q by (of_inject; lia).
    change (inject_Z (2 ^ 34)) with (17179869184 # 1)%Q in H.
    apply Qlt_le_trans with ((200 # 2 ^ 53) * (17179869184 # 1))%Q.
    + apply Qmult_lt_l; [reflexivity | exact H].
    + discriminate.
  - rewrite HN. apply Qabs_Qle_condition.
    assert (E : ((200 # 2 ^ 53) == 200 * (1 # 2 ^ 53))%Q) by reflexivity.
    rewrite E. set (eps := (1 # 2 ^ 53)%Q) in *.
    assert (0 < eps)%Q by reflexivity.
    split; nra.
Qed.

Lemma percentage_of_nothing :
  percentage (of_nat 0) (num_add (of_nat 0) (of_nat 0)) = NaN.
Proof.
  unfold percentage, num_add, of_nat, of_Z, num_div.
  set (T := fl (inject_Z (Z.of_nat 0) + inject_Z (Z.of_nat 0))).
  assert (E : (T == 0)%Q).
  { transitivity (fl (inject_Z 0)); [apply fl_compat; reflexivity | apply fl_Z; lia]. }
  apply Qeq_eq_bool in E. rewrite E. reflexivity.
Qed.

End PercentageFacts.

(** ** The stable sort *)

Section SortFacts.
Variable A : Type.
Variable compareFn : A -> A -> number.

Lemma sort_insert_perm (x : A) (l : list A) :
  Permutation (x :: l) (sort_insert compareFn x l).
Proof.
  induction l as [|y l IH]; simpl.
  - apply Permutation_refl.
  - destruct (sorts_after compareFn x y).
    + eapply perm_trans; [apply perm_swap|]. now apply perm_skip.
    + apply Permutation_refl.
Qed.

Lemma array_sort_perm (l : list A) : Permutation l (array_sort compareFn l).
Proof.
  induction l as [|x l IH]; simpl.
  - apply perm_nil.
  - eapply perm_trans; [apply perm_skip, IH | apply sort_insert_perm].
Qed.

Lemma array_sort_Forall (P : A -> Prop) (l : list A) :
  Forall P l -> Forall P (array_sort compareFn l).
Proof.
  intros H. eapply Permutation_Forall; [apply array_sort_perm | exact H].
Qed.

(** When the comparator orders the elements by an integer key, larger
    keys first. *)
Variable key : A -> Z.
Variable ok : A -> Prop.
Hypothesis by_key : forall x y : A,
    ok x -> ok y -> sorts_after compareFn x y = (key x <? key y).

Lemma sort_insert_sorted (x : A) (l : list A) :
  ok x -> Forall ok l ->
  StronglySorted (descending key) l -> StronglySorted (descending key) (sort_insert compareFn x l).
Proof.
  intros Hx Hl Hs. induction Hs as [|y l Hs IH Hy]; simpl.
  - constructor; constructor.
  - inversion Hl as [|? ? Hoy Hol]; subst.
    rewrite (by_key _ _ Hx Hoy). destruct (Z.ltb_spec (key x) (key y)) as [Lt|Ge].
    + constructor; [now apply IH|].
      eapply Permutation_Forall; [apply sort_insert_perm|].
      constructor; [unfold descending; lia | exact Hy].
    + constructor; [now constructor|].
      constructor; [exact Ge|].
      eapply Forall_impl; [|exact Hy]. unfold descending. intros a Ha. lia.
Qed.

Lemma array_sort_sorted (l : list A) :
  Forall ok l -> StronglySorted (descending key) (array_sort compareFn l).
Proof.
  induction l as [|x l IH]; intros H; simpl.
  - constructor.
  - inversion H; subst. apply sort_insert_sorted; auto.
    now apply array_sort_Forall.
Qed.

Lemma sort_insert_stable (k : Z) (x : A) (l : list A) :
  ok x -> Forall ok l ->
  filter (fun a => key a =? k) (sort_insert compareFn x l)
  = filter (fun a => key a =? k) (x :: l).
Proof.
  intros Hx Hl. induction Hl as [|y l Hy Hl IH]; [reflexivity|].
  simpl sort_insert. rewrite (by_key _ _ Hx Hy).
  destruct (Z.ltb_spec (key x) (key y)) as [Lt|Ge]; [|reflexivity].
  simpl. simpl in IH. rewrite IH.
  destruct (Z.eqb_spec (key x) k), (Z.eqb_spec (key y) k); try reflexivity. lia.
Qed.

Lemma array_sort_stable (k : Z) (l : list A) :
  Forall ok l ->
  filter (fun a => key a =? k) (array_sort compareFn l)
  = filter (fun a => key a =? k) l.
Proof.
  induction l as [|x l IH]; intros H; [reflexivity|].
  inversion H; subst. simpl array_sort.
  rewrite sort_insert_stable; auto using array_sort_Forall.
  simpl. now rewrite IH.
Qed.

End SortFacts.

Arguments sort_insert_perm {A} compareFn x l.
Arguments array_sort_perm {A} compareFn l.
Arguments array_sort_Forall {A} compareFn P l _.
Arguments array_sort_sorted {A} compareFn key ok by_key l _.
Arguments array_sort_stable {A} compareFn key ok by_key k l _.

(** ** Ranking recipes *)

Lemma whole_match_key (r : Recipe) (k : Z) :
  matchPercentage r = of_Z k -> match_key r = k.
Proof.
  unfold match_key, of_Z. intros ->. apply Qfloor_Z.
Qed.

Section RankingFacts.
Context {R : Rounding} {F : Faithful R}.

Lemma byMatchDescending_key (x y : Recipe) :
  whole_match x -> whole_match y ->
  sorts_after byMatchDescending x y = (match_key x <? match_key y).
Proof.
  intros [kx [Ex Hx]] [ky [Ey Hy]].
  rewrite (whole_match_key x kx Ex), (whole_match_key y ky Ey).
  unfold sorts_after, byMatchDescending. rewrite Ex, Ey. unfold of_Z. simpl.
  assert (E : (fl (inject_Z ky - inject_Z kx) == inject_Z (ky - kx))%Q).
  { rewrite <- (fl_Z (ky - kx)) by lia. apply fl_compat.
    unfold Z.sub. rewrite inject_Z_plus, inject_Z_opp. reflexivity. }
  apply eq_true_iff_eq. rewrite Qlt_bool_iff, Z.ltb_lt, E.
  change 0%Q with (inject_Z 0). rewrite <- Zlt_Qlt. lia.
Qed.

Lemma ranked_before_key (a b : Recipe) :
  whole_match a -> whole_match b ->
  descending match_key a b -> ranked_before a b.
Proof.
  intros [ka [Ea _]] [kb [Eb _]]. unfold descending, ranked_before.
  rewrite (whole_match_key a ka Ea), (whole_match_key b kb Eb), Ea, Eb.
  unfold of_Z. simpl. rewrite inject_Z_Qle_bool. apply Z.leb_le.
Qed.

Lemma same_match_key (p : Z) (r : Recipe) :
  whole_match r -> same_match p r = (match_key r =? p).
Proof.
  intros [k [E _]]. rewrite (whole_match_key r k E). unfold same_match.
  rewrite E. unfold of_Z. apply inject_Z_Qeq_bool.
Qed.

Lemma StronglySorted_ranked (l : list Recipe) :
  Forall whole_match l ->
  StronglySorted (descending match_key) l -> StronglySorted ranked_before l.
Proof.
  intros Hl Hs. induction Hs as [|a l Hs IH Ha]; [constructor|].
  inversion Hl as [|? ? Hwa Hwl]; subst.
  constructor; [now apply IH|].
  rewrite Forall_forall in *. intros b Hb.
  apply ranked_before_key; auto.
Qed.

(** Sorting whole percentages: a permutation, ranked by descending match,
    recipes of one match in their former order. *)
Lemma ranking_sorted_stable (l : list Recipe) :
  Forall whole_match l ->
  let out := array_sort byMatchDescending l in
  Permutation l out /\
  StronglySorted ranked_before out /\
  forall p : Z, filter (same_match p) out = filter (same_match p) l.
Proof.
  intros Hl out.
  assert (Hout : Forall whole_match out) by (apply array_sort_Forall; exact Hl).
  split; [apply array_sort_perm|]. split.
  - apply StronglySorted_ranked; [exact Hout|].
    apply (array_sort_sorted byMatchDescending match_key whole_match); auto.
    exact byMatchDescending_key.
  - intros p.
    rewrite (filter_ext_in (same_match p) (fun a => match_key a =? p) out).
    + rewrite (filter_ext_in (same_match p) (fun a => match_key a =? p) l).
      * apply (array_sort_stable byMatchDescending match_key whole_match); auto.
        exact byMatchDescending_key.
      * intros a Ha. apply same_match_key. rewrite Forall_forall in Hl. auto.
    + intros a Ha. apply same_match_key. rewrite Forall_forall in Hout. auto.
Qed.

End RankingFacts.

(* ================================================================= *)
(** * The inventory summary *)

Section SummaryFacts.
Import Schema Inventory.

Lemma count_item_bucket (today three : Date) (c : counters) (e : Z) :
  count_item today three c e =
  match stats_bucket today three e with
  | Expired => {| n_expired := n_expired c + 1; n_expiring := n_expiring c; n_fresh := n_fresh c |}
  | ExpiringSoon => {| n_expired := n_expired c; n_expiring := n_expiring c + 1; n_fresh := n_fresh c |}
  | Fresh => {| n_expired := n_expired c; n_expiring := n_expiring c; n_fresh := n_fresh c + 1 |}
  end.
Proof.
  unfold count_item, stats_bucket.
  destruct (date_ltb (new_Date e) today); [reflexivity|].
  destruct (date_leb (new_Date e) three); reflexivity.
Qed.

Lemma fold_count_item (today three : Date) (items : list Z) (c : counters) :
  let c' := fold_left (count_item today three) items c in
  n_expired c' = n_expired c + Z.of_nat (List.length (in_bucket today three Expired items)) /\
  n_expiring c' = n_expiring c + Z.of_nat (List.length (in_bucket today three ExpiringSoon items)) /\
  n_fresh c' = n_fresh c + Z.of_nat (List.length (in_bucket today three Fresh items)).
Proof.
  revert c. induction items as [|e items IH]; intros c; simpl.
  - repeat split; lia.
  - destruct (IH (count_item today three c e)) as [H1 [H2 H3]].
    rewrite H1, H2, H3, count_item_bucket. unfold in_bucket. simpl.
    destruct (stats_bucket today three e); simpl; repeat split; lia.
Qed.

Lemma buckets_partition (today three : Date) (items : list Z) :
  (List.length (in_bucket today three Expired items)
   + List.length (in_bucket today three ExpiringSoon items)
   + List.length (in_bucket today three Fresh items))%nat = List.length items.
Proof.
  unfold in_bucket. induction items as [|e items IH]; [reflexivity|].
  simpl. destruct (stats_bucket today three e); simpl; lia.
Qed.

End SummaryFacts.

(** The counters of the answer are the sizes of the three branches. *)
Lemma summary_counts (R : Rounding) (toISOString : Z -> string)
      (db : Schema.database) (userId : string) (now : Z) :
  let s := Inventory.stats toISOString db userId now in
  let items := Inventory.select_expiry db userId in
  let today := Time now in
  let three := addDays today 3 in
  Inventory.total s = Z.of_nat (List.length items) /\
  Inventory.expired s = Z.of_nat (List.length (in_bucket today three Expired items)) /\
  Inventory.expiring s = Z.of_nat (List.length (in_bucket today three ExpiringSoon items)) /\
  Inventory.fresh s = Z.of_nat (List.length (in_bucket today three Fresh items)).
Proof.
  intros s items today three.
  pose proof (fold_count_item today three items
                {| Inventory.n_expired := 0; Inventory.n_expiring := 0;
                   Inventory.n_fresh := 0 |}) as [H1 [H2 H3]].
  simpl in H1, H2, H3.
  split; [reflexivity|]. split; [exact H1|]. split; [exact H2 | exact H3].
Qed.

(** C1. For every set of stored ingredients, the summary's [total] is the
    number of the user's items, each of [expired], [expiring] and [fresh]
    counts the items that take the corresponding branch (so every item is
    counted in exactly one of them), and the three counts add up to
    [total]; with no item stored all four are zero. *)
Theorem C1_summary_counts_partition :
  forall (toISOString : Z -> string) (db : Schema.database) (userId : string) (now : Z),
    let s := Inventory.stats toISOString db userId now in
    let items := Inventory.select_expiry db userId in
    let today := Time now in
    let three := addDays today 3 in
    Inventory.total s = Z.of_nat (List.length items) /\
    Inventory.expired s = Z.of_nat (List.length (in_bucket today three Expired items)) /\
    Inventory.expiring s = Z.of_nat (List.length (in_bucket today three ExpiringSoon items)) /\
    Inventory.fresh s = Z.of_nat (List.length (in_bucket today three Fresh items)) /\
    Inventory.expired s + Inventory.expiring s + Inventory.fresh s = Inventory.total s /\
    (forall us nps ust,
        let empty := {| Schema.users := us; Schema.ingredients := [];
                        Schema.notification_preferences := nps;
                        Schema.usage_stats := ust |} in
        let s0 := Inventory.stats toISOString empty userId now in
        Inventory.total s0 = 0 /\ Inventory.expired s0 = 0 /\
        Inventory.expiring s0 = 0 /\ Inventory.fresh s0 = 0).
Proof.
  intros toISOString db userId now s items today three.
  destruct (summary_counts binary64 toISOString db userId now) as [E0 [E1 [E2 E3]]].
  fold s items today three in E0, E1, E2, E3.
  pose proof (buckets_partition today three items) as HP.
  repeat split; try assumption.
  rewrite E0, E1, E2, E3. lia.
Qed.

(* ================================================================= *)
(** * The recipe matcher *)

(** Rounding [100 * u / n] to the nearest integer, a tie going up, in
    integer arithmetic. *)
Lemma round_half_up_ratio (u n : Z) :
  0 < n ->
  round_half_up (100 * inject_Z u / inject_Z n) = (200 * u + n) / (2 * n).
Proof.
  intros Hn. unfold round_half_up. rewrite Zdiv_Qdiv. apply Qfloor_comp.
  rewrite inject_Z_plus, !inject_Z_mult.
  change (inject_Z 200) with 200%Q. change (inject_Z 2) with 2%Q.
  assert (0 < inject_Z n)%Q by (of_inject; lia).
  field. lra.
Qed.

(** C3, as stated, fails: with inventory at hand a candidate whose two
    lists are empty is scored NaN by both revisions of the service, not 0. *)
Lemma C3_both_empty_not_guarded :
  matchPercentage (Gemini.score true "id-1" no_ingredients) = NaN /\
  matchPercentage (GeminiV1.score "id-1" no_ingredients) = NaN /\
  matchPercentage (Gemini.score true "id-1" no_ingredients) <> of_Z 0.
Proof.
  split; [reflexivity|]. split; [reflexivity|]. discriminate.
Qed.

(** C3 (amended). In inventory-grounded mode a candidate with at least one
    ingredient gets a whole percentage between 0 and 100, which is
    [Math.round((used / total) * 100)]: 100 when nothing is missing, 0 when
    nothing is used, and [100 * used / total] rounded to the nearest
    integer, except that on an exact tie the lower neighbour may come out
    (the double-precision quotient can fall just short of the tie).  A
    candidate with both lists empty is not guarded: its score is NaN.
    Both revisions of the service score alike. *)
Theorem C3_match_percentage_inventory_mode :
  forall (id_ : string) (recipe : candidate),
    let u := List.length (c_usedIngredients recipe) in
    let m := List.length (c_missingIngredients recipe) in
    let n := Z.of_nat (u + m) in
    let nearest := round_half_up (100 * inject_Z (Z.of_nat u) / inject_Z n) in
    let mp := matchPercentage (Gemini.score true id_ recipe) in
    Z.of_nat u < 2 ^ 32 -> Z.of_nat m < 2 ^ 32 ->
    matchPercentage (GeminiV1.score id_ recipe) = mp /\
    ((0 < u + m)%nat ->
     exists k : Z,
       mp = of_Z k /\ 0 <= k <= 100 /\
       (m = 0%nat -> k = 100) /\
       (u = 0%nat -> k = 0) /\
       (~ halfway (Z.of_nat u) n -> k = nearest) /\
       (k = nearest \/ k = nearest - 1)) /\
    ((u + m = 0)%nat -> mp = NaN).
Proof.
  intros id_ recipe u m n nearest mp Hu Hm.
  split; [reflexivity|]. split.
  - intros Hpos.
    destruct (percentage_of_lengths u m Hu Hm Hpos) as [k [E [B [H100 [H0 [Hn Ht]]]]]].
    exists k. unfold nearest. rewrite round_half_up_ratio by (unfold n; lia).
    repeat split; try assumption; try lia.
    destruct Ht as [Ht|[_ Ht]]; [left|right]; exact Ht.
  - intros Hz. unfold mp, u, m in *.
    destruct (c_usedIngredients recipe) eqn:Eu; [|simpl in Hz; lia].
    destruct (c_missingIngredients recipe) eqn:Em; [|simpl in Hz; lia].
    unfold Gemini.score. cbn [matchPercentage]. rewrite Eu, Em.
    apply percentage_of_nothing.
Qed.

(** The theorem at a candidate with two used and three missing
    ingredients. *)
Lemma C3_match_percentage_witness :
  Z.of_nat 2 < 2 ^ 32 /\ Z.of_nat 3 < 2 ^ 32 /\ (0 < 2 + 3)%nat /\
  matchPercentage (Gemini.score true "id-1" (sample_candidate 2 3)) = of_Z 40.
Proof.
  split; [reflexivity|]. split; [reflexivity|]. split; [lia|].
  destruct (C3_match_percentage_inventory_mode "id-1" (sample_candidate 2 3)
              eq_refl eq_refl) as [_ [H _]].
  destruct (H ltac:(simpl; lia)) as [k [E [_ [_ [_ [Hk _]]]]]].
  rewrite E. f_equal. rewrite Hk; [reflexivity|].
  unfold halfway. simpl. discriminate.
Defined.

(** The tie of 23 used and 17 missing ingredients: [23 / 40] is just
    below 0.575 in double precision, the product just below 57.5. *)
Lemma tie_rounds_down :
  matchPercentage (Gemini.score true "id-1" (sample_candidate 23 17)) = of_Z 57 /\
  round_half_up (100 * inject_Z 23 / inject_Z 40) = 58.
Proof.
  split; vm_compute; reflexivity.
Qed.

(** ** Scoring a whole answer *)

Lemma mapi_from_Forall {A B : Type} (P : A -> Prop) (Q : B -> Prop)
      (f : nat -> A -> B) (l : list A) :
  (forall i x, P x -> Q (f i x)) ->
  forall i, Forall P l -> Forall Q (mapi_from f i l).
Proof.
  intros Hf. induction l as [|x l IH]; intros i H; simpl; [constructor|].
  inversion H; subst. constructor; auto.
Qed.

Lemma mapi_from_length {A B : Type} (f : nat -> A -> B) (l : list A) (i : nat) :
  List.length (mapi_from f i l) = List.length l.
Proof.
  revert i. induction l as [|x l IH]; intros i; simpl; [reflexivity|].
  now rewrite IH.
Qed.

Section ScoringFacts.
Context {R : Rounding} {F : Faithful R}.

Lemma score_whole (has : bool) (id_ : string) (c : candidate) :
  scorable has c -> whole_match (Gemini.score has id_ c).
Proof.
  intros H. unfold whole_match, Gemini.score. cbn [matchPercentage].
  destruct has.
  - destruct (H eq_refl) as [Hu [Hm Hpos]].
    destruct (percentage_of_lengths _ _ Hu Hm Hpos) as [k [E [B _]]].
    exists k. split; [exact E | exact B].
  - exists 0. split; [reflexivity | lia].
Qed.

Lemma scored_whole (I : Type) (uuidv4 : nat -> string)
      (ingredients : option (list I)) (parsed : list candidate) :
  Forall (scorable (Gemini.hasIngredients ingredients)) parsed ->
  Forall whole_match (Gemini.scored uuidv4 ingredients parsed).
Proof.
  intros H. unfold Gemini.scored.
  apply (mapi_from_Forall (scorable (Gemini.hasIngredients ingredients))); [|exact H].
  intros i x Hx. now apply score_whole.
Qed.

Lemma rescore_whole (inv : list Ingredient) (recipe : Recipe) :
  Z.of_nat (List.length (usedIngredients recipe)) < 2 ^ 32 ->
  0 < Z.of_nat (List.length (missingIngredients recipe)) < 2 ^ 32 ->
  whole_match (SmartPantry.rescore inv recipe).
Proof.
  intros Hu Hm. unfold whole_match, SmartPantry.rescore. cbn [matchPercentage].
  pose proof (filter_length_le (SmartPantry.in_stock inv) (usedIngredients recipe)) as Ha.
  fold (SmartPantry.available inv recipe) in Ha.
  destruct (percentage_of_lengths
              (List.length (SmartPantry.available inv recipe))
              (List.length (missingIngredients recipe))) as [k [E [B _]]];
    try lia.
  exists k. split; [exact E | exact B].
Qed.

Lemma fallback_whole (inv : list Ingredient) :
  Forall whole_match (map (SmartPantry.rescore inv) SmartPantry.allRecipes).
Proof.
  unfold SmartPantry.allRecipes. simpl map.
  repeat constructor; apply rescore_whole; simpl; lia.
Qed.

End ScoringFacts.

(** C7. In cookbook mode (the ingredient list absent or empty) every
    returned recipe has a match of 0, whatever its two lists hold, and every
    candidate is returned. *)
Theorem C7_cookbook_mode_scores_zero :
  forall (I : Type) (uuidv4 : nat -> string) (parsed : list candidate),
    let absent := Gemini.generateRecipeSuggestions uuidv4 (@None (list I)) parsed in
    let empty := Gemini.generateRecipeSuggestions uuidv4 (Some (@nil I)) parsed in
    Forall (fun r => matchPercentage r = of_Z 0) absent /\
    Forall (fun r => matchPercentage r = of_Z 0) empty /\
    List.length absent = List.length parsed /\
    List.length empty = List.length parsed.
Proof.
  intros I uuidv4 parsed absent empty.
  assert (Hs : forall ing : option (list I),
             Gemini.hasIngredients ing = false ->
             Forall (fun r => matchPercentage r = of_Z 0)
                    (Gemini.scored uuidv4 ing parsed)).
  { intros ing E. unfold Gemini.scored. rewrite E.
    apply (mapi_from_Forall (fun _ => True)).
    - intros i x _. reflexivity.
    - apply Forall_forall. intros; exact Logic.I. }
  assert (Hl : forall ing : option (list I),
             List.length (Gemini.generateRecipeSuggestions uuidv4 ing parsed)
             = List.length parsed).
  { intros ing. unfold Gemini.generateRecipeSuggestions.
    rewrite <- (Permutation_length (array_sort_perm byMatchDescending _)).
    apply mapi_from_length. }
  repeat split.
  - apply array_sort_Forall, Hs. reflexivity.
  - apply array_sort_Forall, Hs. reflexivity.
  - apply Hl.
  - apply Hl.
Qed.

(** ** Ranking *)

Section RankingScenario.
Context {R : Rounding} {F : Faithful R}.

Lemma percentage_not_halfway (u m : nat) (k : Z) :
  Z.of_nat u < 2 ^ 32 -> Z.of_nat m < 2 ^ 32 -> (0 < u + m)%nat ->
  (200 * Z.of_nat u + Z.of_nat (u + m)) mod (2 * Z.of_nat (u + m)) <> 0 ->
  (200 * Z.of_nat u + Z.of_nat (u + m)) / (2 * Z.of_nat (u + m)) = k ->
  percentage (of_nat u) (num_add (of_nat u) (of_nat m)) = of_Z k.
Proof.
  intros Hu Hm Hpos Hne Hk.
  destruct (percentage_of_lengths u m Hu Hm Hpos) as [k' [E [_ [_ [_ [Hn _]]]]]].
  rewrite E, (Hn Hne), Hk. reflexivity.
Qed.

(** Two candidates matching 40% and 80%, in that order, come back with the
    80% one first. *)
Lemma ranking_80_before_40 (I : Type) (uuidv4 : nat -> string) (item : I) :
  map matchPercentage
      (Gemini.generateRecipeSuggestions uuidv4 (Some [item])
         [sample_candidate 2 3; sample_candidate 4 1])
  = [of_Z 80; of_Z 40].
Proof.
  unfold Gemini.generateRecipeSuggestions, Gemini.scored. simpl mapi_from.
  set (a := Gemini.score true (uuidv4 0%nat) (sample_candidate 2 3)).
  set (b := Gemini.score true (uuidv4 1%nat) (sample_candidate 4 1)).
  assert (Ea : matchPercentage a = of_Z 40).
  { apply (percentage_not_halfway 2 3 40); try reflexivity; [lia | discriminate]. }
  assert (Eb : matchPercentage b = of_Z 80).
  { apply (percentage_not_halfway 4 1 80); try reflexivity; [lia | discriminate]. }
  assert (Wa : whole_match a) by (exists 40; split; [exact Ea | lia]).
  assert (Wb : whole_match b) by (exists 80; split; [exact Eb | lia]).
  cbn [array_sort sort_insert]. rewrite (byMatchDescending_key a b Wa Wb).
  rewrite (whole_match_key a 40 Ea), (whole_match_key b 80 Eb).
  change (40 <? 80) with true. cbn [map]. now rewrite Ea, Eb.
Qed.

End RankingScenario.

(** C5, as stated, fails when a score is NaN: the comparator then answers
    NaN, which counts as "equal", and a candidate matching 40% stays in
    front of one matching 80%. *)
Lemma C5_nan_score_breaks_the_ranking :
  let out := Gemini.generateRecipeSuggestions
               (fun _ => "id"%string) (Some [tt])
               [sample_candidate 2 3; no_ingredients; sample_candidate 4 1] in
  map matchPercentage out = [of_Z 40; NaN; of_Z 80] /\
  ~ StronglySorted ranked_before out.
Proof.
  split; [vm_compute; reflexivity|].
  intros H. apply StronglySorted_inv in H. destruct H as [_ H].
  apply Forall_inv_tail, Forall_inv in H.
  vm_compute in H. discriminate.
Qed.

(** C5 (amended). When every score is a number (cookbook mode, or
    candidates with at least one ingredient), the recipes returned are the
    scored candidates rearranged (a permutation), in order of descending
    match, and the recipes that share one match keep the order the
    generator gave them; the offline catalogue is ranked the same way; a
    candidate matching 80% comes before one matching 40%. *)
Theorem C5_ranking_descending_stable :
  forall (I : Type) (uuidv4 : nat -> string)
         (ingredients : option (list I)) (parsed : list candidate),
    Forall (scorable (Gemini.hasIngredients ingredients)) parsed ->
    ranking_of (Gemini.scored uuidv4 ingredients parsed)
               (Gemini.generateRecipeSuggestions uuidv4 ingredients parsed) /\
    (forall inv : list Ingredient,
        ranking_of (map (SmartPantry.rescore inv) SmartPantry.allRecipes)
                   (SmartPantry.getFallbackRecipes inv)) /\
    (forall item : I,
        map matchPercentage
            (Gemini.generateRecipeSuggestions uuidv4 (Some [item])
               [sample_candidate 2 3; sample_candidate 4 1])
        = [of_Z 80; of_Z 40]).
Proof.
  intros I uuidv4 ingredients parsed H. split; [|split].
  - apply ranking_sorted_stable, scored_whole, H.
  - intros inv. apply ranking_sorted_stable, fallback_whole.
  - intros item. apply ranking_80_before_40.
Qed.

(** The theorem at three candidates matching 50%, 80% and 50%. *)
Lemma C5_ranking_witness :
  Forall (scorable (Gemini.hasIngredients (Some [tt])))
         [sample_candidate 1 1; sample_candidate 4 1; sample_candidate 2 2] /\
  ranking_of
    (Gemini.scored (fun _ => "id"%string) (Some [tt])
       [sample_candidate 1 1; sample_candidate 4 1; sample_candidate 2 2])
    (Gemini.generateRecipeSuggestions (fun _ => "id"%string) (Some [tt])
       [sample_candidate 1 1; sample_candidate 4 1; sample_candidate 2 2]).
Proof.
  assert (H : Forall (scorable (Gemini.hasIngredients (Some [tt])))
                     [sample_candidate 1 1; sample_candidate 4 1; sample_candidate 2 2]).
  { repeat constructor; simpl; lia. }
  split; [exact H|].
  exact (proj1 (C5_ranking_descending_stable unit (fun _ => "id"%string) (Some [tt]) _ H)).
Defined.

(** ** The offline matcher *)

Lemma prefix_spec (sub s : string) :
  prefix sub s = true <-> exists post : string, s = (sub ++ post)%string.
Proof.
  revert s. induction sub as [|a sub IH]; intros s; simpl.
  - destruct s; split; eauto.
  - destruct s as [|b s]; simpl.
    + split; [discriminate | intros [post E]; discriminate].
    + destruct (ascii_dec a b) as [->|N].
      * rewrite IH. split; intros [post E]; exists post; congruence.
      * split; [discriminate | intros [post E]; congruence].
Qed.

Lemma includes_empty (sub : string) : includes EmptyString sub = prefix sub EmptyString.
Proof. destruct sub; reflexivity. Qed.

Lemma includes_String (c : ascii) (s sub : string) :
  includes (String c s) sub = prefix sub (String c s) || includes s sub.
Proof. reflexivity. Qed.

Lemma includes_spec (s sub : string) :
  includes s sub = true <-> occurs_in sub s.
Proof.
  unfold occurs_in. induction s as [|c s IH].
  - rewrite includes_empty, prefix_spec. split.
    + intros [post E]. exists EmptyString, post. exact E.
    + intros [pre [post E]]. destruct pre; [eauto | discriminate].
  - rewrite includes_String, orb_true_iff, prefix_spec, IH. split.
    + intros [[post E] | [pre [post E]]].
      * exists EmptyString, post. exact E.
      * exists (String c pre), post. simpl. now rewrite E.
    + intros [pre [post E]]. destruct pre as [|d pre].
      * left. exists post. exact E.
      * right. exists pre, post. simpl in E. congruence.
Qed.

Section LetterCase.

Lemma ascii_of_code (c d : ascii) : nat_of_ascii c = nat_of_ascii d -> c = d.
Proof.
  intros H. rewrite <- (ascii_nat_embedding c), <- (ascii_nat_embedding d).
  now rewrite H.
Qed.

Lemma code_below_256 (c : ascii) : (nat_of_ascii c < 256)%nat.
Proof. apply nat_ascii_bounded. Qed.

(** The code of the lower-case form. *)
Lemma lower_ascii_code (c : ascii) :
  nat_of_ascii (lower_ascii c)
  = if ((65 <=? nat_of_ascii c) && (nat_of_ascii c <=? 90))%nat
    then (nat_of_ascii c + 32)%nat else nat_of_ascii c.
Proof.
  unfold lower_ascii.
  destruct ((65 <=? nat_of_ascii c) && (nat_of_ascii c <=? 90))%nat eqn:E;
    [|reflexivity].
  apply andb_true_iff in E. destruct E as [E1 E2].
  apply Nat.leb_le in E1. apply Nat.leb_le in E2.
  apply nat_ascii_embedding. lia.
Qed.

Lemma capital_or_not (n : nat) :
  (((65 <=? n) && (n <=? 90))%nat = true /\ (65 <= n <= 90)%nat) \/
  (((65 <=? n) && (n <=? 90))%nat = false /\ (n < 65 \/ 90 < n)%nat).
Proof.
  destruct (65 <=? n)%nat eqn:E1; destruct (n <=? 90)%nat eqn:E2;
    rewrite ?Nat.leb_le, ?Nat.leb_gt in *; cbn [andb];
    [left | right | right | right]; (split; [reflexivity | lia]).
Qed.

Lemma lower_ascii_same (c d : ascii) :
  lower_ascii c = lower_ascii d <-> same_letter c d.
Proof.
  unfold same_letter.
  assert (H : nat_of_ascii (lower_ascii c) = nat_of_ascii (lower_ascii d)
              <-> lower_ascii c = lower_ascii d).
  { split; [apply ascii_of_code | now intros ->]. }
  rewrite <- H, !lower_ascii_code. clear H.
  assert (Hcd : c = d <-> nat_of_ascii c = nat_of_ascii d).
  { split; [now intros -> | apply ascii_of_code]. }
  rewrite Hcd.
  destruct (capital_or_not (nat_of_ascii c)) as [[Ec Hc]|[Ec Hc]];
    destruct (capital_or_not (nat_of_ascii d)) as [[Ed Hd]|[Ed Hd]];
    rewrite Ec, Ed; lia.
Qed.

Lemma toLowerCase_same (a b : string) :
  toLowerCase a = toLowerCase b <-> same_ignoring_case a b.
Proof.
  revert b. induction a as [|c a IH]; intros [|d b]; simpl;
    try (split; [discriminate | contradiction]).
  - tauto.
  - rewrite <- IH, <- lower_ascii_same. split.
    + intros H. inversion H. now split.
    + intros [-> ->]. reflexivity.
Qed.

Lemma toLowerCase_no_capitals (s : string) : no_capitals s -> toLowerCase s = s.
Proof.
  induction s as [|c s IH]; [reflexivity|]. intros [Hc Hs]. cbn [toLowerCase].
  rewrite (IH Hs). f_equal. unfold lower_ascii.
  destruct (capital_or_not (nat_of_ascii c)) as [[E H]|[E H]]; rewrite E;
    [contradiction | reflexivity].
Qed.

(** A space is no letter. *)
Lemma lower_ascii_space (c : ascii) :
  Ascii.eqb (lower_ascii c) " " = Ascii.eqb c " ".
Proof.
  destruct (Ascii.eqb c " ") eqn:E.
  - apply Ascii.eqb_eq in E. subst. reflexivity.
  - apply Ascii.eqb_neq. intros H. apply Ascii.eqb_neq in E. apply E.
    apply ascii_of_code. apply (f_equal nat_of_ascii) in H.
    rewrite lower_ascii_code in H. change (nat_of_ascii " ") with 32%nat in *.
    destruct (capital_or_not (nat_of_ascii c)) as [[Ec Hc]|[Ec Hc]];
      rewrite Ec in H; [lia | exact H].
Qed.

Lemma first_word_toLowerCase (s : string) :
  first_word (toLowerCase s) = toLowerCase (first_word s).
Proof.
  induction s as [|c s IH]; [reflexivity|].
  cbn [toLowerCase first_word]. rewrite lower_ascii_space.
  destruct (Ascii.eqb c " "); [reflexivity|]. cbn [toLowerCase]. now rewrite IH.
Qed.

Lemma toLowerCase_app (a b : string) :
  toLowerCase (a ++ b) = (toLowerCase a ++ toLowerCase b)%string.
Proof.
  induction a as [|c a IH]; simpl; [reflexivity | now rewrite IH].
Qed.

(** A lower-cased text is cut where its original is. *)
Lemma toLowerCase_cut (s a b : string) :
  toLowerCase s = (a ++ b)%string ->
  exists s1 s2 : string,
    s = (s1 ++ s2)%string /\ toLowerCase s1 = a /\ toLowerCase s2 = b.
Proof.
  revert s. induction a as [|c a IH]; intros s H.
  - exists EmptyString, s. now repeat split.
  - destruct s as [|d s]; [discriminate|]. simpl in H. inversion H as [[Hc Hs]].
    destruct (IH s Hs) as [s1 [s2 [-> [E1 E2]]]].
    exists (String d s1), s2. simpl. now rewrite E1.
Qed.

Lemma occurs_lower (w s : string) :
  occurs_in (toLowerCase w) (toLowerCase s) <-> occurs_ignoring_case w s.
Proof.
  unfold occurs_in, occurs_ignoring_case. split.
  - intros [pre [post H]].
    apply toLowerCase_cut in H. destruct H as [s1 [s' [-> [_ H]]]].
    apply toLowerCase_cut in H. destruct H as [mid [s2 [-> [H _]]]].
    exists s1, mid, s2. split; [reflexivity|]. now apply toLowerCase_same.
  - intros [pre [mid [post [-> H]]]]. apply toLowerCase_same in H.
    exists (toLowerCase pre), (toLowerCase post).
    now rewrite !toLowerCase_app, H.
Qed.

End LetterCase.

Section FirstWord.

Lemma no_space_String (c : ascii) (w : string) :
  ~ occurs_in " " (String c w) -> c <> " "%char /\ ~ occurs_in " " w.
Proof.
  intros H. split.
  - intros ->. apply H. exists EmptyString, w. reflexivity.
  - intros [pre [post E]]. apply H. exists (String c pre), post. simpl. now rewrite E.
Qed.

Lemma first_word_no_space (s : string) : ~ occurs_in " " (first_word s).
Proof.
  induction s as [|c s IH]; simpl.
  - intros [pre [post E]]. destruct pre; discriminate.
  - destruct (Ascii.eqb c " ") eqn:Ec.
    + intros [pre [post E]]. destruct pre; discriminate.
    + intros [pre [post E]]. destruct pre as [|d pre]; simpl in E.
      * inversion E. subst. now rewrite Ascii.eqb_refl in Ec.
      * inversion E. apply IH. now exists pre, post.
Qed.

Lemma first_word_rest (s : string) :
  s = first_word s \/ exists rest : string, s = (first_word s ++ " " ++ rest)%string.
Proof.
  induction s as [|c s IH]; simpl; [now left|].
  destruct (Ascii.eqb c " ") eqn:Ec.
  - apply Ascii.eqb_eq in Ec. subst. right. now exists s.
  - destruct IH as [IH | [rest IH]].
    + left. now rewrite <- IH.
    + right. exists rest.
      change (String c s = String c (first_word s ++ " " ++ rest)). now f_equal.
Qed.

Lemma first_word_of_word (w rest : string) :
  ~ occurs_in " " w ->
  first_word w = w /\ first_word (w ++ " " ++ rest) = w.
Proof.
  induction w as [|c w IH]; intros H; [now split|].
  apply no_space_String in H. destruct H as [Hc Hw].
  apply Ascii.eqb_neq in Hc. simpl. rewrite Hc.
  destruct (IH Hw) as [E1 E2]. simpl in E2. now rewrite E1, E2.
Qed.

(** The first word of the specification is what [split(' ')[0]] gives. *)
Lemma first_word_spec (s w : string) : first_word_of s w <-> w = first_word s.
Proof.
  unfold first_word_of. split.
  - intros [Hw [-> | [rest ->]]]; symmetry; now apply first_word_of_word.
  - intros ->. split; [apply first_word_no_space | apply first_word_rest].
Qed.

End FirstWord.

Section FallbackFacts.
Context {R : Rounding} {F : Faithful R}.

(** The score of a recipe that misses two ingredients and can use at most
    three. *)
Lemma rescore_static (inv : list Ingredient) (recipe : Recipe) :
  (List.length (usedIngredients recipe) <= 3)%nat ->
  List.length (missingIngredients recipe) = 2%nat ->
  let a := List.length (SmartPantry.available inv recipe) in
  matchPercentage (SmartPantry.rescore inv recipe)
  = of_Z (round_half_up (100 * inject_Z (Z.of_nat a)
                         / inject_Z (Z.of_nat (a + List.length (missingIngredients recipe))))).
Proof.
  intros Hu Hm a.
  pose proof (filter_length_le (SmartPantry.in_stock inv) (usedIngredients recipe)) as Ha.
  fold (SmartPantry.available inv recipe) in Ha. fold a in Ha.
  unfold SmartPantry.rescore. cbn [matchPercentage]. fold a. rewrite Hm.
  rewrite round_half_up_ratio by lia.
  assert (Hcases : a = 0%nat \/ a = 1%nat \/ a = 2%nat \/ a = 3%nat) by lia.
  destruct Hcases as [E|[E|[E|E]]]; rewrite E;
    apply percentage_not_halfway; try reflexivity; try lia; discriminate.
Qed.

Lemma scenario_milk_and_eggs :
  SmartPantry.available milk_and_eggs milk_cheese_recipe = ["Milk"%string] /\
  matchPercentage (SmartPantry.rescore milk_and_eggs milk_cheese_recipe) = of_Z 50.
Proof.
  assert (E : SmartPantry.available milk_and_eggs milk_cheese_recipe = ["Milk"%string])
    by reflexivity.
  split; [exact E|].
  unfold SmartPantry.rescore. cbn [matchPercentage]. rewrite E.
  apply (percentage_not_halfway 1 1 50); try reflexivity; [lia | discriminate].
Qed.

End FallbackFacts.

Section MatcherFacts.
Context {R : Rounding} {F : Faithful R}.

Lemma in_stock_spec (inv : list Ingredient) (req : string) :
  SmartPantry.in_stock inv req = true <-> first_word_in_stock inv req.
Proof.
  unfold SmartPantry.in_stock, first_word_in_stock.
  rewrite existsb_exists. split.
  - intros [item [Hin H]]. exists item, (first_word req).
    split; [exact Hin|]. split; [now apply first_word_spec|].
    apply occurs_lower. rewrite <- first_word_toLowerCase. now apply includes_spec.
  - intros [item [w [Hin [Hw H]]]]. exists item. split; [exact Hin|].
    apply first_word_spec in Hw. subst w.
    apply includes_spec. rewrite first_word_toLowerCase. now apply occurs_lower.
Qed.

Lemma rescore_with_match (inv : list Ingredient) (recipe : Recipe) :
  (List.length (usedIngredients recipe) <= 3)%nat ->
  List.length (missingIngredients recipe) = 2%nat ->
  let a := List.length (SmartPantry.available inv recipe) in
  let m := List.length (missingIngredients recipe) in
  SmartPantry.rescore inv recipe
  = with_match recipe
      (of_Z (round_half_up (100 * inject_Z (Z.of_nat a) / inject_Z (Z.of_nat (a + m))))).
Proof.
  intros Hu Hm a m.
  pose proof (rescore_static inv recipe Hu Hm) as H. cbv zeta in H.
  unfold with_match. fold a in H. fold m in H. rewrite <- H. reflexivity.
Qed.

Lemma fallback_recipes (inv : list Ingredient) (r : Recipe) :
  In r (SmartPantry.getFallbackRecipes inv) <->
  exists c : Recipe,
    In c SmartPantry.allRecipes /\
    let a := List.length (SmartPantry.available inv c) in
    let m := List.length (missingIngredients c) in
    r = with_match c
          (of_Z (round_half_up (100 * inject_Z (Z.of_nat a) / inject_Z (Z.of_nat (a + m))))).
Proof.
  unfold SmartPantry.getFallbackRecipes.
  assert (Hperm : Permutation (map (SmartPantry.rescore inv) SmartPantry.allRecipes)
                              (array_sort byMatchDescending
                                 (map (SmartPantry.rescore inv) SmartPantry.allRecipes)))
    by apply array_sort_perm.
  assert (Hall : Forall (fun c => (List.length (usedIngredients c) <= 3)%nat /\
                                  List.length (missingIngredients c) = 2%nat)
                        SmartPantry.allRecipes).
  { unfold SmartPantry.allRecipes. repeat constructor; simpl; lia. }
  rewrite Forall_forall in Hall.
  split.
  - intros H. apply (Permutation_in _ (Permutation_sym Hperm)) in H.
    apply in_map_iff in H. destruct H as [c [E Hc]]. exists c. split; [exact Hc|].
    rewrite <- E. destruct (Hall c Hc) as [Hu Hm]. now apply rescore_with_match.
  - intros [c [Hc E]]. apply (Permutation_in _ Hperm).
    apply in_map_iff. exists c. split; [|exact Hc].
    cbv zeta in E. rewrite E. destruct (Hall c Hc) as [Hu Hm].
    now apply rescore_with_match.
Qed.

End MatcherFacts.

(** C6.  For an inventory whose names are ASCII text, the offline matcher
    keeps, of a recipe's used ingredients, in their order, exactly those
    whose first word occurs case-insensitively as a substring of the name
    of some inventory item.  What it returns is the static catalogue, each
    recipe carrying the match
    [round (100 * |available| / (|available| + |missing|))].  For the
    inventory Milk, Eggs and a recipe using Milk and Cheese and missing
    Cheese, the available list is Milk alone and the score is 50. *)
Theorem C6_fallback_matcher :
  forall inv : list Ingredient,
    Forall (fun item => ascii_text (i_name item) = true) inv ->
    (forall recipe : Recipe,
        exists keep : string -> bool,
          SmartPantry.available inv recipe = filter keep (usedIngredients recipe) /\
          forall req : string,
            ascii_text req = true ->
            (keep req = true <-> first_word_in_stock inv req)) /\
    (forall r : Recipe,
        In r (SmartPantry.getFallbackRecipes inv) <->
        exists c : Recipe,
          In c SmartPantry.allRecipes /\
          let a := List.length (SmartPantry.available inv c) in
          let m := List.length (missingIngredients c) in
          r = with_match c
                (of_Z (round_half_up (100 * inject_Z (Z.of_nat a)
                                      / inject_Z (Z.of_nat (a + m)))))) /\
    List.length (SmartPantry.getFallbackRecipes inv) = List.length SmartPantry.allRecipes /\
    SmartPantry.available milk_and_eggs milk_cheese_recipe = ["Milk"%string] /\
    matchPercentage (SmartPantry.rescore milk_and_eggs milk_cheese_recipe) = of_Z 50.
Proof.
  intros inv _. split; [|split; [|split]].
  - intros recipe. exists (SmartPantry.in_stock inv). split; [reflexivity|].
    intros req _. apply in_stock_spec.
  - intros r. apply fallback_recipes.
  - unfold SmartPantry.getFallbackRecipes.
    rewrite <- (Permutation_length (array_sort_perm _ _)). apply length_map.
  - apply scenario_milk_and_eggs.
Qed.

(** The theorem at an inventory of "CHICKEN thighs" and "Baby spinach":
    of the first recipe of the catalogue, "Chicken Breast" is available
    by its first word, whatever the case, and "Spinach" by the end of a
    name. *)
Lemma C6_fallback_matcher_witness :
  Forall (fun item => ascii_text (i_name item) = true) chicken_and_spinach /\
  exists keep : string -> bool,
    SmartPantry.available chicken_and_spinach creamy_chicken_pasta
    = filter keep ["Chicken Breast"; "Spinach"; "Parmesan"]%string /\
    keep "Chicken Breast"%string = true /\ keep "Spinach"%string = true.
Proof.
  assert (H : Forall (fun item => ascii_text (i_name item) = true) chicken_and_spinach).
  { repeat constructor. }
  assert (Hword : forall w : string, first_word w = w -> ~ occurs_in " " w).
  { intros w E. rewrite <- E. apply first_word_no_space. }
  split; [exact H|].
  destruct (proj1 (C6_fallback_matcher chicken_and_spinach H) creamy_chicken_pasta)
    as [keep [E Hkeep]].
  exists keep. split; [exact E|]. split.
  - apply Hkeep; [reflexivity|].
    eexists. exists "Chicken"%string. split; [left; reflexivity|]. split.
    + split; [now apply Hword | right; now exists "Breast"%string].
    + exists ""%string, "CHICKEN"%string, " thighs"%string. split; [reflexivity|].
      cbn [same_ignoring_case]. unfold same_letter.
      repeat split; first [left; reflexivity | right; left; cbn; lia].
  - apply Hkeep; [reflexivity|].
    eexists. exists "Spinach"%string. split; [right; left; reflexivity|]. split.
    + split; [now apply Hword | now left].
    + exists "Baby "%string, "spinach"%string, ""%string. split; [reflexivity|].
      cbn [same_ignoring_case]. unfold same_letter.
      repeat split; first [left; reflexivity | right; right; cbn; lia].
Defined.

(* ================================================================= *)
(** * The savings estimates *)

Section EstimateFacts.
Context {R : Rounding} {F : Faithful R}.

Lemma remaining_exact (total_ expired_ : Z) :
  0 <= expired_ <= total_ -> total_ < 2 ^ 32 ->
  exists r : Q,
    num_sub (of_Z total_) (of_Z expired_) = Fin r /\
    (r == inject_Z (total_ - expired_))%Q.
Proof.
  intros H Ht. exists (fl (inject_Z total_ - inject_Z expired_)).
  split; [reflexivity|].
  transitivity (fl (inject_Z (total_ - expired_))).
  - apply fl_compat. unfold Z.sub. rewrite inject_Z_plus, inject_Z_opp. reflexivity.
  - apply fl_Z. lia.
Qed.

(** [Math.round(n * 3.5)]: the product is exact. *)
Lemma waste_heuristic (r : Q) (n : Z) :
  (r == inject_Z n)%Q -> 0 <= n < 2 ^ 32 ->
  Math_round (num_mul (Fin r) (literal (7 # 2)))
  = of_Z (round_half_up (inject_Z n * (7 # 2))).
Proof.
  intros Hr Hn. unfold literal, num_mul, Math_round, round_half_up. f_equal.
  apply Qfloor_comp.
  assert (E72 : (fl (7 # 2) == 7 # 2)%Q).
  { transitivity (fl (inject_Z 7 * (1 # 2))).
    - apply fl_compat. reflexivity.
    - rewrite fl_half by lia. reflexivity. }
  assert (E : (fl (r * fl (7 # 2)) == inject_Z n * (7 # 2))%Q).
  { transitivity (fl (inject_Z (7 * n) * (1 # 2))).
    - apply fl_compat. rewrite Hr, E72, inject_Z_mult.
      change (inject_Z 7) with 7%Q. field.
    - rewrite fl_half by lia. rewrite inject_Z_mult.
      change (inject_Z 7) with 7%Q. field. }
  rewrite E. reflexivity.
Qed.

(** [Math.round(n * 0.8)]: neither [0.8] nor the product is exact, but
    [4n/5] is never within rounding distance of a tie. *)
Lemma co2_heuristic (r : Q) (n : Z) :
  (r == inject_Z n)%Q -> 0 <= n < 2 ^ 32 ->
  Math_round (num_mul (Fin r) (literal (4 # 5)))
  = of_Z (round_half_up (inject_Z n * (4 # 5))).
Proof.
  intros Hr Hn. unfold literal, num_mul, Math_round, round_half_up. f_equal.
  set (c := fl (4 # 5)). set (y := fl (r * c)).
  assert (Hnq : (0 <= inject_Z n)%Q) by (of_inject; lia).
  assert (Hn32 : (inject_Z n <= 4294967296)%Q).
  { change 4294967296%Q with (inject_Z (2 ^ 32)). of_inject. lia. }
  destruct (fl_nonneg_error (4 # 5)) as [Hc1 Hc2]; [discriminate|]. fold c in Hc1, Hc2.
  assert (Hx0 : (0 <= r * c)%Q).
  { rewrite Hr. apply Qmult_le_0_compat; [exact Hnq|].
    set (eps := (1 # 2 ^ 53)%Q) in *. assert (0 < eps)%Q by reflexivity.
    assert (eps < 1)%Q by reflexivity. clearbody eps c. lra. }
  destruct (fl_nonneg_error (r * c) Hx0) as [Hy1 Hy2]. fold y in Hy1, Hy2.
  rewrite Hr in Hy1, Hy2.
  assert (HN : (inject_Z (8 * n + 5) / inject_Z 10 == inject_Z n * (4 # 5) + (1 # 2))%Q).
  { rewrite inject_Z_plus, inject_Z_mult.
    change (inject_Z 8) with 8%Q. change (inject_Z 5) with 5%Q.
    change (inject_Z 10) with 10%Q. field. }
  assert (HD : (8 * n + 5) mod 10 <> 0).
  { intros E. apply Z.mod_divide in E; [|lia]. destruct E as [z E]. lia. }
  transitivity ((8 * n + 5) / 10).
  - apply (floor_near_fraction (8 * n + 5) 10 (y + (1 # 2)) (1 # 2 ^ 19)).
    + lia.
    + discriminate.
    + reflexivity.
    + rewrite HN. apply Qabs_Qle_condition.
      set (eps := (1 # 2 ^ 53)%Q) in *.
      assert (E19 : ((1 # 2 ^ 19) == eps * 17179869184)%Q) by reflexivity.
      rewrite E19. assert (0 < eps)%Q by reflexivity.
      assert (eps < 1)%Q by reflexivity.
      assert (Hp1 : (inject_Z n * c <= inject_Z n * (4 # 5) + 4294967296 * eps)%Q)
        by (clearbody eps c y; nra).
      assert (Hp0 : (inject_Z n * (4 # 5) - 4294967296 * eps <= inject_Z n * c)%Q)
        by (clearbody eps c y; nra).
      set (p := (inject_Z n * c)%Q) in *.
      assert (Hpe : (p * eps <= 8589934592 * eps)%Q)
        by (clearbody eps c y p; nra).
      clearbody eps c y p. split; lra.
    + exact HD.
  - rewrite Zdiv_Qdiv. apply Qfloor_comp. exact HN.
Qed.

End EstimateFacts.

Lemma truthy_field_none (usage : option Schema.usage_stat)
      (field : Schema.usage_stat -> option Q) :
  no_override usage field -> Inventory.truthy_field usage field = None.
Proof.
  unfold no_override, Inventory.truthy_field.
  destruct usage as [row|]; [|reflexivity].
  destruct (field row) as [v|]; [|reflexivity].
  intros E. simpl. apply Qeq_eq_bool in E. now rewrite E.
Qed.

Lemma truthy_field_some (usage : option Schema.usage_stat)
      (field : Schema.usage_stat -> option Q) (v : Q) :
  overrides usage field v -> Inventory.truthy_field usage field = Some v.
Proof.
  intros [row [-> [Ef Hv]]]. unfold Inventory.truthy_field. rewrite Ef. simpl.
  destruct (Qeq_bool v 0) eqn:E; [|reflexivity].
  apply Qeq_bool_eq in E. contradiction.
Qed.

(** C4, as stated, fails: a usage row of the current month exists, holding
    the column defaults, and the answer shows the heuristics ($7 and 2kg),
    not the row's values. *)
Lemma C4_zero_usage_row_does_not_override :
  let s := Inventory.stats clock_2024_06_10
                            store_with_default_usage "u1" june_noon in
  (exists row,
      Inventory.select_usage store_with_default_usage "u1" "2024-06" = Some row /\
      Schema.estimated_savings row = Some 0%Q /\ Schema.co2_saved row = Some 0%Q) /\
  Inventory.wasteSaved s = Inventory.interpolated (of_Z 7) /\
  Inventory.co2Reduced s = Inventory.interpolated (of_Z 2) /\
  Inventory.wasteSaved s <> Inventory.toFixed 0 0 /\
  Inventory.co2Reduced s <> Inventory.toFixed 0 1.
Proof.
  split; [eexists; repeat split|].
  split; [vm_compute; reflexivity|].
  split; [vm_compute; reflexivity|].
  split; vm_compute; discriminate.
Qed.

(** C4 (amended). Unless overridden, [wasteSaved] is
    [round ((total - expired) * 3.5)] and [co2Reduced] is
    [round ((total - expired) * 0.8)].  A usage row of the current month
    overrides an estimate only through a value that is neither NULL nor
    zero, each of the two fields on its own; the override is shown with
    [toFixed].  The four counts never depend on the usage rows. *)
Theorem C4_savings_estimates :
  forall (toISOString : Z -> string) (db : Schema.database)
         (userId : string) (now : Z),
    let s := Inventory.stats toISOString db userId now in
    let usage := Inventory.select_usage db userId (substring 0 7 (toISOString now)) in
    let n := Inventory.total s - Inventory.expired s in
    Inventory.total s < 2 ^ 32 ->
    (no_override usage Schema.estimated_savings ->
     Inventory.wasteSaved s
     = Inventory.interpolated (of_Z (round_half_up (inject_Z n * (7 # 2))))) /\
    (forall v, overrides usage Schema.estimated_savings v ->
               Inventory.wasteSaved s = Inventory.toFixed v 0) /\
    (no_override usage Schema.co2_saved ->
     Inventory.co2Reduced s
     = Inventory.interpolated (of_Z (round_half_up (inject_Z n * (4 # 5))))) /\
    (forall v, overrides usage Schema.co2_saved v ->
               Inventory.co2Reduced s = Inventory.toFixed v 1) /\
    (forall ust : list Schema.usage_stat,
        let s' := Inventory.stats toISOString (with_usage_stats db ust) userId now in
        Inventory.total s' = Inventory.total s /\
        Inventory.expired s' = Inventory.expired s /\
        Inventory.expiring s' = Inventory.expiring s /\
        Inventory.fresh s' = Inventory.fresh s).
Proof.
  intros toISOString db userId now s usage n Ht.
  destruct (summary_counts binary64 toISOString db userId now) as [E0 [E1 _]].
  fold s in E0, E1.
  pose proof (filter_length_le
                (fun e => bucket_eqb (Inventory.stats_bucket
                                        (Time now) (addDays (Time now) 3) e) Expired)
                (Inventory.select_expiry db userId)) as Hle.
  fold (in_bucket (Time now) (addDays (Time now) 3) Expired
                  (Inventory.select_expiry db userId)) in Hle.
  assert (Hn : 0 <= n < 2 ^ 32) by (unfold n; lia).
  destruct (remaining_exact (Inventory.total s) (Inventory.expired s))
    as [r [Er Hr]]; [lia | exact Ht |]. fold n in Hr.
  assert (Hw : Inventory.wasteSaved s =
               match Inventory.truthy_field usage Schema.estimated_savings with
               | Some v => Inventory.toFixed v 0
               | None => Inventory.interpolated
                           (Math_round (num_mul (Fin r) (literal (7 # 2))))
               end).
  { unfold s, Inventory.stats. cbn [Inventory.wasteSaved].
    fold usage. change (num_sub _ _) with
      (num_sub (of_Z (Inventory.total s)) (of_Z (Inventory.expired s))).
    rewrite Er. reflexivity. }
  assert (Hc : Inventory.co2Reduced s =
               match Inventory.truthy_field usage Schema.co2_saved with
               | Some v => Inventory.toFixed v 1
               | None => Inventory.interpolated
                           (Math_round (num_mul (Fin r) (literal (4 # 5))))
               end).
  { unfold s, Inventory.stats. cbn [Inventory.co2Reduced].
    fold usage. change (num_sub _ _) with
      (num_sub (of_Z (Inventory.total s)) (of_Z (Inventory.expired s))).
    rewrite Er. reflexivity. }
  repeat split.
  - intros H. rewrite Hw, (truthy_field_none _ _ H), (waste_heuristic r n Hr Hn).
    reflexivity.
  - intros v H. rewrite Hw, (truthy_field_some _ _ v H). reflexivity.
  - intros H. rewrite Hc, (truthy_field_none _ _ H), (co2_heuristic r n Hr Hn).
    reflexivity.
  - intros v H. rewrite Hc, (truthy_field_some _ _ v H). reflexivity.
Qed.

(** The theorem at the store whose usage row holds zeros. *)
Lemma C4_savings_estimates_witness :
  Inventory.total (Inventory.stats clock_2024_06_10
                                   store_with_default_usage "u1" june_noon) < 2 ^ 32 /\
  no_override (Inventory.select_usage store_with_default_usage "u1"
                                      (substring 0 7 (clock_2024_06_10 june_noon)))
              Schema.estimated_savings /\
  Inventory.wasteSaved (Inventory.stats clock_2024_06_10
                                        store_with_default_usage "u1" june_noon)
  = Inventory.interpolated (of_Z 7).
Proof.
  split; [reflexivity|]. split; [simpl; reflexivity|].
  apply (proj1 (C4_savings_estimates clock_2024_06_10
                  store_with_default_usage "u1" june_noon eq_refl)).
  simpl. reflexivity.
Defined.

(* ================================================================= *)
(** * The freshness classifier *)

Lemma day_split (now day : Z) :
  let k := day - isoDay now in
  let tod := now mod msPerDay in
  day * msPerDay - now = k * msPerDay - tod /\ 0 <= tod < msPerDay.
Proof.
  intros k tod. unfold k, tod, isoDay. change msPerDay with 86400000.
  pose proof (Z.div_mod now 86400000 ltac:(lia)) as E.
  pose proof (Z.mod_pos_bound now 86400000 ltac:(lia)) as B.
  lia.
Qed.

(** The route compares instants: an item dated today is expired as soon
    as the day has begun. *)
Lemma stats_bucket_calendar (now day : Z) :
  let k := day - isoDay now in
  Inventory.stats_bucket (Time now) (addDays (Time now) 3) day
  = if (k <? 0) || ((k =? 0) && (0 <? now mod msPerDay)) then Expired
    else bucket_of_days k.
Proof.
  intros k. destruct (day_split now day) as [E B]. fold k in E.
  unfold Inventory.stats_bucket, new_Date, addDays, date_ltb, date_leb, bucket_of_days.
  change msPerDay with 86400000 in *. change (3 * 86400000) with 259200000.
  destruct (Z.ltb_spec (day * 86400000) now);
    destruct (Z.leb_spec (day * 86400000) (now + 259200000));
    destruct (Z.ltb_spec k 0); destruct (Z.eqb_spec k 0);
    destruct (Z.ltb_spec 0 (now mod 86400000)); destruct (Z.leb_spec k 3);
    simpl; try reflexivity; lia.
Qed.

Section ClassifierFacts.
Context {R : Rounding} {F : Faithful R}.

(** The dashboard counts calendar days: [days] is the difference of the
    two UTC dates, whatever the time of day. *)
Lemma getExpiryStatus_calendar (now day : Z) :
  let k := day - isoDay now in
  Z.abs k <= 10 ^ 8 ->
  SmartPantry.days (SmartPantry.getExpiryStatus now day) = of_Z k /\
  SmartPantry.status (SmartPantry.getExpiryStatus now day) = bucket_of_days k.
Proof.
  intros k Hk. destruct (day_split now day) as [E B]. fold k in E.
  set (tod := now mod msPerDay) in *.
  unfold SmartPantry.getExpiryStatus, new_Date, getTime, num_sub, of_Z.
  set (d := fl (inject_Z (day * msPerDay) - inject_Z now)).
  assert (Hd : (d == inject_Z (k * msPerDay - tod))%Q).
  { unfold d. rewrite <- E.
    transitivity (fl (inject_Z (day * msPerDay - now))).
    - apply fl_compat. unfold Z.sub. rewrite inject_Z_plus, inject_Z_opp. reflexivity.
    - apply fl_Z. rewrite E. change msPerDay with 86400000 in *. lia. }
  unfold num_div.
  assert (Hms : Qeq_bool (inject_Z msPerDay) 0 = false) by reflexivity.
  rewrite Hms.
  set (q := fl (d / inject_Z msPerDay)).
  assert (Hq : Qceiling q = k).
  { set (x := (inject_Z (k * msPerDay - tod) / inject_Z msPerDay)%Q).
    assert (Eq : (q == fl x)%Q).
    { unfold q, x. apply fl_compat. rewrite Hd. reflexivity. }
    assert (Hx : (x * 86400000 == inject_Z k * 86400000 - inject_Z tod)%Q).
    { unfold x. change msPerDay with 86400000. unfold Z.sub.
      rewrite inject_Z_plus, inject_Z_opp, inject_Z_mult.
      change (inject_Z 86400000) with 86400000%Q. field. }
    assert (Ht0 : (0 <= inject_Z tod)%Q) by (of_inject; lia).
    assert (Ht1 : (inject_Z tod <= 86399999)%Q).
    { change 86399999%Q with (inject_Z 86399999). of_inject.
      change msPerDay with 86400000 in B. lia. }
    assert (Hk1 : (inject_Z k <= 100000000)%Q).
    { change 100000000%Q with (inject_Z (10 ^ 8)). of_inject. lia. }
    assert (Hk0 : (- (100000000) <= inject_Z k)%Q).
    { change (- (100000000))%Q with (inject_Z (- 10 ^ 8)). of_inject. lia. }
    assert (Hxk : (x <= inject_Z k)%Q) by nra.
    assert (Hax : (Qabs x <= 100000001)%Q).
    { apply Qabs_Qle_condition. split; nra. }
    destruct (fl_near x) as [Hlo _].
    apply Qceiling_unique.
    - rewrite Eq. unfold Z.sub. rewrite inject_Z_plus. change (inject_Z (Z.opp 1)) with (-1)%Q.
      set (eps := (1 # 2 ^ 53)%Q) in *.
      assert (He : (100000001 * eps * 86400000 < 1)%Q) by reflexivity.
      assert (0 < eps)%Q by reflexivity.
      assert (Hae : (Qabs x * eps <= 100000001 * eps)%Q).
      { apply Qmult_le_compat_r; [exact Hax | discriminate]. }
      set (ae := (Qabs x * eps)%Q) in *. set (fx := fl x) in *.
      clearbody ae fx eps x. lra.
    - rewrite Eq. apply fl_le_Z; [lia | exact Hxk]. }
  unfold Math_ceil. rewrite Hq. unfold of_Z, num_ltb, num_leb.
  rewrite inject_Z_Qlt_bool, inject_Z_Qle_bool. unfold bucket_of_days.
  destruct (k <? 0); [split; reflexivity|].
  destruct (k <=? 3); split; reflexivity.
Qed.

End ClassifierFacts.

(** C2 at its failing input: at noon UTC of 2024-06-10 an item dated
    2024-06-10 has zero days left and is "expiring" for the dashboard's
    classifier, while the statistics route puts it among the expired. *)
Theorem C2_stats_route_expires_item_of_today :
  let now := june_noon in
  let s := Inventory.stats clock_2024_06_10
                            store_with_item_of_today "u1" now in
  isoDay now = 19884 /\
  SmartPantry.days (SmartPantry.getExpiryStatus now 19884) = of_Z 0 /\
  SmartPantry.status (SmartPantry.getExpiryStatus now 19884) = ExpiringSoon /\
  Inventory.stats_bucket (Time now) (addDays (Time now) 3) 19884 = Expired /\
  Inventory.expired s = 1 /\ Inventory.expiring s = 0.
Proof.
  repeat split; vm_compute; reflexivity.
Qed.

(* ================================================================= *)
(** * The notification trigger *)

Section ClockFacts.

Lemma timeClip_valid (ms : Z) :
  Z.abs ms <= Clock.maxTime -> Clock.timeClip ms = Time ms.
Proof. unfold Clock.timeClip. intros H. apply Z.leb_le in H. now rewrite H. Qed.

Lemma timeClip_invalid (ms : Z) :
  Clock.maxTime < Z.abs ms -> Clock.timeClip ms = InvalidDate.
Proof. unfold Clock.timeClip. intros H. apply Z.leb_gt in H. now rewrite H. Qed.

(** [setDate] reaches the instant of the specification. *)
Lemma daysAhead_days_on (tz : Clock.TimeZone) (now n : Z) :
  Clock.daysAhead tz now n = days_on tz now n.
Proof.
  unfold days_on, clock_change, Clock.daysAhead, Clock.UTC, Clock.LocalTime. ring.
Qed.

Lemma days_on_steady (tz : Clock.TimeZone) (now n : Z) :
  steady tz now n -> days_on tz now n = now + n * msPerDay.
Proof. unfold steady, days_on. intros ->. ring. Qed.

Lemma steady_fixed (offset now n : Z) : steady (Clock.fixed_zone offset) now n.
Proof. unfold steady, clock_change. cbn. ring. Qed.

Lemma daysAhead_utc (now n : Z) : Clock.daysAhead Clock.utc now n = now + n * msPerDay.
Proof. rewrite daysAhead_days_on. apply days_on_steady, steady_fixed. Qed.

(** In UTC, and while the date is valid, [Clock.setDate] is [addDays]. *)
Lemma setDate_utc (now n : Z) :
  Z.abs (now + n * msPerDay) <= Clock.maxTime ->
  Clock.setDate Clock.utc (Time now) n = addDays (Time now) n.
Proof.
  intros H. cbn [Clock.setDate addDays]. rewrite daysAhead_utc.
  now apply timeClip_valid.
Qed.

(** With the clocks unchanged the date is [n] days on. *)
Lemma steady_day (tz : Clock.TimeZone) (now n : Z) :
  steady tz now n -> isoDay (days_on tz now n) = isoDay now + n.
Proof.
  intros H. rewrite (days_on_steady _ _ _ H). unfold isoDay.
  apply Z.div_add. discriminate.
Qed.

(** A change of the clocks by a day at most moves the date by a day at
    most. *)
Lemma changed_day (tz : Clock.TimeZone) (now n : Z) :
  Z.abs (clock_change tz now n) <= msPerDay ->
  isoDay now + n - 1 <= isoDay (days_on tz now n) <= isoDay now + n + 1.
Proof.
  intros H. unfold days_on, isoDay.
  set (c := clock_change tz now n) in *. clearbody c.
  change msPerDay with 86400000 in *.
  replace (now / 86400000 + n - 1) with ((now + (n - 1) * 86400000) / 86400000)
    by (rewrite Z.div_add by discriminate; lia).
  replace (now / 86400000 + n + 1) with ((now + (n + 1) * 86400000) / 86400000)
    by (rewrite Z.div_add by discriminate; lia).
  split; apply Z.div_le_mono; lia.
Qed.

End ClockFacts.

Section TriggerFacts.
Import Schema Notifications.

Lemma order_insert_perm (r : ingredient) (l : list ingredient) :
  Permutation (r :: l) (order_insert r l).
Proof.
  induction l as [|r' l IH]; simpl.
  - apply Permutation_refl.
  - destruct (expiry_date r' <? expiry_date r).
    + eapply perm_trans; [apply perm_swap|]. now apply perm_skip.
    + apply Permutation_refl.
Qed.

Lemma order_by_expiry_perm (l : list ingredient) :
  Permutation l (order_by_expiry l).
Proof.
  induction l as [|r l IH]; simpl.
  - apply perm_nil.
  - eapply perm_trans; [apply perm_skip, IH | apply order_insert_perm].
Qed.

Lemma isoDay_addDays (now d : Z) : isoDay (now + d * msPerDay) = isoDay now + d.
Proof.
  unfold isoDay. apply Z.div_add. discriminate.
Qed.

(** The items selected for a user: the user's items dated from today to
    the UTC date of the instant [daysBefore] days on by the local clock,
    while that date has a four-digit year. *)
Lemma expiringItems_in_spec (tz : Clock.TimeZone) (db : database) (now : Z)
      (row : joined) (items : list ingredient) (r : ingredient) :
  expiringItems_in tz db now row = Some items ->
  InventoryRoutes.fourDigitYear (isoDay (days_on tz now (daysBefore row))) = true ->
  In r items <->
  In r (ingredients db) /\ user_id r = j_id row /\
  isoDay now <= expiry_date r <= isoDay (days_on tz now (daysBefore row)).
Proof.
  unfold expiringItems_in. cbn [Clock.setDate]. rewrite daysAhead_days_on.
  unfold Clock.timeClip. destruct (Z.abs _ <=? Clock.maxTime); [|discriminate].
  intros E Hyear. injection E as <-. rewrite Hyear.
  split.
  - intros H. apply (Permutation_in _ (Permutation_sym (order_by_expiry_perm _))) in H.
    apply filter_In in H. destruct H as [Hin Hb].
    apply andb_true_iff in Hb. destruct Hb as [Hb H3].
    apply andb_true_iff in Hb. destruct Hb as [H1 H2].
    apply String.eqb_eq in H1. apply Z.leb_le in H2. apply Z.geb_le in H3.
    repeat split; [exact Hin | exact H1 | lia | lia].
  - intros [Hin [Hu [H0 H1]]].
    apply (Permutation_in _ (order_by_expiry_perm _)).
    apply filter_In. split; [exact Hin|].
    rewrite !andb_true_iff. repeat split.
    + now apply String.eqb_eq.
    + apply Z.leb_le. lia.
    + apply Z.geb_le. lia.
Qed.

(** A date with a sign selects nothing. *)
Lemma expiringItems_in_beyond_four_digits (tz : Clock.TimeZone) (db : database)
      (now : Z) (row : joined) (items : list ingredient) :
  expiringItems_in tz db now row = Some items ->
  InventoryRoutes.fourDigitYear (isoDay (days_on tz now (daysBefore row))) = false ->
  items = [].
Proof.
  unfold expiringItems_in. cbn [Clock.setDate]. rewrite daysAhead_days_on.
  unfold Clock.timeClip. destruct (Z.abs _ <=? Clock.maxTime); [|discriminate].
  intros E Hyear. injection E as <-. rewrite Hyear.
  induction (ingredients db) as [|r l IH]; [reflexivity|].
  cbn [filter]. now rewrite andb_false_r.
Qed.

(** The query throws exactly when the date is out of range. *)
Lemma expiringItems_in_throws (tz : Clock.TimeZone) (db : database) (now : Z)
      (row : joined) :
  expiringItems_in tz db now row = None <->
  Clock.maxTime < Z.abs (days_on tz now (daysBefore row)).
Proof.
  unfold expiringItems_in. cbn [Clock.setDate]. rewrite daysAhead_days_on.
  unfold Clock.timeClip. destruct (Z.abs _ <=? Clock.maxTime) eqn:E.
  - apply Z.leb_le in E. split; [discriminate | lia].
  - apply Z.leb_gt in E. split; [intros _; exact E | reflexivity].
Qed.

(** In UTC, for a valid date with a four-digit year: the user's items that
    expire today or within [daysBefore] days, counted in calendar days. *)
Lemma expiringItems_spec (db : database) (now : Z) (row : joined) (r : ingredient) :
  Z.abs (now + daysBefore row * msPerDay) <= Clock.maxTime ->
  InventoryRoutes.fourDigitYear (isoDay now + daysBefore row) = true ->
  In r (expiringItems db now row) <->
  In r (ingredients db) /\ user_id r = j_id row /\
  0 <= expiry_date r - isoDay now <= daysBefore row.
Proof.
  intros Hvalid Hyear.
  assert (Hday : isoDay (days_on Clock.utc now (daysBefore row))
                 = isoDay now + daysBefore row).
  { apply steady_day, steady_fixed. }
  unfold expiringItems.
  destruct (expiringItems_in Clock.utc db now row) as [items|] eqn:E.
  - rewrite (expiringItems_in_spec _ _ _ _ _ r E) by now rewrite Hday.
    rewrite Hday. intuition lia.
  - apply expiringItems_in_throws in E.
    assert (Eon : days_on Clock.utc now (daysBefore row)
                  = now + daysBefore row * msPerDay)
      by apply days_on_steady, steady_fixed.
    rewrite Eon in E. lia.
Qed.

(** Who is notified, and with what: a call is made only for a row of the
    join that wants notifications and has items selected. *)
Lemma notified_row (tz : Clock.TimeZone) (db : database) (now : Z)
      (uid : string) (p : NotificationPayload) :
  In (uid, p) (sendExpiryNotifications_in tz db now) ->
  exists (row : joined) (items : list ingredient),
    In row (left_join db) /\ wants_notifications row = true /\
    j_id row = uid /\
    expiringItems_in tz db now row = Some items /\ items <> [] /\
    p = payload row items.
Proof.
  unfold sendExpiryNotifications_in.
  assert (H : forall rows,
             In (uid, p) (notify tz db now rows) ->
             exists row items,
               In row rows /\ j_id row = uid /\
               expiringItems_in tz db now row = Some items /\ items <> [] /\
               p = payload row items).
  { induction rows as [|row rest IH]; cbn [notify]; [intros []|].
    destruct (expiringItems_in tz db now row) as [items|] eqn:E; [|intros []].
    intros Hin. apply in_app_or in Hin. destruct Hin as [Hin|Hin].
    - destruct items as [|r items]; [destruct Hin|].
      destruct Hin as [Hin|[]]. inversion Hin; subst.
      exists row, (r :: items). repeat split; auto. now left. discriminate.
    - destruct (IH Hin) as [row' [items' [Hrow' H']]].
      exists row', items'. split; [now right | exact H']. }
  intros Hin. destruct (H _ Hin) as [row [items [Hrow [Hid [E [Hne Hp]]]]]].
  apply filter_In in Hrow. destruct Hrow as [Hj Hw].
  exists row, items. repeat split; assumption.
Qed.

(** While no date is out of range, every such row is served. *)
Lemma sendExpiryNotifications_spec (tz : Clock.TimeZone) (db : database) (now : Z)
      (uid : string) (p : NotificationPayload) :
  (forall row, In row (left_join db) -> wants_notifications row = true ->
               expiringItems_in tz db now row <> None) ->
  In (uid, p) (sendExpiryNotifications_in tz db now) <->
  exists (row : joined) (items : list ingredient),
    In row (left_join db) /\ wants_notifications row = true /\
    j_id row = uid /\
    expiringItems_in tz db now row = Some items /\ items <> [] /\
    p = payload row items.
Proof.
  intros Hvalid. split; [apply notified_row|].
  intros [row [items [Hj [Hw [Hid [E [Hne Hp]]]]]]].
  unfold sendExpiryNotifications_in.
  assert (Hrow : In row (filter wants_notifications (left_join db)))
    by (apply filter_In; now split).
  assert (Hall : forall row', In row' (filter wants_notifications (left_join db)) ->
                              expiringItems_in tz db now row' <> None).
  { intros row' H'. apply filter_In in H'. now apply Hvalid. }
  revert Hrow Hall. generalize (filter wants_notifications (left_join db)).
  induction l as [|row' rest IH]; [intros []|].
  intros Hin Hall. cbn [notify].
  destruct (expiringItems_in tz db now row') as [items'|] eqn:E'.
  - apply in_or_app. destruct Hin as [->|Hin].
    + left. rewrite E in E'. injection E' as <-.
      destruct items as [|r items]; [contradiction|].
      left. now rewrite Hid, Hp.
    + right. apply IH; [exact Hin|]. intros row'' H''. apply Hall. now right.
  - exfalso. apply (Hall row'); [now left | exact E'].
Qed.

(** The rows of the join: one per user without preferences, holding
    NULLs, and one per preference row of a user. *)
Lemma left_join_spec (db : database) (row : joined) :
  In row (left_join db) <->
  exists u : user,
    In u (users db) /\ j_id row = u_id u /\ j_name row = u_name u /\
    ((forall np, In np (notification_preferences db) -> np_user_id np <> u_id u) /\
     j_expiry_days_before row = None /\ j_enabled row = None
     \/
     exists np, In np (notification_preferences db) /\ np_user_id np = u_id u /\
                j_expiry_days_before row = expiry_days_before np /\
                j_enabled row = enabled np).
Proof.
  unfold left_join. rewrite in_flat_map. split.
  - intros [u [Hu Hin]]. exists u. split; [exact Hu|].
    destruct (filter (fun np => String.eqb (u_id u) (np_user_id np))
                     (notification_preferences db)) as [|np nps] eqn:E.
    + destruct Hin as [Hin|[]]. subst row. simpl. repeat split. left.
      repeat split. intros np Hnp Heq.
      assert (Hf : In np (filter (fun np => String.eqb (u_id u) (np_user_id np))
                                 (notification_preferences db))).
      { apply filter_In. split; [exact Hnp|]. apply String.eqb_eq. now symmetry. }
      rewrite E in Hf. contradiction.
    + apply in_map_iff in Hin. destruct Hin as [np' [Hrow Hnp']].
      subst row. simpl. repeat split. right. exists np'.
      rewrite <- E in Hnp'. apply filter_In in Hnp'. destruct Hnp' as [Hnp' Heq].
      apply String.eqb_eq in Heq. repeat split; auto.
  - intros [u [Hu [Hid [Hname H]]]]. exists u. split; [exact Hu|].
    destruct row as [jid jname jdays jen]. simpl in *. subst jid jname.
    destruct H as [[Hno [Hd He]] | [np [Hnp [Heq [Hd He]]]]].
    + subst.
      destruct (filter (fun np => String.eqb (u_id u) (np_user_id np))
                       (notification_preferences db)) as [|np nps] eqn:E.
      * left. reflexivity.
      * assert (Hf : In np (filter (fun np => String.eqb (u_id u) (np_user_id np))
                                   (notification_preferences db)))
          by (rewrite E; left; reflexivity).
        apply filter_In in Hf. destruct Hf as [Hf Heq].
        apply String.eqb_eq in Heq. exfalso. apply (Hno np Hf). now symmetry.
    + assert (Hf : In np (filter (fun np => String.eqb (u_id u) (np_user_id np))
                                 (notification_preferences db))).
      { apply filter_In. split; [exact Hnp|]. apply String.eqb_eq. now symmetry. }
      destruct (filter (fun np => String.eqb (u_id u) (np_user_id np))
                       (notification_preferences db)) as [|np0 nps] eqn:E;
        [contradiction|].
      subst jdays jen.
      exact (in_map (fun np => {| j_id := u_id u; j_name := u_name u;
                                  j_expiry_days_before := expiry_days_before np;
                                  j_enabled := enabled np |}) _ _ Hf).
Qed.

End TriggerFacts.

(** C8 at its failing input: the stored window of 0 days is read as 3, so
    the user is notified about an item that is two days away. *)
Theorem C8_zero_days_before_is_read_as_three :
  SmartPantry.days (SmartPantry.getExpiryStatus june_noon 19886) = of_Z 2 /\
  Notifications.sendExpiryNotifications store_zero_days_before june_noon
  = [("u1"%string,
      {| Notifications.n_title := "Items Expiring Soon!";
         Notifications.n_body := "Milk will expire within 3 days. Check your pantry!";
         Notifications.n_tag := "expiry-reminder";
         Notifications.n_url := "/pantry";
         Notifications.n_itemCount := 1 |})].
Proof.
  split; vm_compute; reflexivity.
Qed.

(* ================================================================= *)
(** * Writes to the inventory *)

Section WriteFacts.
Import Schema Inventory.

Lemma insert_ingredient_bad_category (now : Z) (accounts : list user)
      (tbl : list ingredient) (id_ userId : string) (item : item_body) :
  bad_category item -> insert_ingredient now accounts tbl id_ userId item = None.
Proof.
  intros [c [Ec Hc]]. unfold insert_ingredient. rewrite Ec.
  destruct (b_name item), (b_quantity item), (b_expiryDate item), (b_confidence item);
    try reflexivity.
  rewrite Hc. simpl. now destruct (existsb _ tbl).
Qed.


Lemma insert_loop_bad_category (uuidv4 : nat -> string) (now : Z)
      (accounts : list user) (userId : string) (items : list item_body) :
  Exists bad_category items ->
  forall (n : nat) (tbl : list ingredient),
    insert_loop uuidv4 n now accounts userId tbl items = None.
Proof.
  induction 1 as [item items Hbad | item items Hex IH]; intros n tbl; simpl;
    destruct (id_or_fresh uuidv4 n item) as [id_ n'].
  - now rewrite insert_ingredient_bad_category.
  - destruct (insert_ingredient now accounts tbl id_ userId item);
      [apply IH | reflexivity].
Qed.


End WriteFacts.


(** A batch of good records of a registered user is stored whole. *)
Lemma bulk_import_of_good_records :
  let r := Inventory.bulk (fun _ => "fresh-id"%string) june_noon store_with_ann "u1"
                          (Some [good_item "x1" "Milk"; good_item "" "Eggs"]) in
  snd r = Inventory.Json 201 2%nat /\
  map Schema.id (Schema.ingredients (fst r)) = ["x1"; "fresh-id"]%string /\
  map Schema.name (Schema.ingredients (fst r)) = ["Milk"; "Eggs"]%string.
Proof. repeat split. Qed.



(** ** Updating one item *)

Section UpdateFacts.
Import Schema Inventory.

Lemma owned_false (id_ userId : string) (r : ingredient) :
  id r <> id_ \/ user_id r <> userId -> owned id_ userId r = false.
Proof.
  unfold owned. intros [H|H]; apply String.eqb_neq in H; rewrite H.
  - reflexivity.
  - apply andb_false_r.
Qed.

Lemma preserved_refl (id_ userId : string) (body : item_body) (r : ingredient) :
  preserved id_ userId body r r.
Proof. unfold preserved. repeat split; reflexivity. Qed.

Lemma preserved_update (now : Z) (id_ userId : string) (body : item_body)
      (r : ingredient) :
  preserved id_ userId body r
            (if owned id_ userId r then update_row now body r else r).
Proof.
  destruct (owned id_ userId r) eqn:E; [|apply preserved_refl].
  unfold preserved, update_row. cbn.
  split.
  { intros H. apply owned_false in H. congruence. }
  repeat split; intros ->; reflexivity.
Qed.

Lemma find_owned_none (id_ userId : string) (tbl : list ingredient) :
  (forall r, In r tbl -> ~ (id r = id_ /\ user_id r = userId)) ->
  find (owned id_ userId) tbl = None.
Proof.
  intros H. destruct (find (owned id_ userId) tbl) as [r|] eqn:E; [|reflexivity].
  apply find_some in E. destruct E as [Hin Ho]. unfold owned in Ho.
  apply andb_true_iff in Ho. destruct Ho as [H1 H2].
  apply String.eqb_eq in H1. apply String.eqb_eq in H2.
  exfalso. apply (H r Hin). split; assumption.
Qed.

Lemma Forall2_map_same {A : Type} (P : A -> A -> Prop) (f : A -> A) (l : list A) :
  (forall x, P x (f x)) -> Forall2 P l (map f l).
Proof.
  intros H. induction l; simpl; constructor; auto.
Qed.

End UpdateFacts.

(** C10. An update leaves every column the request omits as it was, leaves
    every row of another id or owner as it was, and leaves the other
    tables alone; when no item of that id belongs to the requester the
    answer is 404 and the store is unchanged, as it is after any failure. *)
Theorem C10_update_frame :
  forall (now : Z) (db : Schema.database) (userId id_ : string)
         (body : Inventory.item_body),
    let r := Inventory.put now db userId id_ body in
    Forall2 (preserved id_ userId body)
            (Schema.ingredients db) (Schema.ingredients (fst r)) /\
    Schema.users (fst r) = Schema.users db /\
    Schema.notification_preferences (fst r) = Schema.notification_preferences db /\
    Schema.usage_stats (fst r) = Schema.usage_stats db /\
    (forall status error, snd r = Inventory.Failure status error -> fst r = db) /\
    ((forall row, In row (Schema.ingredients db) ->
                  ~ (Schema.id row = id_ /\ Schema.user_id row = userId)) ->
     r = (db, Inventory.Failure 404 "Item not found")).
Proof.
  intros now db userId id_ body r.
  assert (Hsame : Forall2 (preserved id_ userId body)
                          (Schema.ingredients db) (Schema.ingredients db)).
  { rewrite <- (map_id (Schema.ingredients db)) at 2.
    apply Forall2_map_same. intros x. apply preserved_refl. }
  unfold r, Inventory.put.
  destruct (find (Inventory.owned id_ userId) (Schema.ingredients db)) as [row|] eqn:Ef.
  - unfold Inventory.update_ingredients.
    destruct (forallb _ _) eqn:Ec; cbn [fst snd].
    + split; [|repeat split].
      * cbn. apply Forall2_map_same. intros x. apply preserved_update.
      * intros status error H. discriminate.
      * intros Hno. rewrite (find_owned_none id_ userId _ Hno) in Ef. discriminate.
    + split; [exact Hsame | repeat split].
      intros Hno. rewrite (find_owned_none id_ userId _ Hno) in Ef. discriminate.
  - cbn [fst snd]. split; [exact Hsame | repeat split].
Qed.

(** A request that only renames: the name changes, the modification time
    is set, the other columns stay. *)
Lemma update_renames_only :
  let r := Inventory.put june_noon store_with_one_item "u1" "a" rename_to_oat_milk in
  Schema.ingredients (fst r)
  = [{| Schema.id := "a"; Schema.user_id := "u1"; Schema.name := "Oat milk";
        Schema.category := "Dairy"; Schema.quantity := "1";
        Schema.expiry_date := 19890; Schema.confidence := 1;
        Schema.created_at := 0; Schema.updated_at := june_noon |}] /\
  snd r = Inventory.Json 200
            (Some {| i_id := "a"; i_name := "Oat milk"; i_category := "Dairy";
                     i_quantity := "1"; i_expiryDate := 19890; i_confidence := 1 |}).
Proof. split; reflexivity. Qed.

(** The theorem at an id that no row carries. *)
Lemma C10_update_frame_witness :
  (forall row, In row (Schema.ingredients store_with_one_item) ->
               ~ (Schema.id row = "zz"%string /\ Schema.user_id row = "u1"%string)) /\
  Inventory.put june_noon store_with_one_item "u1" "zz" rename_to_oat_milk
  = (store_with_one_item, Inventory.Failure 404 "Item not found").
Proof.
  assert (H : forall row, In row (Schema.ingredients store_with_one_item) ->
                          ~ (Schema.id row = "zz"%string /\ Schema.user_id row = "u1"%string)).
  { intros row [<-|[]] [E _]. discriminate. }
  split; [exact H|].
  exact (proj2 (proj2 (proj2 (proj2 (proj2
    (C10_update_frame june_noon store_with_one_item "u1" "zz" rename_to_oat_milk))))) H).
Defined.

(* ================================================================= *)
(** * The SQL engine *)

(** ** [ORDER BY] *)

Section OrderFacts.
Import Sqlite.
Variable A : Type.
Variable before : A -> A -> bool.

Lemma sql_order_insert_perm (r : A) (l : list A) :
  Permutation (r :: l) (order_insert before r l).
Proof.
  induction l as [|r' l IH]; simpl; [reflexivity|].
  destruct (before r' r); [|reflexivity].
  rewrite perm_swap. now constructor.
Qed.

Lemma sql_order_by_perm (l : list A) : Permutation l (order_by before l).
Proof.
  induction l as [|r l IH]; simpl; [constructor|].
  rewrite <- sql_order_insert_perm. now constructor.
Qed.

Lemma sql_order_by_In (l : list A) (r : A) : In r (order_by before l) <-> In r l.
Proof.
  split; apply Permutation_in; [symmetry|]; apply sql_order_by_perm.
Qed.

Hypothesis before_asym : forall a b, before a b = true -> before b a = false.
Hypothesis not_after_trans :
  forall a b c, not_after before a b -> not_after before b c -> not_after before a c.

Lemma sql_order_insert_sorted (r : A) (l : list A) :
  StronglySorted (not_after before) l ->
  StronglySorted (not_after before) (order_insert before r l).
Proof.
  induction 1 as [|r' l Hs IH Hall]; simpl.
  - repeat constructor.
  - destruct (before r' r) eqn:E.
    + constructor; [exact IH|].
      apply (Permutation_Forall (sql_order_insert_perm r l)).
      constructor; [now apply before_asym | exact Hall].
    + constructor; [now constructor|].
      constructor; [exact E|].
      eapply Forall_impl; [|exact Hall]. intros x Hx.
      exact (not_after_trans r r' x E Hx).
Qed.

Lemma sql_order_by_sorted (l : list A) :
  StronglySorted (not_after before) (order_by before l).
Proof.
  induction l as [|r l IH]; simpl; [constructor|].
  now apply sql_order_insert_sorted.
Qed.

Lemma sql_order_insert_first (r : A) (l : list A) :
  Forall (not_after before r) l -> order_insert before r l = r :: l.
Proof.
  intros H. destruct l as [|r' l]; [reflexivity|]. simpl.
  apply Forall_inv in H. unfold not_after in H. now rewrite H.
Qed.

(** A table that is in order already is returned as it is. *)
Lemma sql_order_by_sorted_id (l : list A) :
  StronglySorted (not_after before) l -> order_by before l = l.
Proof.
  induction 1 as [|r l Hs IH Hall]; simpl; [reflexivity|].
  rewrite IH. now apply sql_order_insert_first.
Qed.

Lemma sql_order_insert_filter (p : A -> bool) (r : A) (l : list A) :
  StronglySorted (not_after before) l ->
  filter p (order_insert before r l)
  = if p r then order_insert before r (filter p l) else filter p l.
Proof.
  induction 1 as [|r' l Hs IH Hall].
  - simpl. now destruct (p r).
  - cbn [order_insert]. destruct (before r' r) eqn:E.
    + cbn [filter]. rewrite IH.
      destruct (p r), (p r'); try reflexivity.
      cbn [order_insert]. now rewrite E.
    + cbn [filter]. destruct (p r) eqn:Er; [|reflexivity].
      symmetry. change (order_insert before r (filter p (r' :: l))
        = r :: filter p (r' :: l)).
      apply sql_order_insert_first.
      apply Forall_forall. intros x Hx. apply filter_In in Hx. destruct Hx as [Hx _].
      destruct Hx as [<-|Hx]; [exact E|].
      rewrite Forall_forall in Hall.
      exact (not_after_trans r r' x E (Hall x Hx)).
Qed.

(** Selecting rows of an ordered answer is ordering the selected rows. *)
Lemma sql_order_by_filter (p : A -> bool) (l : list A) :
  filter p (order_by before l) = order_by before (filter p l).
Proof.
  induction l as [|r l IH]; simpl; [reflexivity|].
  rewrite sql_order_insert_filter by apply sql_order_by_sorted.
  rewrite IH. now destruct (p r).
Qed.

End OrderFacts.

Arguments sql_order_insert_perm {A} before r l.
Arguments sql_order_by_perm {A} before l.
Arguments sql_order_by_In {A} before l r.
Arguments sql_order_by_sorted {A} before before_asym not_after_trans l.
Arguments sql_order_by_sorted_id {A} before l _.
Arguments sql_order_by_filter {A} before before_asym not_after_trans p l.

Lemma StronglySorted_impl {A : Type} (P Q : A -> A -> Prop) (l : list A) :
  (forall a b, P a b -> Q a b) -> StronglySorted P l -> StronglySorted Q l.
Proof.
  intros H. induction 1; constructor; [assumption|].
  eapply Forall_impl; [|eassumption]. intros; now apply H.
Qed.

Lemma StronglySorted_map {A B : Type} (f : A -> B) (P : B -> B -> Prop) (l : list A) :
  StronglySorted (fun a b => P (f a) (f b)) l -> StronglySorted P (map f l).
Proof.
  induction 1; simpl; constructor; [assumption|].
  rewrite Forall_map. assumption.
Qed.

Lemma StronglySorted_app_inv {A : Type} (P : A -> A -> Prop) (l1 l2 : list A) :
  StronglySorted P (l1 ++ l2) ->
  StronglySorted P l1 /\ forall x y, In x l1 -> In y l2 -> P x y.
Proof.
  induction l1 as [|a l1 IH]; simpl; intros H.
  - split; [constructor | intros x y []].
  - apply StronglySorted_inv in H. destruct H as [Hs Hall].
    destruct (IH Hs) as [Hs1 Hx]. split.
    + constructor; [exact Hs1|]. rewrite Forall_forall in *.
      intros x Hin. apply Hall. apply in_or_app. now left.
    + intros x y [<-|Hin] Hy.
      * rewrite Forall_forall in Hall. apply Hall. apply in_or_app. now right.
      * now apply Hx.
Qed.

(** ** Comparing texts *)

Lemma ascii_compare_eq (a b : ascii) : (a ?= b)%char = Eq -> a = b.
Proof. apply Ascii.compare_eq_iff. Qed.

Lemma string_compare_refl (s : string) : (s ?= s)%string = Eq.
Proof.
  induction s as [|c s IH]; simpl; [reflexivity|].
  unfold Ascii.compare. now rewrite N.compare_refl.
Qed.

Lemma string_compare_lt_trans (a b c : string) :
  (a ?= b)%string = Lt -> (b ?= c)%string = Lt -> (a ?= c)%string = Lt.
Proof.
  revert b c. induction a as [|x a IH]; intros [|y b] [|z c]; simpl;
    try discriminate; try reflexivity.
  unfold Ascii.compare.
  destruct (N.compare_spec (N_of_ascii x) (N_of_ascii y)) as [E1|L1|G1];
    destruct (N.compare_spec (N_of_ascii y) (N_of_ascii z)) as [E2|L2|G2];
    try discriminate; intros H1 H2.
  - rewrite E1, E2, N.compare_refl. now apply IH with b.
  - rewrite E1. now apply N.compare_lt_iff in L2 as ->.
  - rewrite <- E2. now apply N.compare_lt_iff in L1 as ->.
  - assert (L : (N_of_ascii x < N_of_ascii z)%N) by lia.
    now apply N.compare_lt_iff in L as ->.
Qed.

Lemma string_ltb_asym (a b : string) :
  String.ltb a b = true -> String.ltb b a = false.
Proof.
  unfold String.ltb. rewrite (String.compare_antisym b a).
  destruct (a ?= b)%string; simpl; congruence.
Qed.

(** [b] is not below [a], [c] is not below [b]: [c] is not below [a]. *)
Lemma string_not_ltb_trans (a b c : string) :
  String.ltb b a = false -> String.ltb c b = false -> String.ltb c a = false.
Proof.
  unfold String.ltb. intros H1 H2.
  destruct (c ?= a)%string eqn:Eca; try reflexivity.
  destruct (b ?= a)%string eqn:Eba; try discriminate.
  - apply String.compare_eq_iff in Eba. subst b. now rewrite Eca in H2.
  - destruct (c ?= b)%string eqn:Ecb; try discriminate.
    + apply String.compare_eq_iff in Ecb. subst c. congruence.
    + rewrite (String.compare_antisym b a) in Eba.
      destruct (a ?= b)%string eqn:Eab; try discriminate.
      pose proof (string_compare_lt_trans _ _ _ Eca Eab) as H.
      congruence.
Qed.

Lemma string_eqb_compare (a b : string) :
  String.eqb a b = true <-> (a ?= b)%string = Eq.
Proof.
  split.
  - intros H. apply String.eqb_eq in H. subst. apply string_compare_refl.
  - intros H. apply String.compare_eq_iff in H. subst. apply String.eqb_refl.
Qed.

(* ================================================================= *)
(** * Reading the inventory *)

(** Vocabulary. *)

Section ListingFacts.
Import Schema Inventory Sqlite InventoryRoutes.

Lemma by_expiry_asym (a b : ingredient) : by_expiry a b = true -> by_expiry b a = false.
Proof. unfold by_expiry. lia. Qed.

Lemma by_expiry_trans (a b c : ingredient) :
  not_after by_expiry a b -> not_after by_expiry b c -> not_after by_expiry a c.
Proof. unfold not_after, by_expiry. lia. Qed.

Lemma by_name_asym (a b : ingredient) : by_name a b = true -> by_name b a = false.
Proof. apply string_ltb_asym. Qed.

Lemma by_name_trans (a b c : ingredient) :
  not_after by_name a b -> not_after by_name b c -> not_after by_name a c.
Proof. unfold not_after, by_name. apply string_not_ltb_trans. Qed.

Lemma by_category_false (a b : ingredient) :
  by_category b a = false <->
  String.ltb (category a) (category b) = true
  \/ (category a = category b /\ expiry_date a <= expiry_date b).
Proof.
  unfold by_category, String.ltb.
  rewrite (String.compare_antisym (category b) (category a)).
  destruct (category a ?= category b)%string eqn:E; cbn [CompOpp orb andb].
  - apply String.compare_eq_iff in E. rewrite E, String.eqb_refl. cbn [orb andb].
    rewrite Z.ltb_ge. split.
    + intros H. right. now split.
    + intros [H|[_ H]]; [discriminate | exact H].
  - assert (Hne : category b <> category a).
    { intros H. rewrite H, string_compare_refl in E. discriminate. }
    apply String.eqb_neq in Hne. rewrite Hne. cbn [orb andb].
    split; [now left | reflexivity].
  - split; [discriminate|]. intros [H|[H _]]; [discriminate|].
    rewrite H, string_compare_refl in E. discriminate.
Qed.

Lemma by_category_asym (a b : ingredient) :
  by_category a b = true -> by_category b a = false.
Proof.
  intros H. apply by_category_false. unfold by_category in H.
  apply orb_true_iff in H. destruct H as [H|H]; [now left|].
  apply andb_true_iff in H. destruct H as [H1 H2].
  apply String.eqb_eq in H1. right. split; [exact H1 | lia].
Qed.

Lemma by_category_trans (a b c : ingredient) :
  not_after by_category a b -> not_after by_category b c -> not_after by_category a c.
Proof.
  unfold not_after. rewrite !by_category_false.
  intros [H1|[E1 H1]] [H2|[E2 H2]].
  - left. unfold String.ltb in *.
    destruct (category a ?= category b)%string eqn:Eab; try discriminate.
    destruct (category b ?= category c)%string eqn:Ebc; try discriminate.
    now rewrite (string_compare_lt_trans _ _ _ Eab Ebc).
  - left. now rewrite <- E2.
  - left. now rewrite E1.
  - right. split; [congruence | lia].
Qed.

(** The three orders of the listing. *)
Lemma order_by_expiry_sorted (l : list ingredient) :
  StronglySorted expiry_ascending (map as_Ingredient (order_by by_expiry l)).
Proof.
  apply StronglySorted_map.
  apply (StronglySorted_impl (not_after by_expiry)).
  - unfold not_after, by_expiry, expiry_ascending. simpl. intros a b. lia.
  - apply sql_order_by_sorted; [exact by_expiry_asym | exact by_expiry_trans].
Qed.

Lemma order_by_name_sorted (l : list ingredient) :
  StronglySorted name_ascending (map as_Ingredient (order_by by_name l)).
Proof.
  apply StronglySorted_map.
  apply (StronglySorted_impl (not_after by_name)).
  - unfold not_after, by_name, name_ascending, String.ltb, String.leb. simpl.
    intros a b. rewrite (String.compare_antisym (name a) (name b)).
    now destruct (name b ?= name a)%string.
  - apply sql_order_by_sorted; [exact by_name_asym | exact by_name_trans].
Qed.

Lemma order_by_category_sorted (l : list ingredient) :
  StronglySorted category_then_expiry (map as_Ingredient (order_by by_category l)).
Proof.
  apply StronglySorted_map.
  apply (StronglySorted_impl (not_after by_category)).
  - intros a b H. apply by_category_false in H. exact H.
  - apply sql_order_by_sorted; [exact by_category_asym | exact by_category_trans].
Qed.

Lemma ordering_asym (sort : option string) (a b : ingredient) :
  ordering sort a b = true -> ordering sort b a = false.
Proof.
  unfold ordering. destruct sort as [s|]; [|apply by_expiry_asym].
  destruct (String.eqb s "name"); [apply by_name_asym|].
  destruct (String.eqb s "category"); [apply by_category_asym | apply by_expiry_asym].
Qed.

Lemma ordering_trans (sort : option string) (a b c : ingredient) :
  not_after (ordering sort) a b -> not_after (ordering sort) b c ->
  not_after (ordering sort) a c.
Proof.
  unfold ordering. destruct sort as [s|]; [|apply by_expiry_trans].
  destruct (String.eqb s "name"); [apply by_name_trans|].
  destruct (String.eqb s "category"); [apply by_category_trans | apply by_expiry_trans].
Qed.

Lemma search_stage (search : option string) (rows : list ingredient) (r : ingredient) :
  In r (match given search with
        | Some s => filter (name_like s) rows
        | None => rows
        end) <->
  In r rows /\ (forall s, given search = Some s -> name_like s r = true).
Proof.
  destruct (given search) as [s|].
  - rewrite filter_In. split.
    + intros [H1 H2]. split; [exact H1|]. intros s' E. now inversion E; subst.
    + intros [H1 H2]. split; [exact H1 | now apply H2].
  - split; [|tauto]. intros H. split; [exact H|]. intros s E. discriminate.
Qed.

Lemma category_stage (category_ : option string) (rows : list ingredient)
      (r : ingredient) :
  In r (match given category_ with
        | Some c =>
            if String.eqb c "all" then rows
            else filter (fun r => String.eqb (category r) c) rows
        | None => rows
        end) <->
  In r rows /\
  (forall c, given category_ = Some c -> c <> "all"%string -> category r = c).
Proof.
  destruct (given category_) as [c|].
  - destruct (String.eqb c "all") eqn:Ec.
    + apply String.eqb_eq in Ec. split; [|tauto]. intros H. split; [exact H|].
      intros c' E Hne. inversion E; subst. now elim Hne.
    + apply String.eqb_neq in Ec. rewrite filter_In, String.eqb_eq. split.
      * intros [H1 H2]. split; [exact H1|]. intros c' E _. now inversion E; subst.
      * intros [H1 H2]. split; [exact H1 | now apply H2].
  - split; [|tauto]. intros H. split; [exact H|]. intros c E. discriminate.
Qed.

Lemma selected_spec (db : database) (userId : string)
      (search category_ : option string) (r : ingredient) :
  In r (selected db userId search category_) <->
  In r (ingredients db) /\ user_id r = userId /\ passes_filters search category_ r.
Proof.
  unfold selected, passes_filters.
  rewrite category_stage, search_stage, filter_In. unfold own.
  rewrite String.eqb_eq. tauto.
Qed.

Lemma ordering_sorted (sort : option string) (l : list ingredient) :
  StronglySorted (not_after (ordering sort)) (order_by (ordering sort) l).
Proof.
  apply sql_order_by_sorted; [apply ordering_asym | apply ordering_trans].
Qed.

Lemma ordering_filter (sort : option string) (p : ingredient -> bool)
      (l : list ingredient) :
  filter p (order_by (ordering sort) l) = order_by (ordering sort) (filter p l).
Proof.
  apply sql_order_by_filter; [apply ordering_asym | apply ordering_trans].
Qed.

Lemma selected_own (db db' : database) (userId : string)
      (search category_ : option string) :
  filter (own userId) (ingredients db') = filter (own userId) (ingredients db) ->
  selected db' userId search category_ = selected db userId search category_.
Proof. unfold selected. now intros ->. Qed.

End ListingFacts.

(** X1. The listing shows the requester's rows and no others: a row is
    listed exactly when it is a row of the requester that passes the search
    text and the category; with neither filter every row of the requester is
    listed once; and the answer does not depend on the rows of other users. *)
Theorem X1_listing_confined_to_requester :
  forall (db : Schema.database) (userId : string)
         (search category_ sort : option string),
  exists rows : list Schema.ingredient,
    InventoryRoutes.get db userId search category_ sort
    = Inventory.Json 200 (map Inventory.as_Ingredient rows) /\
    (forall r, In r rows <->
               In r (Schema.ingredients db) /\ Schema.user_id r = userId /\
               passes_filters search category_ r) /\
    (exists every : list Schema.ingredient,
        InventoryRoutes.get db userId None None sort
        = Inventory.Json 200 (map Inventory.as_Ingredient every) /\
        Permutation every
                    (filter (InventoryRoutes.own userId) (Schema.ingredients db))) /\
    (forall db' : Schema.database,
        filter (InventoryRoutes.own userId) (Schema.ingredients db')
        = filter (InventoryRoutes.own userId) (Schema.ingredients db) ->
        InventoryRoutes.get db' userId search category_ sort
        = InventoryRoutes.get db userId search category_ sort).
Proof.
  intros db userId search category_ sort.
  exists (Sqlite.order_by (InventoryRoutes.ordering sort)
                          (InventoryRoutes.selected db userId search category_)).
  split; [reflexivity|]. split; [|split].
  - intros r. rewrite sql_order_by_In. apply selected_spec.
  - eexists. split; [reflexivity|]. symmetry. apply sql_order_by_perm.
  - intros db' H. unfold InventoryRoutes.get. now rewrite (selected_own db db').
Qed.

(** X2. The listing is in the order asked for: by name, by category and
    then expiry date, and otherwise by expiry date, the earliest first. *)
Theorem X2_listing_orders :
  forall (db : Schema.database) (userId : string)
         (search category_ sort : option string),
    sort <> Some "name"%string -> sort <> Some "category"%string ->
    (exists data, InventoryRoutes.get db userId search category_ sort
                  = Inventory.Json 200 data /\
                  StronglySorted expiry_ascending data) /\
    (exists data, InventoryRoutes.get db userId search category_ (Some "name"%string)
                  = Inventory.Json 200 data /\
                  StronglySorted name_ascending data) /\
    (exists data, InventoryRoutes.get db userId search category_ (Some "category"%string)
                  = Inventory.Json 200 data /\
                  StronglySorted category_then_expiry data).
Proof.
  intros db userId search category_ sort Hn Hc. split; [|split].
  - eexists. split; [reflexivity|].
    replace (InventoryRoutes.ordering sort) with InventoryRoutes.by_expiry.
    + apply order_by_expiry_sorted.
    + unfold InventoryRoutes.ordering. destruct sort as [s|]; [|reflexivity].
      destruct (String.eqb s "name") eqn:E1.
      { apply String.eqb_eq in E1. subst. now elim Hn. }
      destruct (String.eqb s "category") eqn:E2; [|reflexivity].
      apply String.eqb_eq in E2. subst. now elim Hc.
  - eexists. split; [reflexivity|]. apply order_by_name_sorted.
  - eexists. split; [reflexivity|]. apply order_by_category_sorted.
Qed.

Lemma X2_listing_orders_witness :
  @None string <> Some "name"%string /\ @None string <> Some "category"%string /\
  exists data, InventoryRoutes.get store_with_one_item "u1" None None None
               = Inventory.Json 200 data /\
               StronglySorted expiry_ascending data.
Proof.
  assert (H1 : @None string <> Some "name"%string) by discriminate.
  assert (H2 : @None string <> Some "category"%string) by discriminate.
  split; [exact H1|]. split; [exact H2|].
  exact (proj1 (X2_listing_orders store_with_one_item "u1" None None None H1 H2)).
Defined.

(* ================================================================= *)
(** * Searching the inventory *)

Section SearchFacts.
Import Schema Inventory Sqlite InventoryRoutes.

Lemma firstn_incl {A : Type} (n : nat) (l : list A) (x : A) :
  In x (firstn n l) -> In x l.
Proof.
  intros H. rewrite <- (firstn_skipn n l). apply in_or_app. now left.
Qed.

Lemma firstn_sorted {A : Type} (P : A -> A -> Prop) (n : nat) (l : list A) :
  StronglySorted P l -> StronglySorted P (firstn n l).
Proof.
  intros H. rewrite <- (firstn_skipn n l) in H.
  now apply StronglySorted_app_inv in H.
Qed.

(** What [LIMIT] leaves out comes after what it keeps. *)
Lemma firstn_left_out {A : Type} (P : A -> A -> Prop) (n : nat) (l : list A) (x y : A) :
  StronglySorted P l -> In x (firstn n l) -> In y l -> ~ In y (firstn n l) -> P x y.
Proof.
  intros Hs Hx Hy Hny. rewrite <- (firstn_skipn n l) in Hs, Hy.
  apply StronglySorted_app_inv in Hs. destruct Hs as [_ Hs].
  apply in_app_or in Hy. destruct Hy as [Hy|Hy]; [contradiction|].
  now apply Hs.
Qed.

End SearchFacts.

(** X3. A search answers with at most twenty items, all of them rows of the
    requester whose name matches, the earliest expiry first; a matching row
    it leaves out expires no earlier than any it returns, and none is left
    out when at most twenty match.  Without a search text the answer is
    empty. *)
Theorem X3_search_returns_the_first_twenty :
  forall (db : Schema.database) (userId : string) (c : ascii) (q' : string),
    let q := String c q' in
    let rows := InventoryRoutes.search_rows db userId q in
    let matching :=
      filter (fun r => InventoryRoutes.own userId r && InventoryRoutes.name_like q r)
             (Schema.ingredients db) in
    InventoryRoutes.search db userId (Some q)
    = Inventory.Json 200 (map Inventory.as_Ingredient rows) /\
    (List.length rows <= 20)%nat /\
    (forall r, In r rows ->
               In r (Schema.ingredients db) /\ Schema.user_id r = userId /\
               InventoryRoutes.name_like q r = true) /\
    StronglySorted expiry_ascending (map Inventory.as_Ingredient rows) /\
    (forall r r', In r matching -> ~ In r rows -> In r' rows ->
                  Schema.expiry_date r' <= Schema.expiry_date r) /\
    ((List.length matching <= 20)%nat -> Permutation rows matching) /\
    InventoryRoutes.search db userId None = Inventory.Json 200 [] /\
    InventoryRoutes.search db userId (Some ""%string) = Inventory.Json 200 [].
Proof.
  intros db userId c q' q rows matching.
  assert (Hs : StronglySorted (not_after InventoryRoutes.by_expiry)
                              (Sqlite.order_by InventoryRoutes.by_expiry matching)).
  { apply sql_order_by_sorted; [exact by_expiry_asym | exact by_expiry_trans]. }
  split; [reflexivity|]. split; [apply firstn_le_length|].
  split; [|split; [|split; [|split; [|split; reflexivity]]]].
  - intros r Hr. apply firstn_incl in Hr. apply sql_order_by_In in Hr.
    apply filter_In in Hr. destruct Hr as [Hin Hb].
    apply andb_true_iff in Hb. destruct Hb as [Ho Hl].
    apply String.eqb_eq in Ho. now repeat split.
  - apply StronglySorted_map.
    apply (StronglySorted_impl (not_after InventoryRoutes.by_expiry)).
    + unfold not_after, InventoryRoutes.by_expiry, expiry_ascending. simpl.
      intros a b. lia.
    + now apply firstn_sorted.
  - intros r r' Hr Hnr Hr'.
    assert (H : not_after InventoryRoutes.by_expiry r' r).
    { apply (firstn_left_out _ 20 _ r' r Hs Hr'); [|exact Hnr].
      now apply sql_order_by_In. }
    unfold not_after, InventoryRoutes.by_expiry in H. lia.
  - intros Hlen. unfold rows, InventoryRoutes.search_rows. fold matching.
    rewrite firstn_all2.
    + symmetry. apply sql_order_by_perm.
    + now rewrite <- (Permutation_length (sql_order_by_perm _ matching)).
Qed.

(* ================================================================= *)
(** * [LIKE] and [includes] *)

Section LikeFacts.
Import Sqlite.

Lemma scan_at_end (try : string -> bool) (s : string) :
  try EmptyString = true -> forall inside, scan try inside s = true.
Proof.
  intros H. induction s as [|c s IH]; intros inside; simpl; [exact H|].
  destruct (inside && continuation c); [apply IH|].
  rewrite IH. apply orb_true_r.
Qed.

Lemma like_percent (s : string) : like "%" s = true.
Proof. simpl. now apply scan_at_end. Qed.

Lemma prefix_String (a b : ascii) (s1 s2 : string) :
  prefix (String a s1) (String b s2) = Ascii.eqb a b && prefix s1 s2.
Proof.
  simpl. destruct (ascii_dec a b) as [E|E].
  - subst. now rewrite Ascii.eqb_refl.
  - apply Ascii.eqb_neq in E. now rewrite E.
Qed.

(** A pattern of plain text followed by [%] asks for a prefix, letter case
    apart. *)
Lemma like_plain_prefix (q : string) :
  plain q = true ->
  forall s, like (q ++ "%") s = prefix (toLowerCase q) (toLowerCase s).
Proof.
  induction q as [|p q IH]; intros Hq s.
  - rewrite like_percent. now destruct s.
  - cbn [plain] in Hq. apply andb_true_iff in Hq. destruct Hq as [Hp Hq].
    apply andb_true_iff in Hp. destruct Hp as [Hp1 Hp2].
    apply negb_true_iff in Hp1. apply negb_true_iff in Hp2.
    change ((String p q ++ "%")%string) with (String p (q ++ "%")).
    cbn [like]. rewrite Hp1, Hp2.
    destruct s as [|c s]; [reflexivity|].
    cbn [toLowerCase]. rewrite prefix_String. now rewrite IH.
Qed.



(** On any text, a match of [%q%] is an occurrence of [q]. *)
Lemma scan_suffix (try : string -> bool) (s : string) :
  forall inside, scan try inside s = true ->
                 exists pre post, s = (pre ++ post)%string /\ try post = true.
Proof.
  induction s as [|c s IH]; intros inside H; simpl in H.
  - exists EmptyString, EmptyString. now split.
  - destruct (inside && continuation c).
    + destruct (IH _ H) as [pre [post [E Ht]]].
      exists (String c pre), post. split; [now rewrite E | exact Ht].
    + apply orb_true_iff in H. destruct H as [H|H].
      * exists EmptyString, (String c s). now split.
      * destruct (IH _ H) as [pre [post [E Ht]]].
        exists (String c pre), post. split; [now rewrite E | exact Ht].
Qed.

Lemma like_plain_sound (q s : string) :
  plain q = true -> like ("%" ++ q ++ "%") s = true ->
  includes (toLowerCase s) (toLowerCase q) = true.
Proof.
  intros Hq. change (("%" ++ q ++ "%")%string) with (String "%" (q ++ "%")).
  cbn [like]. change (Ascii.eqb "%" "%") with true. cbv iota.
  intros H. apply scan_suffix in H. destruct H as [pre [post [E Ht]]].
  rewrite like_plain_prefix in Ht by exact Hq.
  apply prefix_spec in Ht. destruct Ht as [rest Ht].
  apply includes_spec. exists (toLowerCase pre), rest.
  now rewrite E, toLowerCase_app, Ht.
Qed.

End LikeFacts.

Lemma filter_map_swap' {A B : Type} (f : A -> B) (p : B -> bool) (l : list A) :
  filter p (map f l) = map f (filter (fun x => p (f x)) l).
Proof.
  induction l as [|x l IH]; simpl; [reflexivity|].
  rewrite IH. now destruct (p (f x)).
Qed.

Lemma filter_comm {A : Type} (p q : A -> bool) (l : list A) :
  filter p (filter q l) = filter q (filter p l).
Proof.
  induction l as [|x l IH]; simpl; [reflexivity|].
  destruct (p x) eqn:Ep, (q x) eqn:Eq; simpl; rewrite ?Ep, ?Eq, IH; reflexivity.
Qed.




(* ================================================================= *)
(** * Adding and deleting one item *)

Section AddDeleteFacts.
Import Schema Inventory InventoryRoutes.

Lemma set_ingredients_same (db : database) : set_ingredients db (ingredients db) = db.
Proof. now destruct db. Qed.

Lemma existsb_id (tbl : list ingredient) (id_ : string) :
  existsb (fun r => String.eqb (id r) id_) tbl = true <-> In id_ (map id tbl).
Proof.
  rewrite existsb_exists, in_map_iff. split.
  - intros [r [Hin E]]. apply String.eqb_eq in E. now exists r.
  - intros [r [E Hin]]. exists r. split; [exact Hin | now apply String.eqb_eq].
Qed.

(** What [post] does, case by case. *)
Lemma post_cases (id_ : string) (now : Z) (db : database) (userId : string)
      (body : item_body) :
  let r := post id_ now db userId body in
  (incomplete body /\ r = (db, Failure 400 "Missing required fields"))
  \/
  (exists n c q e,
      given (b_name body) = Some n /\ given (b_category body) = Some c /\
      given (b_quantity body) = Some q /\ b_expiryDate body = Some e /\
      ((category_ok c = false /\ r = (db, Failure 400 "Invalid category"))
       \/
       (category_ok c = true /\
        (In id_ (map id (ingredients db)) \/
         references_user (users db) userId = false) /\
        r = (db, Failure 500 "Failed to add item"))
       \/
       (category_ok c = true /\ ~ In id_ (map id (ingredients db)) /\
        references_user (users db) userId = true /\
        let item := {| i_id := id_; i_name := n; i_category := c; i_quantity := q;
                       i_expiryDate := e;
                       i_confidence := match b_confidence body with
                                       | Some k => k
                                       | None => 1%Q
                                       end |} in
        r = (set_ingredients db
               (ingredients db
                ++ [{| id := id_; user_id := userId; name := n; category := c;
                       quantity := q; expiry_date := e;
                       confidence := i_confidence item;
                       created_at := now; updated_at := now |}]),
             Json 201 item)))).
Proof.
  intros r. unfold r, post, incomplete.
  destruct (given (b_name body)) as [n|]; [|left; split; [now left | reflexivity]].
  destruct (given (b_category body)) as [c|];
    [|left; split; [right; now left | reflexivity]].
  destruct (given (b_quantity body)) as [q|];
    [|left; split; [right; right; now left | reflexivity]].
  destruct (b_expiryDate body) as [e|];
    [|left; split; [right; right; now right | reflexivity]].
  right. exists n, c, q, e. repeat split.
  change (existsb (String.eqb c) validCategories) with (category_ok c).
  destruct (category_ok c) eqn:Ec; cbn [negb]; [|now left].
  right. unfold insert_ingredient. cbn [b_name b_category b_quantity b_expiryDate b_confidence].
  rewrite Ec. cbn [negb].
  destruct (existsb (fun r0 => String.eqb (id r0) id_) (ingredients db)) eqn:Ex.
  - left. apply existsb_id in Ex. split; [reflexivity|]. split; [now left | reflexivity].
  - destruct (references_user (users db) userId) eqn:Eu; cbn [negb].
    + right. split; [reflexivity|]. split; [|split; reflexivity].
      intros H. apply existsb_id in H. congruence.
    + left. split; [reflexivity|]. split; [now right | reflexivity].
Qed.

End AddDeleteFacts.

(** X5. Adding one item either appends exactly one row, owned by the
    requester, carrying the body's fields and the fresh id, and answers 201
    with that item; or it answers with an error and leaves the store as it
    was: 400 when a required text is missing or empty, 400 when the
    category is not one of the five, 500 when the id is taken or the
    requester is no registered user.  The other tables are never touched. *)
Theorem X5_post_adds_one_row_or_nothing :
  forall (id_ : string) (now : Z) (db : Schema.database) (userId : string)
         (body : Inventory.item_body),
    let r := InventoryRoutes.post id_ now db userId body in
    (forall status error, snd r = Inventory.Failure status error -> fst r = db) /\
    (forall status item,
        snd r = Inventory.Json status item ->
        status = 201 /\ i_id item = id_ /\
        i_name item <> ""%string /\ i_quantity item <> ""%string /\
        Schema.category_ok (i_category item) = true /\
        ~ In id_ (map Schema.id (Schema.ingredients db)) /\
        exists row,
          Schema.ingredients (fst r) = Schema.ingredients db ++ [row] /\
          stored_as userId now item row) /\
    (incomplete body -> r = (db, Inventory.Failure 400 "Missing required fields")) /\
    Schema.users (fst r) = Schema.users db /\
    Schema.notification_preferences (fst r) = Schema.notification_preferences db /\
    Schema.usage_stats (fst r) = Schema.usage_stats db.
Proof.
  intros id_ now db userId body r.
  assert (Hgiven : forall x s, InventoryRoutes.given x = Some s -> s <> ""%string).
  { intros [s'|] s; simpl; [|discriminate].
    destruct (String.eqb s' "") eqn:E; [discriminate|].
    intros H. inversion H; subst. now apply String.eqb_neq. }
  pose proof (post_cases id_ now db userId body) as H. cbv zeta in H. fold r in H.
  destruct H as [[Hinc Hr]|[n [c [q [e [En [Ec [Eq [Ee Hr]]]]]]]]].
  - rewrite Hr. cbn [fst snd].
    split; [reflexivity|]. split; [discriminate|]. now repeat split.
  - assert (Hcomplete : ~ incomplete body).
    { unfold incomplete. rewrite En, Ec, Eq, Ee.
      intros [H|[H|[H|H]]]; discriminate. }
    destruct Hr as [[Hbad Hr]|[[Hgood [Hin Hr]]|[Hgood [Hfresh [Huser Hr]]]]];
      rewrite Hr; cbn [fst snd].
    + split; [reflexivity|]. split; [discriminate|].
      split; [intros H; contradiction | now repeat split].
    + split; [reflexivity|]. split; [discriminate|].
      split; [intros H; contradiction | now repeat split].
    + split; [discriminate|]. split; [|split; [intros H; contradiction | now repeat split]].
      intros status item H. inversion H; subst status item. cbn.
      split; [reflexivity|]. split; [reflexivity|].
      split; [exact (Hgiven _ _ En)|]. split; [exact (Hgiven _ _ Eq)|].
      split; [exact Hgood|]. split; [exact Hfresh|].
      eexists. split; [reflexivity|]. now repeat split.
Qed.

Section DeleteFacts.
Import Schema Inventory InventoryRoutes.

Lemma owned_true (id_ userId : string) (r : ingredient) :
  owned id_ userId r = true <-> id r = id_ /\ user_id r = userId.
Proof.
  unfold owned. now rewrite andb_true_iff, !String.eqb_eq.
Qed.

Lemma find_owned_some (id_ userId : string) (tbl : list ingredient) (row : ingredient) :
  find (owned id_ userId) tbl = Some row ->
  In row tbl /\ id row = id_ /\ user_id row = userId.
Proof.
  intros H. apply find_some in H. destruct H as [Hin Ho].
  apply owned_true in Ho. now split.
Qed.

Lemma find_filter_none {A : Type} (p : A -> bool) (l : list A) :
  find p (filter (fun x => negb (p x)) l) = None.
Proof.
  induction l as [|x l IH]; simpl; [reflexivity|].
  destruct (p x) eqn:E; simpl; [exact IH | now rewrite E].
Qed.

Lemma find_app_none {A : Type} (p : A -> bool) (l l' : list A) :
  find p l = None -> find p (l ++ l') = find p l'.
Proof.
  induction l as [|x l IH]; simpl; [reflexivity|].
  destruct (p x); [discriminate | exact IH].
Qed.

Lemma filter_all {A : Type} (p : A -> bool) (l : list A) :
  (forall x, In x l -> p x = true) -> filter p l = l.
Proof.
  induction l as [|x l IH]; simpl; intros H; [reflexivity|].
  rewrite (H x) by now left. f_equal. apply IH. intros y Hy. apply H. now right.
Qed.

Lemma delete_table (db : database) (userId id_ : string) :
  ingredients (fst (delete db userId id_))
  = filter (fun row => negb (owned id_ userId row)) (ingredients db).
Proof.
  unfold delete.
  destruct (find (owned id_ userId) (ingredients db)) eqn:E; cbn [fst]; [reflexivity|].
  symmetry. apply filter_all. intros x Hx.
  apply negb_true_iff. eapply find_none in E; eassumption.
Qed.

End DeleteFacts.

(** X6. Deleting an item removes the rows of that id owned by the requester
    and nothing else: every other row keeps its place and its content, and
    the other tables are untouched.  Without such a row the answer is 404
    and the store is unchanged; after a deletion, deleting or updating the
    same id again answers 404. *)
Theorem X6_delete_removes_only_the_owned_row :
  forall (db : Schema.database) (userId id_ : string),
    let r := InventoryRoutes.delete db userId id_ in
    Schema.ingredients (fst r)
    = filter (fun row => negb (Inventory.owned id_ userId row)) (Schema.ingredients db) /\
    (forall row, In row (Schema.ingredients (fst r)) <->
                 In row (Schema.ingredients db) /\
                 ~ (Schema.id row = id_ /\ Schema.user_id row = userId)) /\
    ((exists row, In row (Schema.ingredients db) /\
                  Schema.id row = id_ /\ Schema.user_id row = userId)
     -> snd r = Inventory.Json 200 id_) /\
    ((forall row, In row (Schema.ingredients db) ->
                  ~ (Schema.id row = id_ /\ Schema.user_id row = userId))
     -> r = (db, Inventory.Failure 404 "Item not found")) /\
    Schema.users (fst r) = Schema.users db /\
    Schema.notification_preferences (fst r) = Schema.notification_preferences db /\
    Schema.usage_stats (fst r) = Schema.usage_stats db /\
    InventoryRoutes.delete (fst r) userId id_
    = (fst r, Inventory.Failure 404 "Item not found") /\
    (forall now body,
        Inventory.put now (fst r) userId id_ body
        = (fst r, Inventory.Failure 404 "Item not found")).
Proof.
  intros db userId id_ r.
  assert (Htbl : Schema.ingredients (fst r)
                 = filter (fun row => negb (Inventory.owned id_ userId row))
                          (Schema.ingredients db)) by apply delete_table.
  assert (Hgone : find (Inventory.owned id_ userId) (Schema.ingredients (fst r)) = None).
  { rewrite Htbl. apply find_filter_none. }
  split; [exact Htbl|]. split; [|split; [|split; [|split; [|split; [|split; [|split]]]]]].
  - intros row. rewrite Htbl, filter_In, negb_true_iff.
    rewrite <- owned_true. destruct (Inventory.owned id_ userId row); intuition congruence.
  - intros [row [Hin [E1 E2]]]. unfold r, InventoryRoutes.delete.
    destruct (find (Inventory.owned id_ userId) (Schema.ingredients db)) eqn:E;
      [reflexivity|].
    eapply find_none in E; [|exact Hin].
    assert (Inventory.owned id_ userId row = true) by now apply owned_true.
    congruence.
  - intros Hno. unfold r, InventoryRoutes.delete.
    now rewrite (find_owned_none id_ userId _ Hno).
  - unfold r, InventoryRoutes.delete.
    now destruct (find (Inventory.owned id_ userId) (Schema.ingredients db)).
  - unfold r, InventoryRoutes.delete.
    now destruct (find (Inventory.owned id_ userId) (Schema.ingredients db)).
  - unfold r, InventoryRoutes.delete.
    now destruct (find (Inventory.owned id_ userId) (Schema.ingredients db)).
  - unfold InventoryRoutes.delete at 1. now rewrite Hgone.
  - intros now body. unfold Inventory.put. now rewrite Hgone.
Qed.



(* ================================================================= *)
(** * The constraints of the table *)

Section ConstraintFacts.
Import Schema Inventory InventoryRoutes.

(** A [DELETE] keeps a key column unique. *)
Lemma delete_keeps_keys_distinct {Row Key : Type} (key : Row -> Key)
      (keep : Row -> bool) (tbl : list Row) :
  NoDup (map key tbl) -> NoDup (map key (filter keep tbl)).
Proof.
  intros Hnd. induction tbl as [|r tbl IH]; [constructor|].
  cbn [map filter] in *. apply NoDup_cons_iff in Hnd. destruct Hnd as [Hr Hnd].
  destruct (keep r); [|now apply IH].
  cbn [map]. apply NoDup_cons; [|now apply IH].
  rewrite in_map_iff. intros [r' [E Hr']]. apply filter_In in Hr'.
  apply Hr. rewrite <- E. apply in_map. tauto.
Qed.

Lemma insert_ingredient_constraints (now : Z) (accounts : list user)
      (tbl tbl' : list ingredient) (id_ userId : string) (item : item_body) :
  insert_ingredient now accounts tbl id_ userId item = Some tbl' ->
  constraints_hold tbl -> constraints_hold tbl'.
Proof.
  unfold insert_ingredient, constraints_hold.
  destruct (b_name item) as [n|]; [|discriminate].
  destruct (b_category item) as [c|]; [|discriminate].
  destruct (b_quantity item) as [q|]; [|discriminate].
  destruct (b_expiryDate item) as [e|]; [|discriminate].
  destruct (b_confidence item) as [k|]; [|discriminate].
  destruct (existsb _ tbl) eqn:Ex; [discriminate|].
  destruct (category_ok c) eqn:Ec; [|discriminate]. cbn [negb].
  destruct (negb (references_user accounts userId)); [discriminate|].
  intros H [Hnd Hcat]. inversion H; subst tbl'. split.
  - rewrite map_app. cbn [map id].
    apply NoDup_app; [exact Hnd | repeat constructor; intros [] |].
    intros x Hx [<-|[]]. apply existsb_id in Hx. congruence.
  - apply Forall_app. split; [exact Hcat|]. now repeat constructor.
Qed.

Lemma insert_loop_constraints (uuidv4 : nat -> string) (now : Z)
      (accounts : list user) (userId : string) (items : list item_body) :
  forall (n : nat) (tbl tbl' : list ingredient),
    insert_loop uuidv4 n now accounts userId tbl items = Some tbl' ->
    constraints_hold tbl -> constraints_hold tbl'.
Proof.
  induction items as [|item items IH]; intros n tbl tbl' H Hc; simpl in H.
  - now inversion H; subst.
  - destruct (id_or_fresh uuidv4 n item) as [id_ n'].
    destruct (insert_ingredient now accounts tbl id_ userId item) as [tbl1|] eqn:E;
      [|discriminate].
    eapply IH; [exact H|]. eapply insert_ingredient_constraints; eassumption.
Qed.

Lemma update_ingredients_constraints (now : Z) (body : item_body)
      (id_ userId : string) (tbl tbl' : list ingredient) :
  update_ingredients now body id_ userId tbl = Some tbl' ->
  constraints_hold tbl -> constraints_hold tbl'.
Proof.
  unfold update_ingredients, constraints_hold.
  destruct (forallb _ _) eqn:Ef; [|discriminate].
  intros H [Hnd Hcat]. inversion H; subst tbl'. clear H. split.
  - rewrite map_map.
    replace (map (fun x => id (if owned id_ userId x then update_row now body x else x)) tbl)
      with (map id tbl); [exact Hnd|].
    apply map_ext. intros x. now destruct (owned id_ userId x).
  - rewrite forallb_forall in Ef.
    apply Forall_forall. intros r Hr.
    destruct (owned id_ userId r) eqn:Eo.
    + apply Ef. apply filter_In. now split.
    + apply in_map_iff in Hr. destruct Hr as [x [E Hx]].
      rewrite Forall_forall in Hcat.
      destruct (owned id_ userId x) eqn:Ex.
      * exfalso. subst r. unfold owned, update_row in Eo. cbn in Eo.
        unfold owned in Ex. congruence.
      * subst r. now apply Hcat.
Qed.

End ConstraintFacts.

(** X8. The four routes that write to the inventory keep the constraints
    of the table: ids stay distinct and every category stays one of the
    five, whatever the request. *)
Theorem X8_writes_keep_the_constraints :
  forall db : Schema.database,
    constraints_hold (Schema.ingredients db) ->
    (forall id_ now userId body,
        constraints_hold
          (Schema.ingredients (fst (InventoryRoutes.post id_ now db userId body)))) /\
    (forall uuidv4 now userId items,
        constraints_hold
          (Schema.ingredients (fst (Inventory.bulk uuidv4 now db userId items)))) /\
    (forall now userId id_ body,
        constraints_hold
          (Schema.ingredients (fst (Inventory.put now db userId id_ body)))) /\
    (forall userId id_,
        constraints_hold
          (Schema.ingredients (fst (InventoryRoutes.delete db userId id_)))).
Proof.
  intros db Hc. split; [|split; [|split]].
  - intros id_ now userId body. unfold InventoryRoutes.post.
    destruct (InventoryRoutes.given (Inventory.b_name body)); [|exact Hc].
    destruct (InventoryRoutes.given (Inventory.b_category body)); [|exact Hc].
    destruct (InventoryRoutes.given (Inventory.b_quantity body)); [|exact Hc].
    destruct (Inventory.b_expiryDate body); [|exact Hc].
    destruct (negb _); [exact Hc|].
    destruct (Inventory.insert_ingredient _ _ _ _ _ _) eqn:E; [|exact Hc].
    cbn [fst]. eapply insert_ingredient_constraints; eassumption.
  - intros uuidv4 now userId [items|]; [|exact Hc]. unfold Inventory.bulk.
    destruct (Inventory.insert_loop _ _ _ _ _ _ _) eqn:E; [|exact Hc].
    cbn [fst]. eapply insert_loop_constraints; eassumption.
  - intros now userId id_ body. unfold Inventory.put.
    destruct (find _ _); [|exact Hc].
    destruct (Inventory.update_ingredients _ _ _ _ _) eqn:E; [|exact Hc].
    cbn [fst]. eapply update_ingredients_constraints; eassumption.
  - intros userId id_. unfold InventoryRoutes.delete.
    destruct (find _ _); [|exact Hc]. cbn [fst]. destruct Hc as [Hnd Hcat].
    split.
    + now apply delete_keeps_keys_distinct.
    + cbn. apply Forall_forall. intros r Hr. apply filter_In in Hr.
      rewrite Forall_forall in Hcat. now apply Hcat.
Qed.

Lemma X8_writes_keep_the_constraints_witness :
  constraints_hold (Schema.ingredients store_with_one_item) /\
  constraints_hold
    (Schema.ingredients
       (fst (InventoryRoutes.post "n1" june_noon store_with_one_item "u1"
                                  (good_item "" "Eggs")))).
Proof.
  assert (H : constraints_hold (Schema.ingredients store_with_one_item)).
  { split; repeat constructor. intros []. }
  split; [exact H|].
  exact (proj1 (X8_writes_keep_the_constraints store_with_one_item H)
               "n1"%string june_noon "u1"%string (good_item "" "Eggs")).
Defined.

(* ================================================================= *)
(** * Items expiring soon *)

Section ExpiringFacts.
Import Schema Inventory Sqlite InventoryRoutes.

Lemma order_by_expiry_same (l : list ingredient) :
  order_by by_expiry l = Notifications.order_by_expiry l.
Proof.
  induction l as [|r l IH]; simpl; [reflexivity|]. rewrite IH.
  generalize (Notifications.order_by_expiry l). intros s.
  induction s as [|r' s IHs]; simpl; [reflexivity|].
  unfold by_expiry at 1. now rewrite IHs.
Qed.

Lemma daysNum_nonzero (parsed : option Z) : daysNum parsed <> 0.
Proof.
  unfold daysNum. destruct parsed as [z|]; [|discriminate].
  destruct (z =? 0) eqn:E; [discriminate | now apply Z.eqb_neq].
Qed.

Lemma expiring_window (tz : Clock.TimeZone) (db : database) (userId : string)
      (now : Z) (parsed : option Z) :
  Z.abs (days_on tz now (daysNum parsed)) <= maxTime ->
  fourDigitYear (isoDay (days_on tz now (daysNum parsed))) = true ->
  exists rows : list ingredient,
    expiring_in tz db userId now parsed = Json 200 (map as_Ingredient rows) /\
    (forall r, In r rows <->
               In r (ingredients db) /\ user_id r = userId /\
               isoDay now <= expiry_date r
               <= isoDay (days_on tz now (daysNum parsed))) /\
    StronglySorted expiry_ascending (map as_Ingredient rows).
Proof.
  intros Hvalid Hyear. unfold expiring_in. cbn [Clock.setDate]. rewrite daysAhead_days_on.
  rewrite (timeClip_valid _ Hvalid), Hyear.
  eexists. split; [reflexivity|]. split; [|apply order_by_expiry_sorted].
  intros r. rewrite sql_order_by_In, filter_In. unfold own.
  rewrite !andb_true_iff, String.eqb_eq, Z.leb_le, Z.geb_le.
  intuition lia.
Qed.

Lemma expiring_beyond_dates (tz : Clock.TimeZone) (db : database) (userId : string)
      (now : Z) (parsed : option Z) :
  maxTime < Z.abs (days_on tz now (daysNum parsed)) ->
  expiring_in tz db userId now parsed = Failure 500 "Failed to fetch expiring items".
Proof.
  intros H. unfold expiring_in. cbn [Clock.setDate]. rewrite daysAhead_days_on. now rewrite (timeClip_invalid _ H).
Qed.

Lemma expiring_beyond_four_digits (tz : Clock.TimeZone) (db : database)
      (userId : string) (now : Z) (parsed : option Z) :
  Z.abs (days_on tz now (daysNum parsed)) <= maxTime ->
  fourDigitYear (isoDay (days_on tz now (daysNum parsed))) = false ->
  expiring_in tz db userId now parsed = Json 200 [].
Proof.
  intros H Hyear. unfold expiring_in. cbn [Clock.setDate]. rewrite daysAhead_days_on.
  rewrite (timeClip_valid _ H), Hyear.
  replace (filter _ (ingredients db)) with (@nil ingredient); [reflexivity|].
  symmetry. induction (ingredients db) as [|r l IH]; [reflexivity|].
  simpl. rewrite <- IH. now rewrite andb_false_r.
Qed.

End ExpiringFacts.

(** Two days before the clocks of New York are put forward, the local
    date four days on is only three UTC dates away. *)
Lemma four_days_across_the_change :
  isoDay (days_on new_york_2024 march_8th 4) = isoDay march_8th + 3.
Proof. reflexivity. Qed.

(** X9. [GET /api/inventory/expiring] at an instant [now], asked for a
    number of days [d] (no number, an unreadable one, or zero means three),
    in a process of any time zone.  The window ends at the UTC date of the
    instant [d] days on by the local clock.  While that date has a
    four-digit year, the answer is exactly the requester's rows dated from
    today to that date, the earliest first; a date past the year 9999 or
    before the year 0 gives the empty answer whatever the store holds; and
    a number too large for a date makes the route fail with 500.  The
    window is exactly [d] days long when the clocks are set the same at
    both ends, and a day longer or shorter at most when they are changed
    by no more than a day in between. *)
Theorem X9_expiring_route_window :
  forall (tz : Clock.TimeZone) (db : Schema.database) (userId : string)
         (now : Z) (parsed : option Z),
    let d := InventoryRoutes.daysNum parsed in
    let last := isoDay (days_on tz now d) in
    Z.abs (days_on tz now d) <= InventoryRoutes.maxTime ->
    (if InventoryRoutes.fourDigitYear last
     then exists rows : list Schema.ingredient,
            InventoryRoutes.expiring_in tz db userId now parsed
            = Inventory.Json 200 (map Inventory.as_Ingredient rows) /\
            (forall r, In r rows <->
                       In r (Schema.ingredients db) /\ Schema.user_id r = userId /\
                       isoDay now <= Schema.expiry_date r <= last) /\
            StronglySorted expiry_ascending (map Inventory.as_Ingredient rows) /\
            (last < isoDay now -> rows = [])
     else InventoryRoutes.expiring_in tz db userId now parsed = Inventory.Json 200 []) /\
    (steady tz now d -> last = isoDay now + d) /\
    (Z.abs (clock_change tz now d) <= msPerDay ->
     isoDay now + d - 1 <= last <= isoDay now + d + 1) /\
    d <> 0 /\
    (forall z : Z, z <> 0 -> parsed = Some z -> d = z) /\
    InventoryRoutes.expiring_in tz db userId now None
    = InventoryRoutes.expiring_in tz db userId now (Some 3) /\
    InventoryRoutes.expiring_in tz db userId now (Some 0)
    = InventoryRoutes.expiring_in tz db userId now (Some 3) /\
    (forall far : Z,
        InventoryRoutes.maxTime
        < Z.abs (days_on tz now (InventoryRoutes.daysNum (Some far))) ->
        InventoryRoutes.expiring_in tz db userId now (Some far)
        = Inventory.Failure 500 "Failed to fetch expiring items").
Proof.
  intros tz db userId now parsed d last Hvalid.
  split; [|split; [apply steady_day | split; [apply changed_day |]]].
  - destruct (InventoryRoutes.fourDigitYear last) eqn:Hyear.
    + destruct (expiring_window tz db userId now parsed Hvalid Hyear)
        as [rows [E [Hin Hs]]].
      exists rows. split; [exact E|]. split; [exact Hin|]. split; [exact Hs|].
      intros Hneg. destruct rows as [|r l]; [reflexivity|].
      assert (H : In r (r :: l)) by now left.
      apply Hin in H. fold d in H. fold last in H. lia.
    + now apply expiring_beyond_four_digits.
  - split; [apply daysNum_nonzero|]. split.
    { intros z Hz ->. unfold d. cbn [InventoryRoutes.daysNum].
      apply Z.eqb_neq in Hz. now rewrite Hz. }
    split; [reflexivity|]. split; [reflexivity|].
    intros far. apply expiring_beyond_dates.
Qed.

(** The theorem in New York at noon UTC of 2024-06-10, for seven days. *)
Lemma X9_expiring_route_window_witness :
  Z.abs (days_on new_york_2024 june_noon (InventoryRoutes.daysNum (Some 7)))
  <= InventoryRoutes.maxTime /\
  exists rows : list Schema.ingredient,
    InventoryRoutes.expiring_in new_york_2024 store_zero_days_before "u1" june_noon (Some 7)
    = Inventory.Json 200 (map Inventory.as_Ingredient rows) /\
    (forall r, In r rows <->
               In r (Schema.ingredients store_zero_days_before) /\
               Schema.user_id r = "u1"%string /\
               isoDay june_noon <= Schema.expiry_date r <= isoDay june_noon + 7).
Proof.
  assert (H1 : Z.abs (days_on new_york_2024 june_noon
                                      (InventoryRoutes.daysNum (Some 7)))
               <= InventoryRoutes.maxTime) by (vm_compute; discriminate).
  split; [exact H1|].
  destruct (proj1 (X9_expiring_route_window new_york_2024 store_zero_days_before "u1"
                                            june_noon (Some 7) H1))
    as [rows [E [Hin _]]].
  exists rows. split; [exact E | exact Hin].
Defined.

(** X10. Asked for the number of days a user has stored as a preference,
    the route lists the items that user's expiry notification is about. *)
Theorem X10_expiring_route_agrees_with_trigger :
  forall (db : Schema.database) (now : Z) (row : Notifications.joined),
    Z.abs (now + Notifications.daysBefore row * msPerDay) <= InventoryRoutes.maxTime ->
    InventoryRoutes.fourDigitYear (isoDay now + Notifications.daysBefore row) = true ->
    InventoryRoutes.expiring db (Notifications.j_id row) now
                             (Notifications.j_expiry_days_before row)
    = Inventory.Json 200
        (map Inventory.as_Ingredient (Notifications.expiringItems db now row)).
Proof.
  intros db now row Hvalid Hyear.
  assert (Ed : InventoryRoutes.daysNum (Notifications.j_expiry_days_before row)
               = Notifications.daysBefore row) by reflexivity.
  unfold InventoryRoutes.expiring, InventoryRoutes.expiring_in,
    Notifications.expiringItems, Notifications.expiringItems_in.
  rewrite Ed. cbn [Clock.setDate].
  rewrite daysAhead_utc, (timeClip_valid _ Hvalid).
  rewrite isoDay_addDays, Hyear, order_by_expiry_same.
  reflexivity.
Qed.

Lemma X10_expiring_route_agrees_with_trigger_witness :
  Z.abs (june_noon + Notifications.daysBefore ann_seven_days * msPerDay)
  <= InventoryRoutes.maxTime /\
  InventoryRoutes.fourDigitYear (isoDay june_noon + Notifications.daysBefore ann_seven_days)
  = true /\
  InventoryRoutes.expiring store_with_one_item "u1" june_noon (Some 7)
  = Inventory.Json 200
      (map Inventory.as_Ingredient
           (Notifications.expiringItems store_with_one_item june_noon ann_seven_days)).
Proof.
  assert (H1 : Z.abs (june_noon + Notifications.daysBefore ann_seven_days * msPerDay)
               <= InventoryRoutes.maxTime) by (vm_compute; discriminate).
  assert (H2 : InventoryRoutes.fourDigitYear
                 (isoDay june_noon + Notifications.daysBefore ann_seven_days) = true)
    by reflexivity.
  split; [exact H1|]. split; [exact H2|].
  exact (X10_expiring_route_agrees_with_trigger store_with_one_item june_noon
                                            ann_seven_days H1 H2).
Defined.

(* ================================================================= *)
(** * The client's copy of the inventory *)

Section ClientFacts.
Import Schema Inventory Sqlite InventoryRoutes.

Lemma selected_filter (db db' : database) (userId : string)
      (search category_ : option string) (p : ingredient -> bool) :
  ingredients db' = filter p (ingredients db) ->
  selected db' userId search category_
  = filter p (selected db userId search category_).
Proof.
  intros E. unfold selected. rewrite E.
  rewrite (filter_comm (own userId) p).
  destruct (given search) as [s|]; destruct (given category_) as [c|];
    try destruct (String.eqb c "all");
    rewrite ?(filter_comm _ p); reflexivity.
Qed.

End ClientFacts.

(** X11. After a deletion the client drops the item from its copy of the
    listing by its id; the result is the listing the server would give
    anew, for every search text, category and order. *)
Theorem X11_client_delete_matches_server :
  forall (db : Schema.database) (userId id_ : string)
         (search category_ sort : option string),
  exists before after : list Ingredient,
    InventoryRoutes.get db userId search category_ sort = Inventory.Json 200 before /\
    InventoryRoutes.get (fst (InventoryRoutes.delete db userId id_))
                        userId search category_ sort
    = Inventory.Json 200 after /\
    after = MainApp.deleteItem before id_.
Proof.
  intros db userId id_ search category_ sort.
  eexists. eexists. split; [reflexivity|]. split; [reflexivity|].
  unfold MainApp.deleteItem.
  rewrite (selected_filter db _ userId search category_ _ (delete_table db userId id_)).
  rewrite filter_map_swap'. f_equal.
  rewrite <- ordering_filter. apply filter_ext_in.
  intros r Hr. apply sql_order_by_In in Hr. apply selected_spec in Hr.
  destruct Hr as [_ [Hu _]]. unfold Inventory.owned. cbn.
  apply String.eqb_eq in Hu. now rewrite Hu, andb_true_r.
Qed.

(* ================================================================= *)
(** * Shelf lives *)

Section ShelfLifeFacts.
Import ReceiptParsing.

Lemma expiryDays_range (category : string) (d : Z) :
  expiryDays category = Some d -> 4 <= d <= 60.
Proof.
  unfold expiryDays, EXPIRY_DEFAULTS. cbn [find fst snd].
  repeat match goal with
         | |- context [String.eqb ?a category] => destruct (String.eqb a category)
         end;
    try (intros H; inversion H; lia).
  destruct (existsb _ inherited); intros H; inversion H; lia.
Qed.

Lemma expiryDays_shelf_life (category : string) (d : Z) :
  expiryDays category = Some d -> shelf_life category d.
Proof.
  unfold expiryDays, shelf_life.
  destruct (find _ EXPIRY_DEFAULTS) as [[c n]|] eqn:E.
  - intros H. injection H as <-. apply find_some in E. destruct E as [Hin Hc].
    apply String.eqb_eq in Hc. cbn [fst snd] in *. subst c. now left.
  - destruct (existsb _ inherited); [discriminate|].
    intros H. injection H as <-. right. split; [|reflexivity].
    intros Hin. apply in_map_iff in Hin. destruct Hin as [[c n] [Hc Hin]].
    cbn [fst] in Hc. subst c.
    pose proof (find_none _ _ E _ Hin) as Hno. cbn [fst] in Hno.
    now rewrite String.eqb_refl in Hno.
Qed.

Lemma expiryDays_own (category : string) :
  own_name category -> exists d, expiryDays category = Some d.
Proof.
  unfold own_name, expiryDays. intros H.
  destruct (find _ EXPIRY_DEFAULTS) as [kv|]; [now eexists|].
  rewrite H. now eexists.
Qed.

Lemma expiryDays_valid (category : string) :
  Schema.category_ok category = true -> exists d, expiryDays category = Some d.
Proof.
  intros H. unfold Schema.category_ok, Schema.validCategories in H.
  cbn [existsb] in H. rewrite !orb_true_iff in H.
  destruct H as [H|[H|[H|[H|[H|H]]]]]; try discriminate;
    apply String.eqb_eq in H; subst; now eexists.
Qed.

Lemma getFutureDate_valid (tz : Clock.TimeZone) (now d : Z) :
  Z.abs (days_on tz now d) <= Clock.maxTime ->
  getFutureDate tz now d = Some (isoDay (days_on tz now d)).
Proof.
  intros H. unfold getFutureDate. cbn [Clock.setDate]. rewrite daysAhead_days_on.
  now rewrite (timeClip_valid _ H).
Qed.

Lemma getFutureDate_some (tz : Clock.TimeZone) (now d e : Z) :
  getFutureDate tz now d = Some e -> e = isoDay (days_on tz now d).
Proof.
  unfold getFutureDate. cbn [Clock.setDate]. rewrite daysAhead_days_on. unfold Clock.timeClip.
  destruct (Z.abs _ <=? Clock.maxTime); [|discriminate].
  intros H. now inversion H.
Qed.

End ShelfLifeFacts.

(** X12. For a category that is no inherited property name, and while
    the dates of the coming year are valid dates, the inferred expiry date
    is the UTC date of the instant [d] days on by the local clock, with [d]
    from 1 to 365: the generator's number of days when that is an integer
    from 1 to 365, and the default of the category, from 4 to 60 days, in
    every other case.  This is the date [d] days after today when the
    clocks are set the same at both instants, and a day more or less at
    most when they are changed by no more than a day in between. *)
Theorem X12_inferred_expiry_is_bounded :
  forall (tz : Clock.TimeZone) (now : Z) (category : string)
         (answer : option (option Z)),
    own_name category ->
    (forall n, 1 <= n <= 365 -> Z.abs (days_on tz now n) <= Clock.maxTime) ->
    exists d : Z,
      ReceiptParsing.inferExpiryDate tz now category answer
      = Some (isoDay (days_on tz now d)) /\
      1 <= d <= 365 /\
      (forall days, answer = Some (Some days) -> 1 <= days <= 365 -> d = days) /\
      ((forall days, answer = Some (Some days) -> days < 1 \/ 365 < days) ->
       shelf_life category d /\ 4 <= d <= 60) /\
      (steady tz now d -> isoDay (days_on tz now d) = isoDay now + d) /\
      (Z.abs (clock_change tz now d) <= msPerDay ->
       isoDay now + d - 1 <= isoDay (days_on tz now d) <= isoDay now + d + 1).
Proof.
  intros tz now category answer Hown Hvalid.
  destruct (expiryDays_own category Hown) as [d0 Ed].
  pose proof (expiryDays_range category d0 Ed) as Hd0.
  assert (Hfb : match ReceiptParsing.expiryDays category with
                | Some days => ReceiptParsing.getFutureDate tz now days
                | None => None
                end = Some (isoDay (days_on tz now d0))).
  { rewrite Ed. apply getFutureDate_valid, Hvalid. lia. }
  assert (Hdays : forall d, steady tz now d ->
                            isoDay (days_on tz now d) = isoDay now + d)
    by (intros d; apply steady_day).
  assert (Hnear : forall d, Z.abs (clock_change tz now d) <= msPerDay ->
                            isoDay now + d - 1 <= isoDay (days_on tz now d)
                            <= isoDay now + d + 1)
    by (intros d; apply changed_day).
  unfold ReceiptParsing.inferExpiryDate.
  destruct answer as [[days|]|].
  - destruct ((days <? 1) || (365 <? days)) eqn:E.
    + exists d0. rewrite Hfb. split; [reflexivity|]. split; [lia|].
      apply orb_true_iff in E. rewrite !Z.ltb_lt in E.
      split; [|split; [|split; [apply Hdays | apply Hnear]]].
      * intros days' H Hr. inversion H; subst. lia.
      * intros _. split; [now apply expiryDays_shelf_life | exact Hd0].
    + apply orb_false_iff in E. rewrite !Z.ltb_ge in E.
      exists days. rewrite getFutureDate_valid by (apply Hvalid; lia).
      split; [reflexivity|]. split; [lia|].
      split; [|split; [|split; [apply Hdays | apply Hnear]]].
      * intros days' H _. now inversion H.
      * intros H. specialize (H days eq_refl). lia.
  - exists d0. rewrite Hfb. split; [reflexivity|]. split; [lia|].
    split; [|split; [|split; [apply Hdays | apply Hnear]]].
    + intros days H. discriminate.
    + intros _. split; [now apply expiryDays_shelf_life | exact Hd0].
  - exists d0. rewrite Hfb. split; [reflexivity|]. split; [lia|].
    split; [|split; [|split; [apply Hdays | apply Hnear]]].
    + intros days H. discriminate.
    + intros _. split; [now apply expiryDays_shelf_life | exact Hd0].
Qed.

Section SampleZone.

(** New York is four or five hours behind. *)
Lemma new_york_offset (t : Z) (isUTC : bool) :
  - (5 * 3600000) <= Clock.localTZA new_york_2024 t isUTC <= - (4 * 3600000).
Proof.
  cbn [Clock.localTZA new_york_2024].
  destruct (_ || _); lia.
Qed.

Lemma new_york_change (now n : Z) : Z.abs (clock_change new_york_2024 now n) <= 3600000.
Proof.
  unfold clock_change.
  pose proof (new_york_offset now true).
  pose proof (new_york_offset (now + Clock.localTZA new_york_2024 now true
                               + n * msPerDay) false).
  lia.
Qed.

End SampleZone.

(** The theorem in New York two days before the clocks are put forward,
    the generator's answer being out of range: the default of four days
    for meat gives a date three days after today. *)
Lemma X12_inferred_expiry_is_bounded_witness :
  own_name "Meat" /\
  (forall n, 1 <= n <= 365 ->
             Z.abs (days_on new_york_2024 march_8th n) <= Clock.maxTime) /\
  ReceiptParsing.inferExpiryDate new_york_2024 march_8th "Meat" (Some (Some 400))
  = Some (isoDay march_8th + 3).
Proof.
  assert (H : own_name "Meat") by reflexivity.
  assert (Hvalid : forall n, 1 <= n <= 365 ->
                             Z.abs (days_on new_york_2024 march_8th n)
                             <= Clock.maxTime).
  { intros n Hn. unfold days_on.
    pose proof (new_york_change march_8th n) as Hc.
    set (c := clock_change new_york_2024 march_8th n) in *. clearbody c.
    unfold march_8th, Clock.maxTime. change msPerDay with 86400000. lia. }
  split; [exact H|]. split; [exact Hvalid|].
  destruct (X12_inferred_expiry_is_bounded new_york_2024 march_8th "Meat"
                                          (Some (Some 400)) H Hvalid)
    as [d [E [_ [_ [Hdefault _]]]]].
  destruct Hdefault as [Hlife _].
  { intros days Hdays. injection Hdays as <-. right. lia. }
  assert (Ed : d = 4).
  { destruct Hlife as [Hin | [Hno _]].
    - cbn in Hin. repeat (destruct Hin as [Hin | Hin]; [congruence|]). destruct Hin.
    - exfalso. apply Hno. cbn. tauto. }
  rewrite E, Ed. now rewrite four_days_across_the_change.
Defined.

(* ================================================================= *)
(** * Scanned receipts *)

Section ReceiptFacts.
Context {R : Rounding} {F : Faithful R}.
Import ReceiptParsing.

Lemma all_or_none_some {A : Type} (l : list (option A)) (xs : list A) :
  all_or_none l = Some xs -> l = map Some xs.
Proof.
  revert xs. induction l as [|o l IH]; intros xs H; simpl in H.
  - now inversion H.
  - destruct o as [x|]; [|discriminate].
    destruct (all_or_none l) as [ys|]; [|discriminate].
    inversion H; subst. simpl. now rewrite (IH ys).
Qed.

Lemma mapi_from_some {A B : Type} (f : nat -> A -> option B) (l : list A) :
  forall (i : nat) (ys : list B),
    mapi_from f i l = map Some ys ->
    Forall2 (fun x y => exists j, f j x = Some y) l ys.
Proof.
  induction l as [|x l IH]; intros i ys H; destruct ys as [|y ys];
    simpl in H; try discriminate; constructor.
  - inversion H. now exists i.
  - inversion H. eapply IH. eassumption.
Qed.

Lemma parseReceiptText_items (tz : Clock.TimeZone) (uuidv4 : nat -> string) (now : Z)
      (parsed : list parsed_item) (items : list Ingredient) :
  parseReceiptText tz uuidv4 now parsed = Some items ->
  Forall2 (fun p i => exists j, receipt_item tz now (uuidv4 j) p = Some i) parsed items.
Proof.
  intros H. apply all_or_none_some in H.
  apply (mapi_from_some _ _ _ _ H).
Qed.

Lemma quantity_or_one_nonempty (q : option string) : quantity_or_one q <> ""%string.
Proof.
  destruct q as [s|]; simpl; [|discriminate].
  destruct (String.eqb s "") eqn:E; [discriminate | now apply String.eqb_neq].
Qed.

(** An item dated four to sixty days ahead is fresh for the client. *)
Lemma fresh_ahead (now d : Z) :
  4 <= d <= 60 ->
  SmartPantry.status (SmartPantry.getExpiryStatus now (isoDay now + d)) = Fresh.
Proof.
  intros Hd.
  pose proof (getExpiryStatus_calendar now (isoDay now + d)) as H.
  cbv zeta in H.
  replace (isoDay now + d - isoDay now) with d in H by lia.
  destruct H as [_ H]; [lia|]. rewrite H. unfold bucket_of_days.
  replace (d <? 0) with false by (symmetry; apply Z.ltb_ge; lia).
  now replace (d <=? 3) with false by (symmetry; apply Z.leb_gt; lia).
Qed.

Lemma receipt_item_spec (tz : Clock.TimeZone) (now : Z) (id_ : string)
      (p : parsed_item) (i : Ingredient) :
  receipt_item tz now id_ p = Some i ->
  exists d, expiryDays (p_category p) = Some d /\
            i_id i = id_ /\ i_name i = p_name p /\ i_category i = p_category p /\
            i_quantity i = quantity_or_one (p_quantity p) /\
            i_expiryDate i = isoDay (days_on tz now d).
Proof.
  unfold receipt_item. destruct (expiryDays (p_category p)) as [d|]; [|discriminate].
  destruct (getFutureDate tz now d) as [e|] eqn:Ee; [|discriminate].
  apply getFutureDate_some in Ee.
  intros H. inversion H; subst. exists d.
  cbn [i_id i_name i_category i_quantity i_expiryDate]. now repeat split.
Qed.

End ReceiptFacts.

(** A packet of meat scanned in New York two days before the clocks are
    put forward is dated three days ahead, and the client calls it
    expiring at once. *)
Lemma meat_scanned_before_the_change :
  ReceiptParsing.parseReceiptText new_york_2024 sample_uuid march_8th packet_of_beef
  = Some [{| i_id := "id-0"; i_name := "Beef"; i_category := "Meat"; i_quantity := "1";
             i_expiryDate := isoDay march_8th + 3; i_confidence := 1 |}] /\
  SmartPantry.status (SmartPantry.getExpiryStatus march_8th (isoDay march_8th + 3))
  = ExpiringSoon.
Proof. split; vm_compute; reflexivity. Qed.

(** X13. Every item [parseReceiptText] returns carries the name and the
    category of the answer, in the answer's order, and a quantity that is
    never empty; it is dated at the UTC date of the instant [d] days on by
    the local clock, [d] being the shelf life of its category, from 4 to
    60 days.
    When the clocks are set the same at both instants this is [d] days
    after the day of the scan, and the client calls the item fresh; when
    they are changed by a day at most in between, the date is 3 to 61
    days after the day of the scan. *)
Theorem X13_scanned_items_are_fresh :
  forall (tz : Clock.TimeZone) (uuidv4 : nat -> string) (now : Z)
         (parsed : list ReceiptParsing.parsed_item) (items : list Ingredient),
    ReceiptParsing.parseReceiptText tz uuidv4 now parsed = Some items ->
    map i_name items = map ReceiptParsing.p_name parsed /\
    map i_category items = map ReceiptParsing.p_category parsed /\
    Forall (fun i =>
              i_quantity i <> ""%string /\
              exists d : Z,
                shelf_life (i_category i) d /\ 4 <= d <= 60 /\
                i_expiryDate i = isoDay (days_on tz now d) /\
                (steady tz now d ->
                 i_expiryDate i = isoDay now + d /\
                 SmartPantry.status (SmartPantry.getExpiryStatus now (i_expiryDate i))
                 = Fresh) /\
                (Z.abs (clock_change tz now d) <= msPerDay ->
                 3 <= i_expiryDate i - isoDay now <= 61)) items.
Proof.
  intros tz uuidv4 now parsed items H. apply parseReceiptText_items in H.
  induction H as [|p i parsed items [j Hj] _ IH].
  - repeat split. constructor.
  - destruct IH as [IH1 [IH2 IH3]].
    apply receipt_item_spec in Hj.
    destruct Hj as [d [Ed [_ [En [Ec [Eq Ee]]]]]].
    pose proof (expiryDays_range _ _ Ed) as Hd.
    cbn [map]. rewrite IH1, IH2, En, Ec. split; [reflexivity|]. split; [reflexivity|].
    constructor; [|exact IH3].
    split; [rewrite Eq; apply quantity_or_one_nonempty|].
    exists d. split; [rewrite Ec; now apply expiryDays_shelf_life|].
    split; [exact Hd|]. split; [exact Ee|].
    rewrite Ee. split.
    + intros Hs. rewrite (steady_day _ _ _ Hs). split; [reflexivity|].
      now apply fresh_ahead.
    + intros Hc. pose proof (changed_day _ _ _ Hc). lia.
Qed.

(** The theorem in New York two days before the clocks are put forward:
    a packet of meat, of a shelf life of four days, is dated three days
    after the day of the scan. *)
Lemma X13_scanned_items_are_fresh_witness :
  ReceiptParsing.parseReceiptText new_york_2024 sample_uuid march_8th packet_of_beef
  = Some [ {| i_id := "id-0"; i_name := "Beef"; i_category := "Meat";
              i_quantity := "1"; i_expiryDate := isoDay march_8th + 3;
              i_confidence := 1 |} ] /\
  Forall (fun i => i_quantity i <> ""%string /\
                   3 <= i_expiryDate i - isoDay march_8th <= 61)
         [ {| i_id := "id-0"; i_name := "Beef"; i_category := "Meat";
              i_quantity := "1"; i_expiryDate := isoDay march_8th + 3;
              i_confidence := 1 |} ].
Proof.
  assert (H : ReceiptParsing.parseReceiptText new_york_2024 sample_uuid march_8th
                                              packet_of_beef
              = Some [ {| i_id := "id-0"; i_name := "Beef"; i_category := "Meat";
                          i_quantity := "1"; i_expiryDate := isoDay march_8th + 3;
                          i_confidence := 1 |} ])
    by reflexivity.
  split; [exact H|].
  pose proof (proj2 (proj2 (X13_scanned_items_are_fresh _ _ _ _ _ H))) as Hall.
  eapply Forall_impl; [|exact Hall]. intros i [Hq [d [_ [_ [_ [_ Hnear]]]]]].
  split; [exact Hq|]. apply Hnear.
  pose proof (new_york_change march_8th d) as Hc. change msPerDay with 86400000. lia.
Defined.

(* ================================================================= *)
(** * From the scan to the store *)

Section ImportFacts.
Import Schema Inventory.

Lemma references_user_In (accounts : list user) (userId : string) :
  references_user accounts userId = true <-> In userId (map u_id accounts).
Proof.
  unfold references_user. rewrite existsb_exists, in_map_iff. split.
  - intros [u [Hin E]]. apply String.eqb_eq in E. now exists u.
  - intros [u [E Hin]]. exists u. split; [exact Hin | now apply String.eqb_eq].
Qed.

Lemma insert_loop_of_items (uuidv4 : nat -> string) (now : Z) (accounts : list user)
      (userId : string) (items : list Ingredient) :
  references_user accounts userId = true ->
  forall (n : nat) (tbl : list ingredient),
    Forall (fun i => category_ok (i_category i) = true /\ i_id i <> ""%string) items ->
    NoDup (map i_id items) ->
    (forall i, In i items -> ~ In (i_id i) (map id tbl)) ->
    exists rows : list ingredient,
      insert_loop uuidv4 n now accounts userId tbl (map Api.item_json items)
      = Some (tbl ++ rows) /\
      map as_Ingredient rows = items /\
      Forall (fun r => user_id r = userId) rows.
Proof.
  intros Huser.
  induction items as [|i items IH]; intros n tbl Hall Hnd Hfresh.
  - exists []. simpl. now rewrite app_nil_r.
  - inversion Hall as [|? ? [Hcat Hid] Hall']; subst.
    inversion Hnd as [|? ? Hni Hnd']; subst.
    cbn [map insert_loop]. unfold id_or_fresh. cbn [Api.item_json b_id].
    apply String.eqb_neq in Hid. rewrite Hid.
    unfold insert_ingredient.
    cbn [Api.item_json b_name b_category b_quantity b_expiryDate b_confidence].
    assert (Ex : existsb (fun r => String.eqb (id r) (i_id i)) tbl = false).
    { destruct (existsb _ tbl) eqn:E; [|reflexivity].
      apply existsb_id in E. exfalso. apply (Hfresh i); [now left | exact E]. }
    rewrite Ex, Hcat, Huser. cbn [negb].
    set (row := {| id := i_id i; user_id := userId; name := i_name i;
                   category := i_category i; quantity := i_quantity i;
                   expiry_date := i_expiryDate i; confidence := i_confidence i;
                   created_at := now; updated_at := now |}).
    destruct (IH n (tbl ++ [row]) Hall' Hnd') as [rows [E [Hm Hu]]].
    { intros j Hj Hin. rewrite map_app in Hin. apply in_app_or in Hin.
      destruct Hin as [Hin|[Hin|[]]].
      - apply (Hfresh j); [now right | exact Hin].
      - cbn in Hin. apply Hni. rewrite Hin. now apply in_map. }
    exists (row :: rows). rewrite E, <- app_assoc. split; [reflexivity|].
    split; [|now constructor].
    cbn [map]. rewrite Hm. f_equal. now destruct i.
Qed.

(** Nothing is inserted for a requester who is no user. *)
Lemma insert_loop_unregistered (uuidv4 : nat -> string) (now : Z)
      (accounts : list user) (userId : string) (item : item_body)
      (items : list item_body) (n : nat) (tbl : list ingredient) :
  references_user accounts userId = false ->
  insert_loop uuidv4 n now accounts userId tbl (item :: items) = None.
Proof.
  intros Huser. cbn [insert_loop].
  destruct (id_or_fresh uuidv4 n item) as [id_ n'].
  unfold insert_ingredient.
  destruct (b_name item), (b_category item), (b_quantity item),
           (b_expiryDate item), (b_confidence item); try reflexivity.
  destruct (existsb _ tbl); [reflexivity|].
  destruct (negb (category_ok _)); [reflexivity|].
  now rewrite Huser.
Qed.

End ImportFacts.

(** X14. What the scan returns goes to the store through the bulk import
    as a whole or not at all.  When every category of the answer is one of
    the five, the ids are new and the requester is a registered user, each
    item becomes a row of the requester and the answer is 201; when one
    category is not, which the scan lets pass with a default shelf life, or
    when the requester has no row in the table of users, the import
    answers 500 and stores nothing. *)
Theorem X14_scanned_receipt_is_imported_whole_or_not :
  forall (tz : Clock.TimeZone) (uuidv4 uuidv4' : nat -> string) (now now' : Z)
         (db : Schema.database) (userId : string)
         (parsed : list ReceiptParsing.parsed_item) (items : list Ingredient),
    ReceiptParsing.parseReceiptText tz uuidv4 now parsed = Some items ->
    (Exists (fun p => Schema.category_ok (ReceiptParsing.p_category p) = false) parsed ->
     Api.addInventoryItems uuidv4' now' db userId items
     = (db, Inventory.Failure 500 "Failed to add items")) /\
    (~ In userId (map Schema.u_id (Schema.users db)) -> parsed <> [] ->
     Api.addInventoryItems uuidv4' now' db userId items
     = (db, Inventory.Failure 500 "Failed to add items")) /\
    (In userId (map Schema.u_id (Schema.users db)) ->
     Forall (fun p => Schema.category_ok (ReceiptParsing.p_category p) = true) parsed ->
     NoDup (map i_id items) ->
     Forall (fun i => i_id i <> ""%string /\
                      ~ In (i_id i) (map Schema.id (Schema.ingredients db))) items ->
     exists rows : list Schema.ingredient,
       Api.addInventoryItems uuidv4' now' db userId items
       = (Inventory.set_ingredients db (Schema.ingredients db ++ rows),
          Inventory.Json 201 (List.length parsed)) /\
       map Inventory.as_Ingredient rows = items /\
       Forall (fun r => Schema.user_id r = userId) rows).
Proof.
  intros tz uuidv4 uuidv4' now now' db userId parsed items H.
  pose proof (scanned_items_shape := parseReceiptText_items (R := binary64) _ _ _ _ _ H).
  assert (Hcat : map i_category items = map ReceiptParsing.p_category parsed).
  { clear H. induction scanned_items_shape as [|p i ps is_ [j Hj] _ IH]; [reflexivity|].
    apply receipt_item_spec in Hj. destruct Hj as [d [_ [_ [_ [Ec _]]]]].
    cbn [map]. now rewrite IH, Ec. }
  assert (Hlen : List.length items = List.length parsed).
  { rewrite <- (length_map i_category items), Hcat. apply length_map. }
  unfold Api.addInventoryItems, Inventory.bulk. split; [|split].
  - intros Hbad. rewrite insert_loop_bad_category; [reflexivity|].
    apply Exists_exists in Hbad. destruct Hbad as [p [Hp Hc]].
    assert (Hin : In (ReceiptParsing.p_category p) (map i_category items)).
    { rewrite Hcat. now apply in_map. }
    apply in_map_iff in Hin. destruct Hin as [i [Ei Hi]].
    apply Exists_exists. exists (Api.item_json i). split; [now apply in_map|].
    exists (i_category i). split; [reflexivity|]. now rewrite Ei.
  - intros Hno Hsome.
    destruct items as [|i items].
    { destruct parsed; [now elim Hsome | discriminate]. }
    cbn [map]. rewrite insert_loop_unregistered; [reflexivity|].
    destruct (Inventory.references_user (Schema.users db) userId) eqn:E; [|reflexivity].
    apply references_user_In in E. contradiction.
  - intros Huser Hgood Hnd Hids.
    apply references_user_In in Huser.
    destruct (insert_loop_of_items uuidv4' now' (Schema.users db) userId items Huser
                                   0 (Schema.ingredients db))
      as [rows [E [Hm Hu]]].
    + apply Forall_forall. intros i Hi. split.
      * assert (Hin : In (i_category i) (map ReceiptParsing.p_category parsed)).
        { rewrite <- Hcat. now apply in_map. }
        apply in_map_iff in Hin. destruct Hin as [p [Ep Hp]].
        rewrite Forall_forall in Hgood. rewrite <- Ep. now apply Hgood.
      * rewrite Forall_forall in Hids. now apply Hids.
    + exact Hnd.
    + intros i Hi. rewrite Forall_forall in Hids. now apply Hids.
    + exists rows. rewrite E, length_map, Hlen. now repeat split.
Qed.

(** The theorem at the account of Ann, who holds no item yet. *)
Lemma X14_scanned_receipt_is_imported_whole_or_not_witness :
  ReceiptParsing.parseReceiptText new_york_2024 sample_uuid june_noon receipt_of_two
  = Some [ {| i_id := "id-0"; i_name := "Milk"; i_category := "Dairy";
              i_quantity := "1 l"; i_expiryDate := 19898; i_confidence := 9 # 10 |};
           {| i_id := "id-1"; i_name := "Butter"; i_category := "Dairy";
              i_quantity := "1"; i_expiryDate := 19898;
              i_confidence := fl (17 # 20) |} ] /\
  In "u1"%string (map Schema.u_id (Schema.users store_with_ann)) /\
  snd (Api.addInventoryItems sample_uuid june_noon store_with_ann "u1"
         [ {| i_id := "id-0"; i_name := "Milk"; i_category := "Dairy";
              i_quantity := "1 l"; i_expiryDate := 19898; i_confidence := 9 # 10 |};
           {| i_id := "id-1"; i_name := "Butter"; i_category := "Dairy";
              i_quantity := "1"; i_expiryDate := 19898;
              i_confidence := fl (17 # 20) |} ])
  = Inventory.Json 201 2%nat.
Proof.
  assert (H : ReceiptParsing.parseReceiptText new_york_2024 sample_uuid june_noon
                                              receipt_of_two
              = Some [ {| i_id := "id-0"; i_name := "Milk"; i_category := "Dairy";
                          i_quantity := "1 l"; i_expiryDate := 19898;
                          i_confidence := 9 # 10 |};
                       {| i_id := "id-1"; i_name := "Butter"; i_category := "Dairy";
                          i_quantity := "1"; i_expiryDate := 19898;
                          i_confidence := fl (17 # 20) |} ])
    by reflexivity.
  assert (Hu : In "u1"%string (map Schema.u_id (Schema.users store_with_ann)))
    by (now left).
  split; [exact H|]. split; [exact Hu|].
  destruct (proj2 (proj2 (X14_scanned_receipt_is_imported_whole_or_not
                            new_york_2024 sample_uuid sample_uuid june_noon june_noon
                            store_with_ann "u1" _ _ H)) Hu)
    as [rows [E _]].
  - repeat constructor.
  - repeat constructor; simpl; intuition discriminate.
  - repeat constructor; simpl; intuition discriminate.
  - rewrite E. reflexivity.
Defined.

(* ================================================================= *)
(** * Asking for recipes *)

Section RecipeRouteFacts.
Context {R : Rounding}.

Lemma cookbook_scores_zero (uuidv4 : nat -> string) (parsed : list candidate) :
  let recipes := Gemini.generateRecipeSuggestions uuidv4 (Some (@nil Ingredient)) parsed in
  Forall (fun r => matchPercentage r = of_Z 0) recipes /\
  List.length recipes = List.length parsed.
Proof.
  unfold Gemini.generateRecipeSuggestions, Gemini.scored. split.
  - apply array_sort_Forall.
    apply (mapi_from_Forall (fun _ => True)); [|now apply Forall_forall].
    intros i x _. reflexivity.
  - rewrite <- (Permutation_length (array_sort_perm _ _)). apply mapi_from_length.
Qed.

Lemma inventory_of_nil (db : Schema.database) (userId : string) :
  RecipesRoute.inventory_of db userId = [] <->
  forall r, In r (Schema.ingredients db) -> Schema.user_id r <> userId.
Proof.
  unfold RecipesRoute.inventory_of. split.
  - intros H r Hr Hu.
    assert (Hin : In r (Sqlite.order_by InventoryRoutes.by_expiry
                          (filter (InventoryRoutes.own userId) (Schema.ingredients db)))).
    { apply sql_order_by_In. apply filter_In. split; [exact Hr|].
      now apply String.eqb_eq. }
    apply (in_map Inventory.as_Ingredient) in Hin. now rewrite H in Hin.
  - intros H.
    replace (filter (InventoryRoutes.own userId) (Schema.ingredients db))
      with (@nil Schema.ingredient); [reflexivity|].
    symmetry. induction (Schema.ingredients db) as [|r l IH]; [reflexivity|].
    simpl. unfold InventoryRoutes.own at 1.
    replace (String.eqb (Schema.user_id r) userId) with false.
    + apply IH. intros x Hx. apply H. now right.
    + symmetry. apply String.eqb_neq. apply H. now left.
Qed.

End RecipeRouteFacts.

(** X15. A recipe request of the client is answered from an inventory that
    is not empty, the client's own list or else the stored one, or it is
    refused with 400 because there is neither: through the client the
    generator never runs in cookbook mode.  A direct [POST] without
    ingredients by a user who has stored none does run in cookbook mode, and
    every recipe of its answer then has the match 0. *)
Theorem X15_recipe_requests_and_cookbook_mode :
  forall (uuidv4 : nat -> string) (db : Schema.database) (userId : string)
         (ingredients : option (list Ingredient)) (parsed : list candidate),
    let stored := RecipesRoute.inventory_of db userId in
    let answer := Api.getRecipeSuggestions uuidv4 db userId ingredients parsed in
    ((exists l : list Ingredient,
         Gemini.hasIngredients (Some l) = true /\
         (l = or_empty ingredients \/
          (Gemini.hasIngredients ingredients = false /\ l = stored)) /\
         answer = Inventory.Json 200
                    (Gemini.generateRecipeSuggestions uuidv4 (Some l) parsed))
     \/
     (Gemini.hasIngredients ingredients = false /\ stored = [] /\
      answer = Inventory.Failure 400 "No ingredients in inventory. Add items first.")) /\
    (stored = [] <->
     forall r, In r (Schema.ingredients db) -> Schema.user_id r <> userId) /\
    (RecipesRoute.none_given ingredients = true -> stored = [] ->
     exists recipes : list Recipe,
       RecipesRoute.suggest_post uuidv4 db userId ingredients parsed
       = Inventory.Json 200 recipes /\
       Forall (fun r => matchPercentage r = of_Z 0) recipes /\
       List.length recipes = List.length parsed).
Proof.
  intros uuidv4 db userId ingredients parsed stored answer.
  split; [|split; [apply inventory_of_nil|]].
  - unfold answer, Api.getRecipeSuggestions.
    destruct (Gemini.hasIngredients ingredients) eqn:Eh.
    + left. exists (or_empty ingredients).
      destruct ingredients as [[|i l]|]; try discriminate.
      split; [reflexivity|]. split; [now left | reflexivity].
    + unfold RecipesRoute.suggest_get. fold stored.
      destruct stored as [|i l] eqn:Es.
      * right. now repeat split.
      * left. exists (i :: l). split; [reflexivity|]. split; [now right | reflexivity].
  - intros Hnone Hstored. unfold RecipesRoute.suggest_post. rewrite Hnone.
    fold stored. rewrite Hstored. cbn [or_empty].
    eexists. split; [reflexivity|]. apply cookbook_scores_zero.
Qed.

(* ================================================================= *)
(** * Push subscriptions *)

Section SubscriptionFacts.
Import Inventory InventoryRoutes Subscriptions.

Lemma removeSubscription_In (tbl : list push_subscription) (e : string)
      (s : push_subscription) :
  In s (removeSubscription tbl e) <-> In s tbl /\ endpoint s <> e.
Proof.
  unfold removeSubscription. rewrite filter_In, negb_true_iff, String.eqb_neq.
  reflexivity.
Qed.


Lemma removeSubscription_fresh (tbl : list push_subscription) (e : string) :
  ~ In e (map endpoint tbl) -> removeSubscription tbl e = tbl.
Proof.
  intros H. apply filter_all. intros s Hs. apply negb_true_iff, String.eqb_neq.
  intros E. apply H. rewrite <- E. now apply in_map.
Qed.

Lemma given_nonempty (s : string) : s <> ""%string -> given (Some s) = Some s.
Proof. intros H. apply String.eqb_neq in H. simpl. now rewrite H. Qed.


Lemma filter_filter {A : Type} (p q : A -> bool) (l : list A) :
  filter p (filter q l) = filter (fun x => q x && p x) l.
Proof.
  induction l as [|x l IH]; simpl; [reflexivity|].
  destruct (q x); simpl; [|exact IH]. destruct (p x); now rewrite IH.
Qed.

(** The loop removes the rows whose endpoint is the endpoint of a
    subscription the push service has lost. *)
Lemma fold_push_one (webpush : push_subscription -> outcome)
      (subs : list push_subscription) :
  forall tbl,
    fold_left (push_one webpush) subs tbl
    = filter (fun s => negb (existsb (fun sub => gone (webpush sub)
                                                 && String.eqb (endpoint sub) (endpoint s))
                                     subs)) tbl.
Proof.
  induction subs as [|sub subs IH]; intros tbl; cbn [fold_left existsb].
  - symmetry. now apply filter_all.
  - rewrite IH. unfold push_one. destruct (gone (webpush sub)); cbn [andb orb].
    + unfold removeSubscription. rewrite filter_filter. apply filter_ext.
      intros s. rewrite (String.eqb_sym (endpoint sub) (endpoint s)).
      now destruct (String.eqb (endpoint s) (endpoint sub)).
    + reflexivity.
Qed.

Lemma unique_endpoint (tbl : list push_subscription) (a b : push_subscription) :
  NoDup (map endpoint tbl) -> In a tbl -> In b tbl -> endpoint a = endpoint b -> a = b.
Proof.
  induction tbl as [|x tbl IH]; simpl; intros Hnd Ha Hb E; [contradiction|].
  inversion Hnd as [|? ? Hx Hnd']; subst.
  destruct Ha as [<-|Ha], Hb as [<-|Hb]; try reflexivity.
  - exfalso. apply Hx. rewrite E. now apply in_map.
  - exfalso. apply Hx. rewrite <- E. now apply in_map.
  - now apply IH.
Qed.

End SubscriptionFacts.



(** X17. A subscription request that lacks a key is answered with 500, and
    yet the row that held its endpoint before is deleted: the two statements
    of [saveSubscription] are no transaction.  A request without endpoint or
    without keys is refused with 400 and changes nothing. *)
Theorem X17_failed_subscribe_deletes_the_old_row :
  forall (id_ : string) (now : Z) (tbl : list Subscriptions.push_subscription)
         (userId endpoint_ : string) (keys : Subscriptions.keys_body),
    endpoint_ <> ""%string ->
    Subscriptions.k_p256dh keys = None \/ Subscriptions.k_auth keys = None ->
    let r := Subscriptions.subscribe id_ now tbl userId
               (Some {| Subscriptions.s_endpoint := Some endpoint_;
                        Subscriptions.s_keys := Some keys |}) in
    r = (Subscriptions.removeSubscription tbl endpoint_,
         Inventory.Failure 500 "Failed to subscribe") /\
    (forall s, In s tbl -> Subscriptions.endpoint s = endpoint_ -> ~ In s (fst r)) /\
    (forall e, Subscriptions.subscribe id_ now tbl userId
                 (Some {| Subscriptions.s_endpoint := e; Subscriptions.s_keys := None |})
               = (tbl, Inventory.Failure 400 "Invalid subscription")) /\
    (forall k, Subscriptions.subscribe id_ now tbl userId
                 (Some {| Subscriptions.s_endpoint := None; Subscriptions.s_keys := k |})
               = (tbl, Inventory.Failure 400 "Invalid subscription")) /\
    Subscriptions.subscribe id_ now tbl userId None
    = (tbl, Inventory.Failure 400 "Invalid subscription").
Proof.
  intros id_ now tbl userId endpoint_ keys He Hk r.
  assert (Hr : r = (Subscriptions.removeSubscription tbl endpoint_,
                    Inventory.Failure 500 "Failed to subscribe")).
  { unfold r, Subscriptions.subscribe.
    cbn [Subscriptions.s_endpoint Subscriptions.s_keys].
    rewrite (given_nonempty _ He).
    unfold Subscriptions.saveSubscription, Subscriptions.insert_subscription.
    destruct Hk as [-> | ->]; [reflexivity|].
    now destruct (Subscriptions.k_p256dh keys). }
  split; [exact Hr|]. rewrite Hr. cbn [fst]. split; [|split; [|split]].
  - intros s _ E H. apply removeSubscription_In in H. tauto.
  - intros e. unfold Subscriptions.subscribe. cbn.
    now destruct (InventoryRoutes.given e).
  - intros k. reflexivity.
  - reflexivity.
Qed.

Lemma X17_failed_subscribe_deletes_the_old_row_witness :
  "https://push/1"%string <> ""%string /\
  Subscriptions.subscribe "s2" june_noon one_subscription "u2"
    (Some {| Subscriptions.s_endpoint := Some "https://push/1"%string;
             Subscriptions.s_keys :=
               Some {| Subscriptions.k_p256dh := Some "k1"%string;
                       Subscriptions.k_auth := None |} |})
  = ([], Inventory.Failure 500 "Failed to subscribe").
Proof.
  assert (H : "https://push/1"%string <> ""%string) by discriminate.
  split; [exact H|].
  exact (proj1 (X17_failed_subscribe_deletes_the_old_row "s2" june_noon one_subscription
                  "u2" "https://push/1"
                  {| Subscriptions.k_p256dh := Some "k1"%string;
                     Subscriptions.k_auth := None |}
                  H (or_intror eq_refl))).
Defined.

(** X18. Sending to a user pushes to each of the user's subscriptions once, and
    removes those the push service answers 404 or 410 for: with unique
    endpoints the table afterwards is the table without these rows, no
    subscription of another user is touched, and the next sending no longer
    reaches a lost endpoint. *)
Theorem X18_lost_subscriptions_are_removed :
  forall (webpush : Subscriptions.push_subscription -> Subscriptions.outcome)
         (tbl : list Subscriptions.push_subscription) (userId : string),
    NoDup (map Subscriptions.endpoint tbl) ->
    let r := Subscriptions.sendNotificationToUser webpush tbl userId in
    snd r = filter (fun s => String.eqb (Subscriptions.ps_user_id s) userId) tbl /\
    fst r = filter (fun s => negb (String.eqb (Subscriptions.ps_user_id s) userId
                                   && Subscriptions.gone (webpush s))) tbl /\
    (forall s, Subscriptions.ps_user_id s <> userId -> (In s (fst r) <-> In s tbl)) /\
    (forall s, In s (snd (Subscriptions.sendNotificationToUser webpush (fst r) userId)) ->
               Subscriptions.gone (webpush s) = false).
Proof.
  intros webpush tbl userId Hnd r.
  assert (Hfst : fst r = filter (fun s => negb (String.eqb (Subscriptions.ps_user_id s) userId
                                                && Subscriptions.gone (webpush s))) tbl).
  { unfold r, Subscriptions.sendNotificationToUser. cbn [fst].
    rewrite fold_push_one. apply filter_ext_in. intros s Hs. f_equal.
    destruct (String.eqb (Subscriptions.ps_user_id s) userId
              && Subscriptions.gone (webpush s)) eqn:E.
    - apply andb_true_iff in E. destruct E as [E1 E2].
      apply existsb_exists. exists s. split.
      + apply filter_In. now split.
      + now rewrite E2, String.eqb_refl.
    - destruct (existsb _ _) eqn:Ex; [|reflexivity].
      apply existsb_exists in Ex. destruct Ex as [sub [Hsub Hb]].
      apply filter_In in Hsub. destruct Hsub as [Hsub Hu].
      apply andb_true_iff in Hb. destruct Hb as [Hg He].
      apply String.eqb_eq in He.
      assert (sub = s) by (eapply unique_endpoint; eassumption). subst sub.
      now rewrite Hu, Hg in E. }
  split; [reflexivity|]. split; [exact Hfst|]. split.
  - intros s Hne. rewrite Hfst, filter_In.
    apply String.eqb_neq in Hne. rewrite Hne. cbn. tauto.
  - intros s Hs. unfold Subscriptions.sendNotificationToUser in Hs. cbn [snd] in Hs.
    rewrite Hfst in Hs. apply filter_In in Hs. destruct Hs as [Hs Hu].
    apply filter_In in Hs. destruct Hs as [_ Hb].
    rewrite Hu in Hb. cbn in Hb. now apply negb_true_iff in Hb.
Qed.

Lemma X18_lost_subscriptions_are_removed_witness :
  NoDup (map Subscriptions.endpoint one_subscription) /\
  Subscriptions.sendNotificationToUser all_gone one_subscription "u2"
  = ([], one_subscription).
Proof.
  assert (H : NoDup (map Subscriptions.endpoint one_subscription)).
  { repeat constructor. intros []. }
  split; [exact H|].
  destruct (X18_lost_subscriptions_are_removed all_gone one_subscription "u2" H)
    as [H1 [H2 _]].
  rewrite (surjective_pairing (Subscriptions.sendNotificationToUser _ _ _)).
  now rewrite H1, H2.
Defined.

(* ================================================================= *)
(** * Notification preferences *)

Section PreferenceFacts.
Import Schema Inventory Preferences.

Lemma find_map_update {A : Type} (p : A -> bool) (f : A -> A) (l : list A) :
  (forall x, p (f x) = p x) ->
  find p (map (fun x => if p x then f x else x) l) = option_map f (find p l).
Proof.
  intros Hp. induction l as [|x l IH]; simpl; [reflexivity|].
  destruct (p x) eqn:E.
  - now rewrite Hp, E.
  - now rewrite E.
Qed.

Lemma find_existsb_false {A : Type} (p : A -> bool) (l : list A) :
  find p l = None <-> existsb p l = false.
Proof.
  induction l as [|x l IH]; simpl; [tauto|].
  destruct (p x); simpl; [split; discriminate | exact IH].
Qed.

Lemma select_after_upsert (db : database) (userId : string) (body : preferences_body) :
  select_preferences (set_preferences db (upsert (notification_preferences db) userId body))
                     userId
  = match select_preferences db userId with
    | Some np => Some (update_preference body np)
    | None => Some {| np_user_id := userId;
                      expiry_days_before := Some (nullish (expiryDaysBefore body) 3);
                      daily_summary := Some (nullish (dailySummary body) 1);
                      notify_time := Some (nullish (notifyTime body) "09:00"%string);
                      enabled := Some (nullish (enabled_ body) 1) |}
    end.
Proof.
  unfold select_preferences, upsert. cbn [notification_preferences set_preferences].
  destruct (find _ (notification_preferences db)) as [np|] eqn:E.
  - assert (Ex : existsb (fun np => String.eqb (np_user_id np) userId)
                         (notification_preferences db) = true).
    { destruct (existsb _ _) eqn:Ex; [reflexivity|].
      apply find_existsb_false in Ex. congruence. }
    rewrite Ex.
    rewrite (find_map_update (fun np => String.eqb (np_user_id np) userId)
                             (update_preference body)) by reflexivity.
    now rewrite E.
  - pose proof E as Ex. apply find_existsb_false in Ex. rewrite Ex.
    rewrite find_app_none by exact E. cbn. now rewrite String.eqb_refl.
Qed.


Lemma upsert_own (tbl : list notification_preference) (userId : string)
      (body : preferences_body) (np : notification_preference) :
  existsb (fun np => String.eqb (np_user_id np) userId) tbl = true ->
  In np (upsert tbl userId body) -> np_user_id np = userId ->
  enabled np = Some (one_or_zero (enabled_ body)).
Proof.
  intros Ex. unfold upsert. rewrite Ex. intros H Hu.
  apply in_map_iff in H. destruct H as [x [E Hx]].
  destruct (String.eqb (np_user_id x) userId) eqn:Eu.
  - now subst np.
  - subst np. apply String.eqb_neq in Eu. congruence.
Qed.

End PreferenceFacts.


Section SwitchedOff.

(** A stored update without [enabled] leaves the user out. *)
Lemma stored_update_without_enabled (db : Schema.database) (userId : string)
      (body : Preferences.preferences_body) (now : Z)
      (np : Schema.notification_preference) :
  Preferences.select_preferences db userId = Some np ->
  Preferences.enabled_ body = None \/ Preferences.enabled_ body = Some 0 ->
  forall (tz : Clock.TimeZone) (p : Notifications.NotificationPayload),
    ~ In (userId, p)
         (Notifications.sendExpiryNotifications_in tz
            (fst (Preferences.put_preferences db userId body)) now).
Proof.
  intros Hsel Hbody tz p Hin.
  apply notified_row in Hin.
  destruct Hin as [row [items [Hrow [Hw [Hid _]]]]].
  apply left_join_spec in Hrow. destruct Hrow as [u [Hu [Eid [_ Hnp]]]].
  assert (Ex : existsb (fun np => String.eqb (Schema.np_user_id np) userId)
                       (Schema.notification_preferences db) = true).
  { destruct (existsb _ _) eqn:Ex; [reflexivity|].
    apply find_existsb_false in Ex. unfold Preferences.select_preferences in Hsel.
    congruence. }
  assert (Hzero : Preferences.one_or_zero (Preferences.enabled_ body) = 0).
  { destruct Hbody as [-> | ->]; reflexivity. }
  cbn [fst Preferences.put_preferences Preferences.set_preferences
       Schema.notification_preferences Schema.users] in Hnp, Hu.
  destruct Hnp as [[Hnone _]|[np' [Hnp' [Eu [_ Een]]]]].
  - apply find_some in Hsel. destruct Hsel as [Hin Heq].
    apply String.eqb_eq in Heq.
    apply (Hnone (Preferences.update_preference body np)).
    + unfold Preferences.upsert. rewrite Ex. apply in_map_iff.
      exists np. split; [|exact Hin].
      apply String.eqb_eq in Heq. now rewrite Heq.
    + cbn. congruence.
  - assert (E : Schema.enabled np' = Some 0).
    { rewrite <- Hzero. apply (upsert_own _ userId body np' Ex Hnp'). congruence. }
    unfold Notifications.wants_notifications in Hw. rewrite Een, E in Hw.
    discriminate.
Qed.

Lemma stored_update_answer (db : Schema.database) (userId : string)
      (body : Preferences.preferences_body) (np : Schema.notification_preference) :
  Preferences.select_preferences db userId = Some np ->
  snd (Preferences.put_preferences db userId body)
  = Inventory.Json 200 (Some (Preferences.update_preference body np)).
Proof.
  intros Hsel. unfold Preferences.put_preferences. cbn [snd].
  now rewrite select_after_upsert, Hsel.
Qed.

End SwitchedOff.

(** X20. A preferences update by a user who has a preferences row, the
    server running in any time zone.  If
    no flag of the body is a boolean and [enabled] is omitted or 0, the
    update is stored, the answer shows [enabled] as 0, and the expiry
    notifications leave that user out from then on, whatever expires in
    the inventory.  If a flag is a boolean, as the client's type declares
    it, the driver refuses to bind it: the answer is 500 and the store is
    as it was, so that nothing is switched on or off. *)
Theorem X20_partial_update_switches_notifications_off :
  forall (tz : Clock.TimeZone) (db : Schema.database) (userId : string)
         (request : Preferences.preferences_request) (now : Z)
         (np : Schema.notification_preference),
    Preferences.select_preferences db userId = Some np ->
    let r := Preferences.put db userId request in
    ((forall b, Preferences.q_dailySummary request <> Preferences.FlagBoolean b) ->
     Preferences.q_enabled request = Preferences.FlagAbsent \/
     Preferences.q_enabled request = Preferences.FlagNumber 0 ->
     (exists row, snd r = Inventory.Json 200 (Some row) /\
                  Schema.np_user_id row = userId /\ Schema.enabled row = Some 0) /\
     (forall p : Notifications.NotificationPayload,
         ~ In (userId, p)
              (Notifications.sendExpiryNotifications_in tz (fst r) now))) /\
    ((exists b, Preferences.q_dailySummary request = Preferences.FlagBoolean b) \/
     (exists b, Preferences.q_enabled request = Preferences.FlagBoolean b) ->
     r = (db, Inventory.Failure 500 "Failed to update preferences")).
Proof.
  intros tz db userId request now np Hsel r. split.
  - intros Hdaily Henabled.
    assert (Hd : exists d, Preferences.bound (Preferences.q_dailySummary request) = Some d).
    { destruct (Preferences.q_dailySummary request) as [|z|b]; cbn; eauto.
      now elim (Hdaily b). }
    destruct Hd as [d Hd].
    assert (He : exists e, Preferences.bound (Preferences.q_enabled request) = Some e /\
                           (e = None \/ e = Some 0)).
    { destruct Henabled as [-> | ->]; cbn; eauto. }
    destruct He as [e [He He0]].
    unfold r, Preferences.put. rewrite Hd, He. split.
    + rewrite (stored_update_answer _ _ _ _ Hsel). eexists. split; [reflexivity|].
      cbn [Preferences.update_preference Schema.np_user_id Schema.enabled
           Preferences.enabled_ Preferences.coalesce_null].
      split.
      * unfold Preferences.select_preferences in Hsel. apply find_some in Hsel.
        destruct Hsel as [_ E]. now apply String.eqb_eq.
      * now destruct He0 as [-> | ->].
    + intros p. apply (stored_update_without_enabled _ _ _ _ np Hsel); exact He0.
  - intros [[b Hb] | [b Hb]]; unfold r, Preferences.put; rewrite Hb; cbn [Preferences.bound].
    + reflexivity.
    + now destruct (Preferences.bound (Preferences.q_dailySummary request)).
Qed.

(** The theorem at a user who is notified, and who then changes only the
    number of days. *)
Lemma X20_partial_update_switches_notifications_off_witness :
  Preferences.select_preferences store_zero_days_before "u1"
  = Some {| Schema.np_user_id := "u1"; Schema.expiry_days_before := Some 0;
            Schema.daily_summary := Some 1; Schema.notify_time := Some "09:00"%string;
            Schema.enabled := Some 1 |} /\
  Notifications.sendExpiryNotifications_in new_york_2024 store_zero_days_before
                                             june_noon <> [] /\
  (forall p : Notifications.NotificationPayload,
      ~ In ("u1"%string, p)
           (Notifications.sendExpiryNotifications_in new_york_2024
              (fst (Preferences.put store_zero_days_before "u1" five_days_before))
              june_noon)) /\
  Preferences.put store_zero_days_before "u1" daily_summary_on
  = (store_zero_days_before, Inventory.Failure 500 "Failed to update preferences").
Proof.
  assert (H : Preferences.select_preferences store_zero_days_before "u1"
              = Some {| Schema.np_user_id := "u1"; Schema.expiry_days_before := Some 0;
                        Schema.daily_summary := Some 1;
                        Schema.notify_time := Some "09:00"%string;
                        Schema.enabled := Some 1 |}) by reflexivity.
  split; [exact H|]. split; [discriminate|]. split.
  - apply (proj1 (X20_partial_update_switches_notifications_off new_york_2024
                    store_zero_days_before "u1" five_days_before june_noon _ H)).
    + intros b. discriminate.
    + now left.
  - apply (proj2 (X20_partial_update_switches_notifications_off new_york_2024
                    store_zero_days_before "u1" daily_summary_on june_noon _ H)).
    left. now exists true.
Defined.

(* ================================================================= *)
(** * Accounts *)

Section AccountFacts.
Import Schema Inventory InventoryRoutes Auth.

Lemma lower_ascii_idem (c : ascii) : lower_ascii (lower_ascii c) = lower_ascii c.
Proof.
  unfold lower_ascii.
  destruct ((65 <=? nat_of_ascii c) && (nat_of_ascii c <=? 90))%nat eqn:E;
    [|now rewrite E].
  apply andb_true_iff in E. destruct E as [E1 E2].
  apply Nat.leb_le in E1. apply Nat.leb_le in E2.
  rewrite nat_ascii_embedding by lia.
  replace ((nat_of_ascii c + 32 <=? 90)%nat) with false
    by (symmetry; apply Nat.leb_gt; lia).
  now rewrite andb_false_r.
Qed.

Lemma toLowerCase_idem (s : string) : toLowerCase (toLowerCase s) = toLowerCase s.
Proof.
  induction s as [|c s IH]; simpl; [reflexivity|].
  now rewrite lower_ascii_idem, IH.
Qed.

Lemma existsb_false_iff {A : Type} (p : A -> bool) (l : list A) :
  existsb p l = false <-> forall x, In x l -> p x = false.
Proof.
  split.
  - intros H x Hx. destruct (p x) eqn:E; [|reflexivity].
    assert (existsb p l = true) by (apply existsb_exists; eauto). congruence.
  - intros H. destruct (existsb p l) eqn:E; [|reflexivity].
    apply existsb_exists in E. destruct E as [x [Hx Hp]]. rewrite (H x Hx) in Hp.
    discriminate.
Qed.

Lemma existsb_field {A : Type} (f : A -> string) (l : list A) (v : string) :
  existsb (fun x => String.eqb (f x) v) l = true <-> In v (map f l).
Proof.
  rewrite existsb_exists, in_map_iff. split.
  - intros [x [Hx E]]. apply String.eqb_eq in E. eauto.
  - intros [x [E Hx]]. exists x. split; [exact Hx | now apply String.eqb_eq].
Qed.

(** What [register] does, case by case. *)
Lemma register_cases (bcrypt_hash generateToken : string -> string -> string)
      (userId salt : string) (now : Z) (db : database) (body : credentials) :
  let r := register bcrypt_hash generateToken userId salt now db body in
  (exists status error, r = (db, Failure status error))
  \/
  (exists email password name_,
      given (c_email body) = Some email /\ given (c_password body) = Some password /\
      given (c_name body) = Some name_ /\
      (6 <= String.length password)%nat /\
      ~ In userId (map u_id (users db)) /\
      ~ In email (map u_email (users db)) /\
      ~ In (toLowerCase email) (map u_email (users db)) /\
      let row := account_row userId email (bcrypt_hash password salt) name_ now in
      ((In userId (map np_user_id (notification_preferences db)) /\
        r = (set_users db (users db ++ [row]), Failure 500 "Failed to create account"))
       \/
       (~ In userId (map np_user_id (notification_preferences db)) /\
        r = (Preferences.set_preferences
               (set_users db (users db ++ [row]))
               (notification_preferences db ++ [default_preferences userId]),
             Json 201 {| token := generateToken userId email; s_id := userId;
                         s_email := toLowerCase email; s_name := name_ |})))).
Proof.
  intros r. unfold r, register.
  destruct (given (c_email body)) as [email|]; [|left; eauto].
  destruct (given (c_password body)) as [password|]; [|left; eauto].
  destruct (given (c_name body)) as [name_|]; [|left; eauto].
  destruct (String.length password <? 6)%nat eqn:El; [left; eauto|].
  destruct (existsb (fun u => String.eqb (u_email u) email) (users db)) eqn:Ee;
    [left; eauto|].
  unfold insert_user.
  destruct (existsb (fun u => String.eqb (u_id u) userId) (users db)) eqn:Ei;
    [left; eauto|].
  destruct (existsb (fun u => String.eqb (u_email u) (toLowerCase email)) (users db))
    eqn:El2; [left; eauto|].
  right. exists email, password, name_.
  apply Nat.ltb_ge in El.
  assert (H1 : ~ In userId (map u_id (users db))).
  { intros H. apply existsb_field in H. congruence. }
  assert (H2 : ~ In email (map u_email (users db))).
  { intros H. apply existsb_field in H. congruence. }
  assert (H3 : ~ In (toLowerCase email) (map u_email (users db))).
  { intros H. apply existsb_field in H. congruence. }
  repeat split; try assumption.
  unfold insert_default_preferences.
  cbn [notification_preferences set_users].
  destruct (existsb (fun np => String.eqb (np_user_id np) userId)
                    (notification_preferences db)) eqn:Ep.
  - left. apply existsb_field in Ep. now split.
  - right. split; [|reflexivity]. intros H. apply existsb_field in H. congruence.
Qed.

End AccountFacts.

(** X21. Who has registered can log in: after a registration that was
    answered 201, a login with the same password and the same email, in
    whatever letter case, is answered 200 with the id and the name of the
    new account and its email in lower case. *)
Theorem X21_register_then_login :
  forall (bcrypt_hash : string -> string -> string)
         (bcrypt_compare : string -> string -> bool)
         (generateToken : string -> string -> string)
         (userId salt : string) (now : Z) (db : Schema.database)
         (email password name_ email' : string) (s : Auth.session),
    (forall p salt', bcrypt_compare p (bcrypt_hash p salt') = true) ->
    snd (Auth.register bcrypt_hash generateToken userId salt now db
                       (sign_up email password name_))
    = Inventory.Json 201 s ->
    email' <> ""%string -> toLowerCase email' = toLowerCase email ->
    Auth.login bcrypt_compare generateToken
               (fst (Auth.register bcrypt_hash generateToken userId salt now db
                                   (sign_up email password name_)))
               (sign_in email' password)
    = Inventory.Json 200
        {| Auth.token := generateToken userId (toLowerCase email);
           Auth.s_id := userId; Auth.s_email := toLowerCase email;
           Auth.s_name := name_ |} /\
    Auth.s_id s = userId /\ Auth.s_email s = toLowerCase email /\ Auth.s_name s = name_.
Proof.
  intros bcrypt_hash bcrypt_compare generateToken userId salt now db
         email password name_ email' s Hbcrypt Hreg Hne Hlow.
  pose proof (register_cases bcrypt_hash generateToken userId salt now db
                             (sign_up email password name_)) as Hc.
  cbv zeta in Hc.
  destruct Hc as [[status [error Hr]]|[e [p [n [Ee [Ep [En [Hlen [Hid [_ [Hnew Hr]]]]]]]]]]].
  { rewrite Hr in Hreg. discriminate. }
  destruct Hr as [[_ Hr]|[_ Hr]]; rewrite Hr in Hreg |- *; [discriminate|].
  cbn [snd] in Hreg. inversion Hreg; subst s. clear Hreg.
  assert (e = email /\ p = password /\ n = name_) as [-> [-> ->]].
  { unfold sign_up in Ee, Ep, En. cbn in Ee, Ep, En.
    destruct (String.eqb email ""); [discriminate|].
    destruct (String.eqb password ""); [discriminate|].
    destruct (String.eqb name_ ""); [discriminate|].
    inversion Ee; inversion Ep; inversion En. now repeat split. }
  split; [|now repeat split].
  unfold Auth.login, sign_in. cbn [Auth.c_email Auth.c_password fst].
  rewrite (given_nonempty _ Hne).
  assert (Hp : InventoryRoutes.given (Some password) = Some password) by exact Ep.
  rewrite Hp, Hlow.
  cbn [Schema.users Preferences.set_preferences Auth.set_users].
  rewrite find_app_none.
  - cbn [find account_row Schema.u_email]. rewrite String.eqb_refl.
    cbn [account_row Schema.u_password_hash Schema.u_id Schema.u_email Schema.u_name].
    now rewrite Hbcrypt.
  - apply find_existsb_false. apply existsb_false_iff. intros u Hu.
    apply String.eqb_neq. intros E. apply Hnew. rewrite <- E. now apply in_map.
Qed.

Lemma X21_register_then_login_witness :
  (forall p salt', sample_compare p (sample_hash p salt') = true) /\
  "ANN@example.ORG"%string <> ""%string /\
  toLowerCase "ANN@example.ORG" = toLowerCase "Ann@Example.org" /\
  Auth.login sample_compare sample_token
             (fst (Auth.register sample_hash sample_token
                                 "u9" "salt" june_noon empty_store
                                 (sign_up "Ann@Example.org" "secret1" "Ann")))
             (sign_in "ANN@example.ORG" "secret1")
  = Inventory.Json 200
      {| Auth.token := "u9:ann@example.org"; Auth.s_id := "u9";
         Auth.s_email := "ann@example.org"; Auth.s_name := "Ann" |}.
Proof.
  assert (H1 : forall p salt', sample_compare p (sample_hash p salt') = true).
  { intros p salt'. unfold sample_compare, sample_hash. apply String.eqb_refl. }
  assert (H2 : "ANN@example.ORG"%string <> ""%string) by discriminate.
  assert (H3 : toLowerCase "ANN@example.ORG" = toLowerCase "Ann@Example.org")
    by reflexivity.
  split; [exact H1|]. split; [exact H2|]. split; [exact H3|].
  exact (proj1 (X21_register_then_login sample_hash sample_compare
                  sample_token "u9" "salt" june_noon empty_store
                  "Ann@Example.org" "secret1" "Ann" "ANN@example.ORG" _
                  H1 eq_refl H2 H3)).
Defined.

Section TakenEmail.

Lemma register_taken_email (bcrypt_hash generateToken : string -> string -> string)
      (userId salt : string) (now : Z) (db : Schema.database)
      (email password name_ : string) :
  Forall (fun u => toLowerCase (Schema.u_email u) = Schema.u_email u)
         (Schema.users db) ->
  In (toLowerCase email) (map Schema.u_email (Schema.users db)) ->
  email <> ""%string -> name_ <> ""%string -> (6 <= String.length password)%nat ->
  Auth.register bcrypt_hash generateToken userId salt now db
                (sign_up email password name_)
  = (db, if String.eqb (toLowerCase email) email
         then Inventory.Failure 400 "Email already registered"
         else Inventory.Failure 500 "Failed to create account").
Proof.
  intros Hlow Hin He Hn Hlen.
  unfold Auth.register, sign_up.
  cbn [Auth.c_email Auth.c_password Auth.c_name].
  rewrite (given_nonempty _ He), (given_nonempty _ Hn).
  assert (Hp : password <> ""%string).
  { intros ->. simpl in Hlen. lia. }
  rewrite (given_nonempty _ Hp).
  replace (String.length password <? 6)%nat with false
    by (symmetry; apply Nat.ltb_ge; exact Hlen).
  destruct (String.eqb (toLowerCase email) email) eqn:E.
  - apply String.eqb_eq in E. rewrite E in Hin.
    apply existsb_field in Hin. now rewrite Hin.
  - apply String.eqb_neq in E.
    replace (existsb (fun u => String.eqb (Schema.u_email u) email) (Schema.users db))
      with false.
    + unfold Auth.insert_user. apply existsb_field in Hin. rewrite Hin.
      now destruct (existsb (fun u => String.eqb (Schema.u_id u) userId)
                            (Schema.users db)).
    + symmetry. apply existsb_false_iff. intros u Hu. apply String.eqb_neq.
      intros Eu. rewrite Forall_forall in Hlow. specialize (Hlow u Hu).
      rewrite Eu in Hlow. contradiction.
Qed.

End TakenEmail.

(** X22. The check for a registered email compares the text as typed,
    while the table stores it in lower case.  For an email and a password
    in ASCII, the password having six characters or more: an email that is
    registered already, in lower case, is refused with 400 when it is typed
    as it is stored, and with 500, as a failure of the server, when it is
    typed with a capital letter; neither changes the store. *)
Theorem X22_registered_email_in_another_case :
  forall (bcrypt_hash generateToken : string -> string -> string)
         (userId salt : string) (now : Z) (db : Schema.database)
         (email stored password name_ : string),
    Forall (fun u => no_capitals (Schema.u_email u)) (Schema.users db) ->
    In stored (map Schema.u_email (Schema.users db)) ->
    same_ignoring_case email stored ->
    ascii_text email = true -> ascii_text password = true ->
    email <> ""%string -> name_ <> ""%string -> (6 <= String.length password)%nat ->
    Auth.register bcrypt_hash generateToken userId salt now db
                  (sign_up email password name_)
    = (db, if String.eqb email stored
           then Inventory.Failure 400 "Email already registered"
           else Inventory.Failure 500 "Failed to create account").
Proof.
  intros bcrypt_hash generateToken userId salt now db email stored password name_
         Hlow Hin Hsame _ _ He Hn Hlen.
  assert (Hstored : no_capitals stored).
  { apply in_map_iff in Hin. destruct Hin as [u [<- Hu]].
    rewrite Forall_forall in Hlow. now apply Hlow. }
  assert (E : toLowerCase email = stored).
  { apply toLowerCase_same in Hsame. rewrite Hsame.
    now apply toLowerCase_no_capitals. }
  rewrite (register_taken_email bcrypt_hash generateToken userId salt now db
                                email password name_).
  - now rewrite E, String.eqb_sym.
  - eapply Forall_impl; [|exact Hlow]. intros u Hu.
    now apply toLowerCase_no_capitals.
  - now rewrite E.
  - exact He.
  - exact Hn.
  - exact Hlen.
Qed.

(** The theorem at the email of Ann, typed with a capital letter. *)
Lemma X22_registered_email_in_another_case_witness :
  Forall (fun u => no_capitals (Schema.u_email u)) (Schema.users store_with_ann) /\
  In "ann@example.org"%string (map Schema.u_email (Schema.users store_with_ann)) /\
  same_ignoring_case "Ann@example.org" "ann@example.org" /\
  ascii_text "Ann@example.org" = true /\ ascii_text "secret2" = true /\
  Auth.register sample_hash sample_token "u2" "salt" june_noon store_with_ann
                (sign_up "Ann@example.org" "secret2" "Ann B")
  = (store_with_ann, Inventory.Failure 500 "Failed to create account").
Proof.
  assert (H1 : Forall (fun u => no_capitals (Schema.u_email u))
                      (Schema.users store_with_ann)).
  { apply Forall_forall. intros u [<-|[]].
    cbn [store_with_ann Schema.u_email no_capitals].
    repeat split; intros [Ha Hz]; vm_compute in Ha, Hz; lia. }
  assert (H2 : In "ann@example.org"%string
                  (map Schema.u_email (Schema.users store_with_ann))).
  { now left. }
  assert (H3 : same_ignoring_case "Ann@example.org" "ann@example.org").
  { cbn [same_ignoring_case]. unfold same_letter.
    repeat split; first [left; reflexivity | right; left; cbn; lia]. }
  split; [exact H1|]. split; [exact H2|]. split; [exact H3|].
  split; [reflexivity|]. split; [reflexivity|].
  refine (X22_registered_email_in_another_case sample_hash sample_token "u2" "salt"
            june_noon store_with_ann "Ann@example.org" "ann@example.org" "secret2"
            "Ann B" H1 H2 H3 eq_refl eq_refl _ _ _).
  - discriminate.
  - discriminate.
  - simpl. lia.
Defined.

(** X23. On consistent account tables a registration is all or nothing and
    keeps them consistent: an answer other than 201 leaves the store as it
    was, and a 201 has appended one user, with the email in lower case, and
    one preferences row holding the defaults. *)
Theorem X23_register_is_all_or_nothing :
  forall (bcrypt_hash generateToken : string -> string -> string)
         (userId salt : string) (now : Z) (db : Schema.database)
         (body : Auth.credentials),
    accounts_consistent db ->
    let r := Auth.register bcrypt_hash generateToken userId salt now db body in
    accounts_consistent (fst r) /\
    (forall status error, snd r = Inventory.Failure status error -> fst r = db) /\
    (forall status s,
        snd r = Inventory.Json status s ->
        status = 201 /\ Auth.s_id s = userId /\
        exists email passwordHash,
          Auth.s_email s = toLowerCase email /\
          Schema.users (fst r)
          = Schema.users db
            ++ [account_row userId email passwordHash (Auth.s_name s) now] /\
          Schema.notification_preferences (fst r)
          = Schema.notification_preferences db ++ [default_preferences userId]) /\
    Schema.ingredients (fst r) = Schema.ingredients db /\
    Schema.usage_stats (fst r) = Schema.usage_stats db.
Proof.
  intros bcrypt_hash generateToken userId salt now db body Hc r.
  pose proof (register_cases bcrypt_hash generateToken userId salt now db body) as H.
  cbv zeta in H. fold r in H.
  destruct H as [[status [error Hr]]|[e [p [n [_ [_ [_ [_ [Hid [_ [Hnew Hr]]]]]]]]]]].
  { rewrite Hr. cbn [fst snd]. split; [exact Hc|]. split; [reflexivity|].
    split; [discriminate | now split]. }
  destruct Hc as [C1 [C2 [C3 [C4 C5]]]].
  destruct Hr as [[Hnp _]|[Hnp Hr]].
  { exfalso. apply Hid. apply in_map_iff in Hnp. destruct Hnp as [np [E Hnp]].
    rewrite <- E. now apply C5. }
  rewrite Hr. cbn [fst snd]. split; [|split; [discriminate | split; [|now split]]].
  - unfold accounts_consistent.
    cbn [Schema.users Schema.notification_preferences Preferences.set_preferences
         Auth.set_users].
    rewrite !map_app. cbn [map account_row default_preferences Schema.u_id
                            Schema.u_email Schema.np_user_id].
    split; [|split; [|split; [|split]]].
    + apply NoDup_app; [exact C1 | repeat constructor; intros [] |].
      intros x Hx [<-|[]]. contradiction.
    + apply NoDup_app; [exact C2 | repeat constructor; intros [] |].
      intros x Hx [<-|[]]. contradiction.
    + apply Forall_app. split; [exact C3|]. repeat constructor.
      cbn. apply toLowerCase_idem.
    + apply NoDup_app; [exact C4 | repeat constructor; intros [] |].
      intros x Hx [<-|[]]. contradiction.
    + intros np Hin. apply in_app_or in Hin. apply in_or_app.
      destruct Hin as [Hin|[<-|[]]]; [left; now apply C5 | right; now left].
  - intros status s H. inversion H; subst status s. cbn.
    split; [reflexivity|]. split; [reflexivity|].
    exists e, (bcrypt_hash p salt). now repeat split.
Qed.

Lemma X23_register_is_all_or_nothing_witness :
  accounts_consistent store_with_ann /\
  accounts_consistent
    (fst (Auth.register sample_hash sample_token "u2" "salt" june_noon store_with_ann
                        (sign_up "Bob@example.org" "secret2" "Bob"))).
Proof.
  assert (H : accounts_consistent store_with_ann).
  { unfold accounts_consistent. cbn.
    split; [repeat constructor; intros []|].
    split; [repeat constructor; intros []|].
    split; [repeat constructor|].
    split; [repeat constructor; intros []|].
    intros x [<-|[]]. now left. }
  split; [exact H|].
  exact (proj1 (X23_register_is_all_or_nothing sample_hash sample_token "u2" "salt"
                  june_noon store_with_ann
                  (sign_up "Bob@example.org" "secret2" "Bob") H)).
Defined.

(* ================================================================= *)
(** * Changing the profile *)

Section ProfileFacts.
Import Schema Inventory InventoryRoutes Auth Profile.
Variable bcrypt_hash : string -> string -> string.
Variable bcrypt_compare : string -> string -> bool.

Lemma profile_kept_refl (salt : string) (db : database) (userId : string)
      (body : profile_body) (u : user) :
  profile_kept bcrypt_hash bcrypt_compare salt db userId body u u.
Proof.
  unfold profile_kept. repeat split; try reflexivity. intros H. now elim H.
Qed.

Lemma users_kept (salt : string) (db : database) (userId : string)
      (body : profile_body) :
  Forall2 (profile_kept bcrypt_hash bcrypt_compare salt db userId body)
          (users db) (users db).
Proof.
  rewrite <- (map_id (users db)) at 2.
  apply Forall2_map_same. intros u. apply profile_kept_refl.
Qed.

Lemma is_user_false (userId : string) (u : user) :
  u_id u <> userId -> is_user userId u = false.
Proof. unfold is_user. now rewrite String.eqb_neq. Qed.

(** The name alone never touches a password hash. *)
Lemma rename_kept (salt : string) (now : Z) (db : database) (userId : string)
      (body : profile_body) :
  let r := rename_and_answer now db userId body in
  Forall2 (profile_kept bcrypt_hash bcrypt_compare salt db userId body)
          (users db) (users (fst r)) /\
  ingredients (fst r) = ingredients db /\
  notification_preferences (fst r) = notification_preferences db /\
  usage_stats (fst r) = usage_stats db.
Proof.
  unfold rename_and_answer. cbn [fst].
  destruct (given (p_name body)) as [name_|]; [|split; [apply users_kept | now repeat split]].
  split; [|now repeat split]. cbn [users set_users]. unfold set_name.
  apply Forall2_map_same. intros u.
  destruct (is_user userId u) eqn:E; [|apply profile_kept_refl].
  unfold profile_kept. cbn.
  repeat split; try reflexivity.
  - intros H. rewrite (is_user_false _ _ H) in E. discriminate.
  - intros H. now elim H.
Qed.

(** A row that takes a new hash, with the conditions of the change met. *)
Lemma rehash_kept (salt : string) (db : database) (userId : string)
      (body : profile_body) (cur new : string) (me u u' : user) :
  given (currentPassword body) = Some cur ->
  given (newPassword body) = Some new ->
  find (is_user userId) (users db) = Some me ->
  bcrypt_compare cur (u_password_hash me) = true ->
  (6 <= String.length new)%nat ->
  is_user userId u = true ->
  u_id u' = u_id u -> u_email u' = u_email u -> u_created_at u' = u_created_at u ->
  u_password_hash u' = bcrypt_hash new salt ->
  profile_kept bcrypt_hash bcrypt_compare salt db userId body u u'.
Proof.
  intros Hc Hn Hm Hb Hl Hu E1 E2 E3 E4. unfold profile_kept.
  split; [exact E1|]. split; [exact E2|]. split; [exact E3|]. split.
  - intros H. rewrite (is_user_false _ _ H) in Hu. discriminate.
  - intros _. exists cur, new, me. now repeat split.
Qed.

Lemma rehash_rename_kept (salt : string) (now : Z) (db : database) (userId : string)
      (body : profile_body) (cur new : string) (me : user) :
  given (currentPassword body) = Some cur ->
  given (newPassword body) = Some new ->
  find (is_user userId) (users db) = Some me ->
  bcrypt_compare cur (u_password_hash me) = true ->
  (6 <= String.length new)%nat ->
  let db1 := set_users db (set_password now userId (bcrypt_hash new salt) (users db)) in
  Forall2 (profile_kept bcrypt_hash bcrypt_compare salt db userId body)
          (users db) (users (fst (rename_and_answer now db1 userId body))).
Proof.
  intros Hc Hn Hm Hb Hl db1. unfold rename_and_answer. cbn [fst].
  destruct (given (p_name body)) as [name_|]; unfold db1;
    cbn [users set_users]; unfold set_name, set_password; rewrite ?map_map;
    apply Forall2_map_same; intros u; destruct (is_user userId u) eqn:E.
  - assert (E' : is_user userId
                   {| u_id := u_id u; u_email := u_email u;
                      u_password_hash := bcrypt_hash new salt; u_name := u_name u;
                      u_created_at := u_created_at u; u_updated_at := now |} = true)
      by exact E.
    rewrite E'. now apply (rehash_kept salt db userId body cur new me).
  - rewrite E. apply profile_kept_refl.
  - now apply (rehash_kept salt db userId body cur new me).
  - apply profile_kept_refl.
Qed.

End ProfileFacts.

(** X24. A profile update changes a password hash only when the body
    carries the current password, confirmed by the stored hash of the
    requester, and a new password of at least six characters.  It never
    changes an id, an email, the row of another user or another table, and
    an answer other than 200 leaves the store as it was. *)
Theorem X24_password_change_needs_the_current_password :
  forall (bcrypt_hash : string -> string -> string)
         (bcrypt_compare : string -> string -> bool)
         (salt : string) (now : Z) (db : Schema.database) (userId : string)
         (body : Profile.profile_body),
    let r := Profile.update_me bcrypt_hash bcrypt_compare salt now db userId body in
    Forall2 (profile_kept bcrypt_hash bcrypt_compare salt db userId body)
            (Schema.users db) (Schema.users (fst r)) /\
    (forall status error, snd r = Inventory.Failure status error -> fst r = db) /\
    Schema.ingredients (fst r) = Schema.ingredients db /\
    Schema.notification_preferences (fst r) = Schema.notification_preferences db /\
    Schema.usage_stats (fst r) = Schema.usage_stats db.
Proof.
  intros bcrypt_hash bcrypt_compare salt now db userId body r.
  assert (Hsame : Forall2 (profile_kept bcrypt_hash bcrypt_compare salt db userId body)
                          (Schema.users db) (Schema.users db))
    by apply users_kept.
  unfold r, Profile.update_me.
  destruct (InventoryRoutes.given (Profile.newPassword body)) as [new|] eqn:En.
  - destruct (InventoryRoutes.given (Profile.currentPassword body)) as [cur|] eqn:Ec;
      [|cbn [fst snd]; now repeat split].
    destruct (find (Profile.is_user userId) (Schema.users db)) as [me|] eqn:Em;
      [|cbn [fst snd]; now repeat split].
    destruct (bcrypt_compare cur (Schema.u_password_hash me)) eqn:Eb;
      cbn [negb]; [|cbn [fst snd]; now repeat split].
    destruct (String.length new <? 6)%nat eqn:El; [cbn [fst snd]; now repeat split|].
    apply Nat.ltb_ge in El.
    split; [|split].
    + now apply (rehash_rename_kept bcrypt_hash bcrypt_compare salt now db userId
                                    body cur new me).
    + intros status error H. unfold Profile.rename_and_answer in H. discriminate.
    + unfold Profile.rename_and_answer. cbn [fst].
      destruct (InventoryRoutes.given (Profile.p_name body)); now repeat split.
  - pose proof (rename_kept bcrypt_hash bcrypt_compare salt now db userId body) as H.
    cbv zeta in H. destruct H as [H1 H2].
    split; [exact H1|]. split; [|exact H2].
    intros status error H. unfold Profile.rename_and_answer in H. discriminate.
Qed.

(* ================================================================= *)
(** * What the client shows *)

Section BadgeFacts.
Context {R : Rounding} {F : Faithful R}.

Lemma daysLeft_days (now : Z) (i : Ingredient) :
  MainApp.daysLeft now i
  = SmartPantry.days (SmartPantry.getExpiryStatus now (i_expiryDate i)).
Proof.
  unfold MainApp.daysLeft, SmartPantry.getExpiryStatus.
  destruct (num_ltb _ _); [reflexivity|]. now destruct (num_leb _ _).
Qed.

Lemma expiring_soon_test (now day : Z) :
  Z.abs (day - isoDay now) <= 10 ^ 8 ->
  bucket_eqb (SmartPantry.status (SmartPantry.getExpiryStatus now day)) ExpiringSoon
  = (day <=? isoDay now + 3) && (day >=? isoDay now).
Proof.
  intros H. destruct (getExpiryStatus_calendar now day H) as [_ Hs].
  rewrite Hs. unfold bucket_of_days.
  destruct (day - isoDay now <? 0) eqn:E1.
  - apply Z.ltb_lt in E1. cbn.
    replace (day >=? isoDay now) with false by (symmetry; rewrite Z.geb_leb; apply Z.leb_gt; lia).
    now rewrite andb_false_r.
  - apply Z.ltb_ge in E1. destruct (day - isoDay now <=? 3) eqn:E2.
    + apply Z.leb_le in E2. cbn.
      replace (day <=? isoDay now + 3) with true by (symmetry; apply Z.leb_le; lia).
      now replace (day >=? isoDay now) with true
        by (symmetry; rewrite Z.geb_leb; apply Z.leb_le; lia).
    + apply Z.leb_gt in E2. cbn.
      now replace (day <=? isoDay now + 3) with false by (symmetry; apply Z.leb_gt; lia).
Qed.

Lemma badge_test (now : Z) (i : Ingredient) :
  Z.abs (i_expiryDate i - isoDay now) <= 10 ^ 8 ->
  (let days := MainApp.daysLeft now i in
   num_leb days (of_Z 3) && num_leb (of_Z 0) days)
  = (i_expiryDate i <=? isoDay now + 3) && (i_expiryDate i >=? isoDay now).
Proof.
  intros H. cbv zeta. rewrite daysLeft_days.
  destruct (getExpiryStatus_calendar now (i_expiryDate i) H) as [Hd _].
  rewrite Hd. unfold of_Z, num_leb. rewrite !inject_Z_Qle_bool.
  rewrite Z.geb_leb. f_equal.
  - destruct (i_expiryDate i - isoDay now <=? 3) eqn:E.
    + apply Z.leb_le in E. symmetry. apply Z.leb_le. lia.
    + apply Z.leb_gt in E. symmetry. apply Z.leb_gt. lia.
  - destruct (0 <=? i_expiryDate i - isoDay now) eqn:E.
    + apply Z.leb_le in E. symmetry. apply Z.leb_le. lia.
    + apply Z.leb_gt in E. symmetry. apply Z.leb_gt. lia.
Qed.

End BadgeFacts.

(** X25. The three counts of items expiring soon agree when the client
    holds the server's listing and the clocks of the server are set the same
    today and three days on: the items of the dashboard's list are the
    items [GET /api/inventory/expiring] returns for three days, in the same
    order, and the badge of the side bar shows their number. *)
Theorem X25_expiring_soon_is_the_same_everywhere :
  forall (tz : Clock.TimeZone) (db : Schema.database) (userId : string) (now : Z),
    dates_in_range now db ->
    steady tz now 3 ->
    Z.abs (now + 3 * msPerDay) <= InventoryRoutes.maxTime ->
    InventoryRoutes.fourDigitYear (isoDay now + 3) = true ->
    exists inventory soon : list Ingredient,
      InventoryRoutes.get db userId None None None = Inventory.Json 200 inventory /\
      InventoryRoutes.expiring_in tz db userId now None = Inventory.Json 200 soon /\
      DashboardView.expiringSoon now inventory = soon /\
      MainApp.expiringCount now inventory = List.length soon.
Proof.
  intros tz db userId now Hrange Hsteady Hvalid Hyear.
  eexists. eexists. split; [reflexivity|].
  unfold InventoryRoutes.expiring_in.
  change (InventoryRoutes.daysNum None) with 3. cbn [Clock.setDate]. rewrite daysAhead_days_on.
  rewrite (days_on_steady _ _ _ Hsteady).
  rewrite (timeClip_valid _ Hvalid), isoDay_addDays, Hyear.
  split; [reflexivity|].
  unfold InventoryRoutes.selected.
  change (InventoryRoutes.given None) with (@None string). cbv iota.
  change (InventoryRoutes.ordering None) with InventoryRoutes.by_expiry.
  assert (Hsel : forall p : Schema.ingredient -> bool,
    (forall r, In r (Schema.ingredients db) ->
               p r = (Schema.expiry_date r <=? isoDay now + 3)
                     && (Schema.expiry_date r >=? isoDay now)) ->
    filter p (Sqlite.order_by InventoryRoutes.by_expiry
                (filter (InventoryRoutes.own userId) (Schema.ingredients db)))
    = Sqlite.order_by InventoryRoutes.by_expiry
        (filter (fun r => InventoryRoutes.own userId r
                          && (true && (Schema.expiry_date r <=? isoDay now + 3))
                          && (Schema.expiry_date r >=? isoDay now))
                (Schema.ingredients db))).
  { intros p Hp.
    rewrite (sql_order_by_filter _ by_expiry_asym by_expiry_trans).
    f_equal. rewrite filter_filter. apply filter_ext_in. intros r Hr.
    rewrite (Hp r Hr). cbn [andb]. now rewrite andb_assoc. }
  unfold dates_in_range in Hrange. rewrite Forall_forall in Hrange. split.
  - unfold DashboardView.expiringSoon. rewrite filter_map_swap'. f_equal.
    apply Hsel. intros r Hr. cbn [Inventory.as_Ingredient i_expiryDate].
    apply expiring_soon_test. now apply Hrange.
  - unfold MainApp.expiringCount. rewrite filter_map_swap', !length_map. f_equal.
    apply Hsel. intros r Hr.
    apply (badge_test now (Inventory.as_Ingredient r)). now apply Hrange.
Qed.

(** The theorem in New York at noon UTC of 2024-06-10, for a user whose
    milk expires in two days. *)
Lemma X25_expiring_soon_is_the_same_everywhere_witness :
  dates_in_range june_noon store_zero_days_before /\
  steady new_york_2024 june_noon 3 /\
  Z.abs (june_noon + 3 * msPerDay) <= InventoryRoutes.maxTime /\
  InventoryRoutes.fourDigitYear (isoDay june_noon + 3) = true /\
  exists inventory soon : list Ingredient,
    InventoryRoutes.get store_zero_days_before "u1" None None None
    = Inventory.Json 200 inventory /\
    InventoryRoutes.expiring_in new_york_2024 store_zero_days_before "u1" june_noon None
    = Inventory.Json 200 soon /\
    DashboardView.expiringSoon june_noon inventory = soon /\
    MainApp.expiringCount june_noon inventory = List.length soon.
Proof.
  assert (H1 : dates_in_range june_noon store_zero_days_before).
  { repeat constructor. vm_compute. discriminate. }
  assert (H2 : steady new_york_2024 june_noon 3) by reflexivity.
  assert (H3 : Z.abs (june_noon + 3 * msPerDay) <= InventoryRoutes.maxTime)
    by (vm_compute; discriminate).
  assert (H4 : InventoryRoutes.fourDigitYear (isoDay june_noon + 3) = true)
    by reflexivity.
  split; [exact H1|]. split; [exact H2|]. split; [exact H3|]. split; [exact H4|].
  exact (X25_expiring_soon_is_the_same_everywhere new_york_2024 store_zero_days_before
                                               "u1" june_noon H1 H2 H3 H4).
Defined.

(* ================================================================= *)
(** * The pantry view *)

Section SortedInput.
Variable A : Type.
Variable compareFn : A -> A -> number.

Lemma sort_insert_head (x : A) (l : list A) :
  Forall (fun y => sorts_after compareFn x y = false) l ->
  sort_insert compareFn x l = x :: l.
Proof.
  intros H. destruct l as [|y l]; [reflexivity|]. simpl.
  apply Forall_inv in H. now rewrite H.
Qed.

(** An array that is in order already is left as it is. *)
Lemma array_sort_of_sorted (l : list A) :
  StronglySorted (fun x y => sorts_after compareFn x y = false) l ->
  array_sort compareFn l = l.
Proof.
  induction 1 as [|x l Hs IH Hall]; simpl; [reflexivity|].
  rewrite IH. now apply sort_insert_head.
Qed.
End SortedInput.

Arguments array_sort_of_sorted {A} compareFn l _.

Section PantryFacts.
Context {R : Rounding} {F : Faithful R}.

Lemma fl_zero : (fl 0 == 0)%Q.
Proof. change 0%Q with (inject_Z 0). apply fl_Z. simpl. lia. Qed.

Lemma byExpiry_in_order (a b : Ingredient) :
  i_expiryDate a <= i_expiryDate b ->
  sorts_after PantryView.byExpiry a b = false.
Proof.
  intros H. unfold sorts_after, PantryView.byExpiry, new_Date, getTime, num_sub,
            of_Z, num_ltb, Qlt_bool.
  apply negb_false_iff. apply Qle_bool_iff.
  rewrite <- fl_zero. apply fl_monotone.
  assert (Hq : (inject_Z (i_expiryDate a * msPerDay)
                <= inject_Z (i_expiryDate b * msPerDay))%Q).
  { rewrite <- Zle_Qle. unfold msPerDay. lia. }
  lra.
Qed.

End PantryFacts.

(** X26. A category tab of the pantry view shows what the server lists for
    that category: filtering the full listing by the tab and sorting it
    again by expiry date gives the server's answer for the category, order
    included; under the tab "all" the listing is shown as it came. *)
Theorem X26_pantry_tab_shows_the_server_listing :
  forall (db : Schema.database) (userId tab : string),
    tab <> ""%string ->
    exists everything listed : list Ingredient,
      InventoryRoutes.get db userId None None None = Inventory.Json 200 everything /\
      InventoryRoutes.get db userId None (Some tab) None = Inventory.Json 200 listed /\
      PantryView.sorted tab everything = listed /\
      PantryView.sorted "all" everything = everything.
Proof.
  intros db userId tab Htab.
  eexists. eexists. split; [reflexivity|]. split; [reflexivity|].
  assert (Hsorted : forall rows,
    array_sort PantryView.byExpiry
               (map Inventory.as_Ingredient (Sqlite.order_by InventoryRoutes.by_expiry rows))
    = map Inventory.as_Ingredient (Sqlite.order_by InventoryRoutes.by_expiry rows)).
  { intros rows. apply array_sort_of_sorted.
    apply (StronglySorted_impl expiry_ascending).
    - intros a b. apply byExpiry_in_order.
    - apply order_by_expiry_sorted. }
  unfold PantryView.sorted, InventoryRoutes.selected.
  change (InventoryRoutes.given None) with (@None string). cbv iota.
  change (InventoryRoutes.ordering None) with InventoryRoutes.by_expiry.
  rewrite (given_nonempty _ Htab).
  split.
  - rewrite filter_map_swap'.
    rewrite (sql_order_by_filter _ by_expiry_asym by_expiry_trans).
    rewrite Hsorted. f_equal. f_equal.
    destruct (String.eqb tab "all") eqn:E.
    + apply filter_all. intros r _. reflexivity.
    + reflexivity.
  - rewrite filter_all by (intros i _; reflexivity). apply Hsorted.
Qed.

Lemma X26_pantry_tab_shows_the_server_listing_witness :
  "Dairy"%string <> ""%string /\
  exists everything listed : list Ingredient,
    InventoryRoutes.get store_with_one_item "u1" None None None
    = Inventory.Json 200 everything /\
    InventoryRoutes.get store_with_one_item "u1" None (Some "Dairy"%string) None
    = Inventory.Json 200 listed /\
    PantryView.sorted "Dairy" everything = listed.
Proof.
  assert (H : "Dairy"%string <> ""%string) by discriminate.
  split; [exact H|].
  destruct (X26_pantry_tab_shows_the_server_listing store_with_one_item "u1" "Dairy" H)
    as [everything [listed [H1 [H2 [H3 _]]]]].
  exists everything, listed. now repeat split.
Defined.

(* ================================================================= *)
(** * The savings figures of the dashboard *)

Lemma round_half_up_waste (n : Z) :
  round_half_up (inject_Z n * (7 # 2)) = (7 * n + 1) / 2.
Proof.
  unfold round_half_up. apply Qfloor_unique.
  - pose proof (Z.div_mod (7 * n + 1) 2 ltac:(lia)) as Hdm.
    pose proof (Z.mod_pos_bound (7 * n + 1) 2 ltac:(lia)) as Hm.
    assert (H : (2 * inject_Z ((7 * n + 1) / 2) <= inject_Z (7 * n + 1))%Q).
    { change 2%Q with (inject_Z 2). rewrite <- inject_Z_mult, <- Zle_Qle. lia. }
    rewrite inject_Z_plus, inject_Z_mult in H.
    change (inject_Z 7) with 7%Q in H. change (inject_Z 1) with 1%Q in H. lra.
  - pose proof (Z.div_mod (7 * n + 1) 2 ltac:(lia)) as Hdm.
    pose proof (Z.mod_pos_bound (7 * n + 1) 2 ltac:(lia)) as Hm.
    assert (H : (inject_Z (7 * n + 1) < 2 * inject_Z ((7 * n + 1) / 2 + 1))%Q).
    { change 2%Q with (inject_Z 2). rewrite <- inject_Z_mult, <- Zlt_Qlt. lia. }
    rewrite inject_Z_plus, inject_Z_mult in H.
    change (inject_Z 7) with 7%Q in H. change (inject_Z 1) with 1%Q in H. lra.
Qed.

Section DashboardFacts.
Context {R : Rounding} {F : Faithful R}.

Lemma dashboard_waste (inventory : list Ingredient) :
  Z.of_nat (List.length inventory) < 2 ^ 32 ->
  DashboardView.wasteSaved inventory
  = of_Z (round_half_up (inject_Z (Z.of_nat (List.length inventory)) * (7 # 2))).
Proof.
  intros H. unfold DashboardView.wasteSaved, of_nat, of_Z.
  apply waste_heuristic; [reflexivity | lia].
Qed.

Lemma dashboard_co2 (inventory : list Ingredient) :
  Z.of_nat (List.length inventory) < 2 ^ 32 ->
  DashboardView.co2Reduced inventory
  = of_Z (round_half_up (inject_Z (Z.of_nat (List.length inventory)) * (4 # 5))).
Proof.
  intros H. unfold DashboardView.co2Reduced, of_nat, of_Z.
  apply co2_heuristic; [reflexivity | lia].
Qed.

End DashboardFacts.

Lemma listing_length (db : Schema.database) (userId : string) :
  List.length (Sqlite.order_by InventoryRoutes.by_expiry
                 (InventoryRoutes.selected db userId None None))
  = List.length (Inventory.select_expiry db userId).
Proof.
  rewrite <- (Permutation_length (sql_order_by_perm _ _)).
  unfold InventoryRoutes.selected, Inventory.select_expiry.
  change (InventoryRoutes.given None) with (@None string). cbv iota.
  now rewrite length_map.
Qed.

(** X27. The dashboard estimates the savings from all the items it holds,
    the expired ones included, while the statistics route leaves these out.
    With the server's listing at hand and no usage row overriding, the two
    agree when nothing is expired, and the dashboard's waste figure is the
    larger one as soon as one item is. *)
Theorem X27_dashboard_estimates_count_expired_items :
  forall (toISOString : Z -> string) (db : Schema.database)
         (userId : string) (now : Z),
    let s := Inventory.stats toISOString db userId now in
    let usage := Inventory.select_usage db userId (substring 0 7 (toISOString now)) in
    Inventory.total s < 2 ^ 32 ->
    no_override usage Schema.estimated_savings ->
    no_override usage Schema.co2_saved ->
    exists inventory : list Ingredient,
      InventoryRoutes.get db userId None None None = Inventory.Json 200 inventory /\
      Z.of_nat (List.length inventory) = Inventory.total s /\
      DashboardView.wasteSaved inventory = of_Z ((7 * Inventory.total s + 1) / 2) /\
      Inventory.wasteSaved s
      = Inventory.interpolated
          (of_Z ((7 * (Inventory.total s - Inventory.expired s) + 1) / 2)) /\
      (Inventory.expired s = 0 ->
       Inventory.wasteSaved s = Inventory.interpolated (DashboardView.wasteSaved inventory) /\
       Inventory.co2Reduced s = Inventory.interpolated (DashboardView.co2Reduced inventory)) /\
      (0 < Inventory.expired s ->
       (7 * (Inventory.total s - Inventory.expired s) + 1) / 2
       < (7 * Inventory.total s + 1) / 2).
Proof.
  intros toISOString db userId now s usage Ht Hw Hc.
  destruct (summary_counts binary64 toISOString db userId now) as [E0 [E1 _]].
  fold s in E0, E1.
  pose proof (filter_length_le
                (fun e => bucket_eqb (Inventory.stats_bucket
                                        (Time now) (addDays (Time now) 3) e) Expired)
                (Inventory.select_expiry db userId)) as Hle.
  fold (in_bucket (Time now) (addDays (Time now) 3) Expired
                  (Inventory.select_expiry db userId)) in Hle.
  set (n := Inventory.total s - Inventory.expired s).
  assert (Hn : 0 <= n < 2 ^ 32) by (unfold n; lia).
  destruct (remaining_exact (Inventory.total s) (Inventory.expired s))
    as [r [Er Hr]]; [lia | exact Ht |]. fold n in Hr.
  assert (Hws : Inventory.wasteSaved s
                = Inventory.interpolated (of_Z (round_half_up (inject_Z n * (7 # 2))))).
  { unfold s, Inventory.stats. cbn [Inventory.wasteSaved].
    fold usage. rewrite (truthy_field_none _ _ Hw).
    change (num_sub _ _) with
      (num_sub (of_Z (Inventory.total s)) (of_Z (Inventory.expired s))).
    rewrite Er. now rewrite (waste_heuristic r n Hr Hn). }
  assert (Hcs : Inventory.co2Reduced s
                = Inventory.interpolated (of_Z (round_half_up (inject_Z n * (4 # 5))))).
  { unfold s, Inventory.stats. cbn [Inventory.co2Reduced].
    fold usage. rewrite (truthy_field_none _ _ Hc).
    change (num_sub _ _) with
      (num_sub (of_Z (Inventory.total s)) (of_Z (Inventory.expired s))).
    rewrite Er. now rewrite (co2_heuristic r n Hr Hn). }
  eexists. split; [reflexivity|].
  assert (Hlen : Z.of_nat (List.length
                   (map Inventory.as_Ingredient
                      (Sqlite.order_by (InventoryRoutes.ordering None)
                         (InventoryRoutes.selected db userId None None))))
                 = Inventory.total s).
  { rewrite length_map. change (InventoryRoutes.ordering None) with InventoryRoutes.by_expiry.
    now rewrite listing_length, E0. }
  split; [exact Hlen|].
  split; [|split; [|split]].
  - rewrite dashboard_waste by (rewrite Hlen; exact Ht).
    now rewrite Hlen, round_half_up_waste.
  - now rewrite Hws, round_half_up_waste.
  - intros He. assert (En : n = Inventory.total s) by (unfold n; lia).
    rewrite Hws, Hcs, En. split.
    + rewrite dashboard_waste by (rewrite Hlen; exact Ht). now rewrite Hlen.
    + rewrite dashboard_co2 by (rewrite Hlen; exact Ht). now rewrite Hlen.
  - intros He. fold n.
    pose proof (Z.div_mod (7 * n + 1) 2 ltac:(lia)).
    pose proof (Z.mod_pos_bound (7 * n + 1) 2 ltac:(lia)).
    pose proof (Z.div_mod (7 * Inventory.total s + 1) 2 ltac:(lia)).
    pose proof (Z.mod_pos_bound (7 * Inventory.total s + 1) 2 ltac:(lia)).
    unfold n in *. lia.
Qed.

Lemma X27_dashboard_estimates_count_expired_items_witness :
  Inventory.total (Inventory.stats clock_2024_06_10 store_with_default_usage
                                   "u1" june_noon) < 2 ^ 32 /\
  no_override (Inventory.select_usage store_with_default_usage "u1"
                 (substring 0 7 (clock_2024_06_10 june_noon)))
              Schema.estimated_savings /\
  no_override (Inventory.select_usage store_with_default_usage "u1"
                 (substring 0 7 (clock_2024_06_10 june_noon)))
              Schema.co2_saved /\
  exists inventory : list Ingredient,
    InventoryRoutes.get store_with_default_usage "u1" None None None
    = Inventory.Json 200 inventory /\
    DashboardView.wasteSaved inventory = of_Z 7.
Proof.
  assert (H1 : Inventory.total (Inventory.stats clock_2024_06_10 store_with_default_usage
                                                "u1" june_noon) < 2 ^ 32)
    by (vm_compute; reflexivity).
  assert (H2 : no_override (Inventory.select_usage store_with_default_usage "u1"
                              (substring 0 7 (clock_2024_06_10 june_noon)))
                           Schema.estimated_savings) by (cbn; reflexivity).
  assert (H3 : no_override (Inventory.select_usage store_with_default_usage "u1"
                              (substring 0 7 (clock_2024_06_10 june_noon)))
                           Schema.co2_saved) by (cbn; reflexivity).
  split; [exact H1|]. split; [exact H2|]. split; [exact H3|].
  destruct (X27_dashboard_estimates_count_expired_items clock_2024_06_10
              store_with_default_usage "u1" june_noon H1 H2 H3)
    as [inventory [E [_ [Hw _]]]].
  exists inventory. split; [exact E | exact Hw].
Defined.

(* ================================================================= *)
(** * The cleaned text of a receipt *)

Section OcrFacts.
Import Ocr.

Lemma collapse_blank (t : text) : forall b, Forall blank_is_space (collapse b t).
Proof.
  induction t as [|c t IH]; intros b; simpl; [constructor|].
  destruct (whitespace c) eqn:E.
  - destruct b; [apply IH|]. constructor; [now intros _ | apply IH].
  - constructor; [|apply IH]. intros H. congruence.
Qed.

Lemma bars_to_one_blank (s : text) :
  Forall blank_is_space s -> Forall blank_is_space (bars_to_one s).
Proof.
  induction 1 as [|c s Hc Hs IH]; simpl; constructor; [|exact IH].
  destruct (((c =? 124) || (c =? 108)) && before_digit s); [|exact Hc].
  intros H. discriminate.
Qed.

Lemma o_to_zero_blank (s : text) :
  Forall blank_is_space s -> Forall blank_is_space (o_to_zero s).
Proof.
  induction 1 as [|c s Hc Hs IH]; simpl; constructor; [|exact IH].
  destruct ((c =? 79) && before_digit s); [|exact Hc].
  intros H. discriminate.
Qed.

Lemma bang_to_one_blank (s : text) :
  Forall blank_is_space s ->
  Forall (fun c => blank_is_space c /\ c <> 33) (bang_to_one s).
Proof.
  unfold bang_to_one. induction 1 as [|c s Hc Hs IH]; simpl; constructor; [|exact IH].
  destruct (c =? 33) eqn:E.
  - split; [intros H; discriminate | discriminate].
  - apply Z.eqb_neq in E. now split.
Qed.

Lemma printable_range (s : text) :
  Forall (fun c => blank_is_space c /\ c <> 33) s ->
  Forall (fun c => 32 <= c <= 126 /\ c <> 33) (printable s).
Proof.
  unfold printable. intros H. apply Forall_forall. intros c Hc.
  apply filter_In in Hc. destruct Hc as [Hin Hp].
  rewrite Forall_forall in H. destruct (H c Hin) as [Hb Hn].
  split; [|exact Hn].
  apply orb_true_iff in Hp. destruct Hp as [Hp|Hp].
  - apply andb_true_iff in Hp. rewrite !Z.leb_le in Hp. exact Hp.
  - apply Z.eqb_eq in Hp. subst c. specialize (Hb eq_refl). discriminate.
Qed.

Lemma unix_lines_same (s : text) :
  Forall (fun c => c <> 13) s -> unix_lines s = s.
Proof.
  induction 1 as [|c s Hc Hs IH]; [reflexivity|].
  cbn [unix_lines]. destruct s as [|d s']; [reflexivity|].
  apply Z.eqb_neq in Hc. rewrite Hc. cbn [andb]. now rewrite IH.
Qed.

Lemma trimStart_suffix (s : text) : exists pre, s = pre ++ trimStart s.
Proof.
  induction s as [|c s [pre IH]]; simpl.
  - now exists [].
  - destruct (whitespace c).
    + exists (c :: pre). simpl. now rewrite <- IH.
    + now exists [].
Qed.

Lemma trimStart_head (s : text) (c : Z) (rest : text) :
  trimStart s = c :: rest -> whitespace c = false.
Proof.
  induction s as [|d s IH]; simpl; [discriminate|].
  destruct (whitespace d) eqn:E; [exact IH|].
  intros H. inversion H; subst. exact E.
Qed.

Lemma trimStart_Forall (Q : Z -> Prop) (s : text) :
  Forall Q s -> Forall Q (trimStart s).
Proof.
  intros H. destruct (trimStart_suffix s) as [pre E].
  rewrite E in H. now apply Forall_app in H.
Qed.

Lemma trim_Forall (Q : Z -> Prop) (s : text) : Forall Q s -> Forall Q (trim s).
Proof.
  intros H. unfold trim. apply Forall_rev. apply trimStart_Forall.
  apply Forall_rev. now apply trimStart_Forall.
Qed.

Lemma trim_last (s front : text) (c : Z) :
  trim s = front ++ [c] -> whitespace c = false.
Proof.
  unfold trim. intros H.
  apply (f_equal (@rev Z)) in H. rewrite rev_involutive, rev_app_distr in H.
  simpl in H. now apply trimStart_head in H.
Qed.

Lemma trim_first (s : text) (c : Z) (rest : text) :
  trim s = c :: rest -> whitespace c = false.
Proof.
  unfold trim. intros H.
  destruct (trimStart_suffix (rev (trimStart s))) as [pre E].
  apply (f_equal (@rev Z)) in E. rewrite rev_involutive, rev_app_distr, H in E.
  simpl in E. now apply trimStart_head in E.
Qed.

End OcrFacts.

(** X28. The cleaned text of a receipt is one line of printable ASCII:
    every code unit lies between the space and the tilde, none is an
    exclamation mark, and the text neither starts nor ends with a space.
    No line break of the receipt survives, so that the step that rewrites
    the line endings never changes anything. *)
Theorem X28_cleaned_text_is_one_printable_line :
  forall t : Ocr.text,
    let out := Ocr.cleanOCRText t in
    Forall (fun c => 32 <= c <= 126 /\ c <> 33) out /\
    (forall c rest, out = c :: rest -> c <> 32) /\
    (forall front c, out = front ++ [c] -> c <> 32) /\
    out = Ocr.trim (Ocr.printable (Ocr.bang_to_one (Ocr.o_to_zero
            (Ocr.bars_to_one (Ocr.collapse false t))))).
Proof.
  intros t out.
  pose proof (printable_range _ (bang_to_one_blank _ (o_to_zero_blank _
                (bars_to_one_blank _ (collapse_blank t false))))) as Hp.
  assert (Hsame : out = Ocr.trim (Ocr.printable (Ocr.bang_to_one (Ocr.o_to_zero
                          (Ocr.bars_to_one (Ocr.collapse false t)))))).
  { unfold out, Ocr.cleanOCRText. rewrite unix_lines_same; [reflexivity|].
    eapply Forall_impl; [|exact Hp]. intros c [H _]. lia. }
  split; [|split; [|split; [|exact Hsame]]].
  - rewrite Hsame. now apply trim_Forall.
  - intros c rest H. rewrite Hsame in H. apply trim_first in H.
    intros ->. discriminate.
  - intros front c H. rewrite Hsame in H. apply trim_last in H.
    intros ->. discriminate.
Qed.
